(** * Trafer: answer checking, attempt policy and the pupil's paper page

    A shallow embedding of the scoring core of [app.py]: the answer
    normalizer ([normalize_scalar]), the two comparison rules
    ([check_single], [check_table]), the scorer ([auto_score]), the attempt
    counter and limit ([get_attempt_count], [attempts_remaining]) and the page
    that ties them together ([page_pupil_paper]).

    Python values are modelled as follows.
    - A [str] is a list of Unicode code points ([pystr]).
    - An answer (what [json.loads] gives back for a key, what a widget returns
      for a submission) is a string or a grid of strings ([answer]).
    - A [dict] is a [gmap]; the SQLite tables are a record of maps and a list.
    - The percentage is the exact rational [100 * correct / max(1, n)]; the
      Python float is the rounding of that rational, so equal rationals give
      equal floats. *)

From Stdlib Require Import ZArith NArith QArith Lia Ascii String.
From stdpp Require Import gmap list.

Local Open Scope Z_scope.

(** ** Python strings *)

Module PyStr.

(** A code point, and a Python [str] as the sequence of its code points. *)
Definition codepoint := N.
Definition pystr := list N.

(** The code points of an ASCII literal. *)
Fixpoint lit (s : string) : pystr :=
  match s with
  | EmptyString => []
  | String a rest => N_of_ascii a :: lit rest
  end.

(** [str.isspace] on one code point: the characters [str.strip()] removes.
    This is the whole Unicode list (bidirectional classes WS, B, S and
    category Zs). *)
Definition is_space (c : codepoint) : bool :=
  ((9 <=? c) && (c <=? 13) || (28 <=? c) && (c <=? 32)
   || (c =? 133) || (c =? 160) || (c =? 5760)
   || (8192 <=? c) && (c <=? 8202)
   || (c =? 8232) || (c =? 8233) || (c =? 8239) || (c =? 8287)
   || (c =? 12288))%N.

(** *** Case mappings

    [str.lower] and [str.upper] follow the Unicode character database that the
    interpreter carries.  The tables below are the database of CPython 3.11
    (Unicode 14.0.0), listed from the interpreter itself: for every code point
    [c], [lower_cp c] is [chr(c).lower()] and [upper_cp c] is [chr(c).upper()].
    The one rule of [str.lower] that looks beyond the code point, the final
    sigma, is in [lower]. *)

(** A rule of a case table: the code points [first], [first + step], ...,
    [last] map to [target], [target + step], ... *)
Definition case_rule : Type := codepoint * codepoint * N * codepoint.

Definition rule_applies (c : codepoint) (r : case_rule) : bool :=
  let '(first, last, step, _) := r in
  ((first <=? c) && (c <=? last) && ((c - first) mod step =? 0))%N.

(** The image of a code point under a table; a code point that no rule covers
    is its own image. *)
Definition simple_map (table : list case_rule) (c : codepoint) : codepoint :=
  match List.find (rule_applies c) table with
  | Some (first, _, _, target) => (target + (c - first))%N
  | None => c
  end.

Definition in_ranges (ranges : list (codepoint * codepoint)) (c : codepoint) : bool :=
  existsb (fun r => ((fst r <=? c) && (c <=? snd r))%N) ranges.

(** The code points that [str.lower] changes, one to one. *)
Definition lower_rules : list case_rule :=
  [
   (65, 90, 1, 97); (192, 214, 1, 224); (216, 222, 1, 248); (256, 302, 2, 257); (306,
   310, 2, 307); (313, 327, 2, 314); (330, 374, 2, 331); (376, 376, 1, 255); (377, 381,
   2, 378); (385, 385, 1, 595); (386, 388, 2, 387); (390, 390, 1, 596); (391, 391, 1,
   392); (393, 394, 1, 598); (395, 395, 1, 396); (398, 398, 1, 477); (399, 399, 1, 601);
   (400, 400, 1, 603); (401, 401, 1, 402); (403, 403, 1, 608); (404, 404, 1, 611); (406,
   406, 1, 617); (407, 407, 1, 616); (408, 408, 1, 409); (412, 412, 1, 623); (413, 413,
   1, 626); (415, 415, 1, 629); (416, 420, 2, 417); (422, 422, 1, 640); (423, 423, 1,
   424); (425, 425, 1, 643); (428, 428, 1, 429); (430, 430, 1, 648); (431, 431, 1, 432);
   (433, 434, 1, 650); (435, 437, 2, 436); (439, 439, 1, 658); (440, 440, 1, 441); (444,
   444, 1, 445); (452, 452, 1, 454); (453, 453, 1, 454); (455, 455, 1, 457); (456, 456,
   1, 457); (458, 458, 1, 460); (459, 475, 2, 460); (478, 494, 2, 479); (497, 497, 1,
   499); (498, 500, 2, 499); (502, 502, 1, 405); (503, 503, 1, 447); (504, 542, 2, 505);
   (544, 544, 1, 414); (546, 562, 2, 547); (570, 570, 1, 11365); (571, 571, 1, 572);
   (573, 573, 1, 410); (574, 574, 1, 11366); (577, 577, 1, 578); (579, 579, 1, 384);
   (580, 580, 1, 649); (581, 581, 1, 652); (582, 590, 2, 583); (880, 882, 2, 881); (886,
   886, 1, 887); (895, 895, 1, 1011); (902, 902, 1, 940); (904, 906, 1, 941); (908, 908,
   1, 972); (910, 911, 1, 973); (913, 929, 1, 945); (931, 939, 1, 963); (975, 975, 1,
   983); (984, 1006, 2, 985); (1012, 1012, 1, 952); (1015, 1015, 1, 1016); (1017, 1017,
   1, 1010); (1018, 1018, 1, 1019); (1021, 1023, 1, 891); (1024, 1039, 1, 1104); (1040,
   1071, 1, 1072); (1120, 1152, 2, 1121); (1162, 1214, 2, 1163); (1216, 1216, 1, 1231);
   (1217, 1229, 2, 1218); (1232, 1326, 2, 1233); (1329, 1366, 1, 1377); (4256, 4293, 1,
   11520); (4295, 4295, 1, 11559); (4301, 4301, 1, 11565); (5024, 5103, 1, 43888);
   (5104, 5109, 1, 5112); (7312, 7354, 1, 4304); (7357, 7359, 1, 4349); (7680, 7828, 2,
   7681); (7838, 7838, 1, 223); (7840, 7934, 2, 7841); (7944, 7951, 1, 7936); (7960,
   7965, 1, 7952); (7976, 7983, 1, 7968); (7992, 7999, 1, 7984); (8008, 8013, 1, 8000);
   (8025, 8031, 2, 8017); (8040, 8047, 1, 8032); (8072, 8079, 1, 8064); (8088, 8095, 1,
   8080); (8104, 8111, 1, 8096); (8120, 8121, 1, 8112); (8122, 8123, 1, 8048); (8124,
   8124, 1, 8115); (8136, 8139, 1, 8050); (8140, 8140, 1, 8131); (8152, 8153, 1, 8144);
   (8154, 8155, 1, 8054); (8168, 8169, 1, 8160); (8170, 8171, 1, 8058); (8172, 8172, 1,
   8165); (8184, 8185, 1, 8056); (8186, 8187, 1, 8060); (8188, 8188, 1, 8179); (8486,
   8486, 1, 969); (8490, 8490, 1, 107); (8491, 8491, 1, 229); (8498, 8498, 1, 8526);
   (8544, 8559, 1, 8560); (8579, 8579, 1, 8580); (9398, 9423, 1, 9424); (11264, 11311,
   1, 11312); (11360, 11360, 1, 11361); (11362, 11362, 1, 619); (11363, 11363, 1, 7549);
   (11364, 11364, 1, 637); (11367, 11371, 2, 11368); (11373, 11373, 1, 593); (11374,
   11374, 1, 625); (11375, 11375, 1, 592); (11376, 11376, 1, 594); (11378, 11378, 1,
   11379); (11381, 11381, 1, 11382); (11390, 11391, 1, 575); (11392, 11490, 2, 11393);
   (11499, 11501, 2, 11500); (11506, 11506, 1, 11507); (42560, 42604, 2, 42561); (42624,
   42650, 2, 42625); (42786, 42798, 2, 42787); (42802, 42862, 2, 42803); (42873, 42875,
   2, 42874); (42877, 42877, 1, 7545); (42878, 42886, 2, 42879); (42891, 42891, 1,
   42892); (42893, 42893, 1, 613); (42896, 42898, 2, 42897); (42902, 42920, 2, 42903);
   (42922, 42922, 1, 614); (42923, 42923, 1, 604); (42924, 42924, 1, 609); (42925,
   42925, 1, 620); (42926, 42926, 1, 618); (42928, 42928, 1, 670); (42929, 42929, 1,
   647); (42930, 42930, 1, 669); (42931, 42931, 1, 43859); (42932, 42946, 2, 42933);
   (42948, 42948, 1, 42900); (42949, 42949, 1, 642); (42950, 42950, 1, 7566); (42951,
   42953, 2, 42952); (42960, 42960, 1, 42961); (42966, 42968, 2, 42967); (42997, 42997,
   1, 42998); (65313, 65338, 1, 65345); (66560, 66599, 1, 66600); (66736, 66771, 1,
   66776); (66928, 66938, 1, 66967); (66940, 66954, 1, 66979); (66956, 66962, 1, 66995);
   (66964, 66965, 1, 67003); (68736, 68786, 1, 68800); (71840, 71871, 1, 71872); (93760,
   93791, 1, 93792); (125184, 125217, 1, 125218)
  ]%N.

(** The code points that [str.upper] changes, one to one. *)
Definition upper_rules : list case_rule :=
  [
   (97, 122, 1, 65); (181, 181, 1, 924); (224, 246, 1, 192); (248, 254, 1, 216); (255,
   255, 1, 376); (257, 303, 2, 256); (305, 305, 1, 73); (307, 311, 2, 306); (314, 328,
   2, 313); (331, 375, 2, 330); (378, 382, 2, 377); (383, 383, 1, 83); (384, 384, 1,
   579); (387, 389, 2, 386); (392, 392, 1, 391); (396, 396, 1, 395); (402, 402, 1, 401);
   (405, 405, 1, 502); (409, 409, 1, 408); (410, 410, 1, 573); (414, 414, 1, 544); (417,
   421, 2, 416); (424, 424, 1, 423); (429, 429, 1, 428); (432, 432, 1, 431); (436, 438,
   2, 435); (441, 441, 1, 440); (445, 445, 1, 444); (447, 447, 1, 503); (453, 453, 1,
   452); (454, 454, 1, 452); (456, 456, 1, 455); (457, 457, 1, 455); (459, 459, 1, 458);
   (460, 460, 1, 458); (462, 476, 2, 461); (477, 477, 1, 398); (479, 495, 2, 478); (498,
   498, 1, 497); (499, 499, 1, 497); (501, 501, 1, 500); (505, 543, 2, 504); (547, 563,
   2, 546); (572, 572, 1, 571); (575, 576, 1, 11390); (578, 578, 1, 577); (583, 591, 2,
   582); (592, 592, 1, 11375); (593, 593, 1, 11373); (594, 594, 1, 11376); (595, 595, 1,
   385); (596, 596, 1, 390); (598, 599, 1, 393); (601, 601, 1, 399); (603, 603, 1, 400);
   (604, 604, 1, 42923); (608, 608, 1, 403); (609, 609, 1, 42924); (611, 611, 1, 404);
   (613, 613, 1, 42893); (614, 614, 1, 42922); (616, 616, 1, 407); (617, 617, 1, 406);
   (618, 618, 1, 42926); (619, 619, 1, 11362); (620, 620, 1, 42925); (623, 623, 1, 412);
   (625, 625, 1, 11374); (626, 626, 1, 413); (629, 629, 1, 415); (637, 637, 1, 11364);
   (640, 640, 1, 422); (642, 642, 1, 42949); (643, 643, 1, 425); (647, 647, 1, 42929);
   (648, 648, 1, 430); (649, 649, 1, 580); (650, 651, 1, 433); (652, 652, 1, 581); (658,
   658, 1, 439); (669, 669, 1, 42930); (670, 670, 1, 42928); (837, 837, 1, 921); (881,
   883, 2, 880); (887, 887, 1, 886); (891, 893, 1, 1021); (940, 940, 1, 902); (941, 943,
   1, 904); (945, 961, 1, 913); (962, 962, 1, 931); (963, 971, 1, 931); (972, 972, 1,
   908); (973, 974, 1, 910); (976, 976, 1, 914); (977, 977, 1, 920); (981, 981, 1, 934);
   (982, 982, 1, 928); (983, 983, 1, 975); (985, 1007, 2, 984); (1008, 1008, 1, 922);
   (1009, 1009, 1, 929); (1010, 1010, 1, 1017); (1011, 1011, 1, 895); (1013, 1013, 1,
   917); (1016, 1016, 1, 1015); (1019, 1019, 1, 1018); (1072, 1103, 1, 1040); (1104,
   1119, 1, 1024); (1121, 1153, 2, 1120); (1163, 1215, 2, 1162); (1218, 1230, 2, 1217);
   (1231, 1231, 1, 1216); (1233, 1327, 2, 1232); (1377, 1414, 1, 1329); (4304, 4346, 1,
   7312); (4349, 4351, 1, 7357); (5112, 5117, 1, 5104); (7296, 7296, 1, 1042); (7297,
   7297, 1, 1044); (7298, 7298, 1, 1054); (7299, 7300, 1, 1057); (7301, 7301, 1, 1058);
   (7302, 7302, 1, 1066); (7303, 7303, 1, 1122); (7304, 7304, 1, 42570); (7545, 7545, 1,
   42877); (7549, 7549, 1, 11363); (7566, 7566, 1, 42950); (7681, 7829, 2, 7680); (7835,
   7835, 1, 7776); (7841, 7935, 2, 7840); (7936, 7943, 1, 7944); (7952, 7957, 1, 7960);
   (7968, 7975, 1, 7976); (7984, 7991, 1, 7992); (8000, 8005, 1, 8008); (8017, 8023, 2,
   8025); (8032, 8039, 1, 8040); (8048, 8049, 1, 8122); (8050, 8053, 1, 8136); (8054,
   8055, 1, 8154); (8056, 8057, 1, 8184); (8058, 8059, 1, 8170); (8060, 8061, 1, 8186);
   (8112, 8113, 1, 8120); (8126, 8126, 1, 921); (8144, 8145, 1, 8152); (8160, 8161, 1,
   8168); (8165, 8165, 1, 8172); (8526, 8526, 1, 8498); (8560, 8575, 1, 8544); (8580,
   8580, 1, 8579); (9424, 9449, 1, 9398); (11312, 11359, 1, 11264); (11361, 11361, 1,
   11360); (11365, 11365, 1, 570); (11366, 11366, 1, 574); (11368, 11372, 2, 11367);
   (11379, 11379, 1, 11378); (11382, 11382, 1, 11381); (11393, 11491, 2, 11392); (11500,
   11502, 2, 11499); (11507, 11507, 1, 11506); (11520, 11557, 1, 4256); (11559, 11559,
   1, 4295); (11565, 11565, 1, 4301); (42561, 42605, 2, 42560); (42625, 42651, 2,
   42624); (42787, 42799, 2, 42786); (42803, 42863, 2, 42802); (42874, 42876, 2, 42873);
   (42879, 42887, 2, 42878); (42892, 42892, 1, 42891); (42897, 42899, 2, 42896); (42900,
   42900, 1, 42948); (42903, 42921, 2, 42902); (42933, 42947, 2, 42932); (42952, 42954,
   2, 42951); (42961, 42961, 1, 42960); (42967, 42969, 2, 42966); (42998, 42998, 1,
   42997); (43859, 43859, 1, 42931); (43888, 43967, 1, 5024); (65345, 65370, 1, 65313);
   (66600, 66639, 1, 66560); (66776, 66811, 1, 66736); (66967, 66977, 1, 66928); (66979,
   66993, 1, 66940); (66995, 67001, 1, 66956); (67003, 67004, 1, 66964); (68800, 68850,
   1, 68736); (71872, 71903, 1, 71840); (93792, 93823, 1, 93760); (125218, 125251, 1,
   125184)
  ]%N.

(** The code points that [str.upper] maps to more than one code point, with
    their images (the sharp s to SS, the ligatures, the Greek letters with
    iota subscript, ...). *)
Definition upper_special : list (codepoint * pystr) :=
  [
   (223, [83; 83]); (329, [700; 78]); (496, [74; 780]); (912, [921; 776; 769]); (944,
   [933; 776; 769]); (1415, [1333; 1362]); (7830, [72; 817]); (7831, [84; 776]); (7832,
   [87; 778]); (7833, [89; 778]); (7834, [65; 702]); (8016, [933; 787]); (8018, [933;
   787; 768]); (8020, [933; 787; 769]); (8022, [933; 787; 834]); (8064, [7944; 921]);
   (8065, [7945; 921]); (8066, [7946; 921]); (8067, [7947; 921]); (8068, [7948; 921]);
   (8069, [7949; 921]); (8070, [7950; 921]); (8071, [7951; 921]); (8072, [7944; 921]);
   (8073, [7945; 921]); (8074, [7946; 921]); (8075, [7947; 921]); (8076, [7948; 921]);
   (8077, [7949; 921]); (8078, [7950; 921]); (8079, [7951; 921]); (8080, [7976; 921]);
   (8081, [7977; 921]); (8082, [7978; 921]); (8083, [7979; 921]); (8084, [7980; 921]);
   (8085, [7981; 921]); (8086, [7982; 921]); (8087, [7983; 921]); (8088, [7976; 921]);
   (8089, [7977; 921]); (8090, [7978; 921]); (8091, [7979; 921]); (8092, [7980; 921]);
   (8093, [7981; 921]); (8094, [7982; 921]); (8095, [7983; 921]); (8096, [8040; 921]);
   (8097, [8041; 921]); (8098, [8042; 921]); (8099, [8043; 921]); (8100, [8044; 921]);
   (8101, [8045; 921]); (8102, [8046; 921]); (8103, [8047; 921]); (8104, [8040; 921]);
   (8105, [8041; 921]); (8106, [8042; 921]); (8107, [8043; 921]); (8108, [8044; 921]);
   (8109, [8045; 921]); (8110, [8046; 921]); (8111, [8047; 921]); (8114, [8122; 921]);
   (8115, [913; 921]); (8116, [902; 921]); (8118, [913; 834]); (8119, [913; 834; 921]);
   (8124, [913; 921]); (8130, [8138; 921]); (8131, [919; 921]); (8132, [905; 921]);
   (8134, [919; 834]); (8135, [919; 834; 921]); (8140, [919; 921]); (8146, [921; 776;
   768]); (8147, [921; 776; 769]); (8150, [921; 834]); (8151, [921; 776; 834]); (8162,
   [933; 776; 768]); (8163, [933; 776; 769]); (8164, [929; 787]); (8166, [933; 834]);
   (8167, [933; 776; 834]); (8178, [8186; 921]); (8179, [937; 921]); (8180, [911; 921]);
   (8182, [937; 834]); (8183, [937; 834; 921]); (8188, [937; 921]); (64256, [70; 70]);
   (64257, [70; 73]); (64258, [70; 76]); (64259, [70; 70; 73]); (64260, [70; 70; 76]);
   (64261, [83; 84]); (64262, [83; 84]); (64275, [1348; 1350]); (64276, [1348; 1333]);
   (64277, [1348; 1339]); (64278, [1358; 1350]); (64279, [1348; 1341])
  ]%N.

(** The code points with the property Case_Ignorable (marks, modifiers,
    apostrophes, ...). *)
Definition case_ignorable_ranges : list (codepoint * codepoint) :=
  [
   (39, 39); (46, 46); (58, 58); (94, 94); (96, 96); (168, 168); (173, 173); (175, 175);
   (180, 180); (183, 184); (688, 879); (884, 885); (890, 890); (900, 901); (903, 903);
   (1155, 1161); (1369, 1369); (1375, 1375); (1425, 1469); (1471, 1471); (1473, 1474);
   (1476, 1477); (1479, 1479); (1524, 1524); (1536, 1541); (1552, 1562); (1564, 1564);
   (1600, 1600); (1611, 1631); (1648, 1648); (1750, 1757); (1759, 1768); (1770, 1773);
   (1807, 1807); (1809, 1809); (1840, 1866); (1958, 1968); (2027, 2037); (2042, 2042);
   (2045, 2045); (2070, 2093); (2137, 2139); (2184, 2184); (2192, 2193); (2200, 2207);
   (2249, 2306); (2362, 2362); (2364, 2364); (2369, 2376); (2381, 2381); (2385, 2391);
   (2402, 2403); (2417, 2417); (2433, 2433); (2492, 2492); (2497, 2500); (2509, 2509);
   (2530, 2531); (2558, 2558); (2561, 2562); (2620, 2620); (2625, 2626); (2631, 2632);
   (2635, 2637); (2641, 2641); (2672, 2673); (2677, 2677); (2689, 2690); (2748, 2748);
   (2753, 2757); (2759, 2760); (2765, 2765); (2786, 2787); (2810, 2815); (2817, 2817);
   (2876, 2876); (2879, 2879); (2881, 2884); (2893, 2893); (2901, 2902); (2914, 2915);
   (2946, 2946); (3008, 3008); (3021, 3021); (3072, 3072); (3076, 3076); (3132, 3132);
   (3134, 3136); (3142, 3144); (3146, 3149); (3157, 3158); (3170, 3171); (3201, 3201);
   (3260, 3260); (3263, 3263); (3270, 3270); (3276, 3277); (3298, 3299); (3328, 3329);
   (3387, 3388); (3393, 3396); (3405, 3405); (3426, 3427); (3457, 3457); (3530, 3530);
   (3538, 3540); (3542, 3542); (3633, 3633); (3636, 3642); (3654, 3662); (3761, 3761);
   (3764, 3772); (3782, 3782); (3784, 3789); (3864, 3865); (3893, 3893); (3895, 3895);
   (3897, 3897); (3953, 3966); (3968, 3972); (3974, 3975); (3981, 3991); (3993, 4028);
   (4038, 4038); (4141, 4144); (4146, 4151); (4153, 4154); (4157, 4158); (4184, 4185);
   (4190, 4192); (4209, 4212); (4226, 4226); (4229, 4230); (4237, 4237); (4253, 4253);
   (4348, 4348); (4957, 4959); (5906, 5908); (5938, 5939); (5970, 5971); (6002, 6003);
   (6068, 6069); (6071, 6077); (6086, 6086); (6089, 6099); (6103, 6103); (6109, 6109);
   (6155, 6159); (6211, 6211); (6277, 6278); (6313, 6313); (6432, 6434); (6439, 6440);
   (6450, 6450); (6457, 6459); (6679, 6680); (6683, 6683); (6742, 6742); (6744, 6750);
   (6752, 6752); (6754, 6754); (6757, 6764); (6771, 6780); (6783, 6783); (6823, 6823);
   (6832, 6862); (6912, 6915); (6964, 6964); (6966, 6970); (6972, 6972); (6978, 6978);
   (7019, 7027); (7040, 7041); (7074, 7077); (7080, 7081); (7083, 7085); (7142, 7142);
   (7144, 7145); (7149, 7149); (7151, 7153); (7212, 7219); (7222, 7223); (7288, 7293);
   (7376, 7378); (7380, 7392); (7394, 7400); (7405, 7405); (7412, 7412); (7416, 7417);
   (7468, 7530); (7544, 7544); (7579, 7679); (8125, 8125); (8127, 8129); (8141, 8143);
   (8157, 8159); (8173, 8175); (8189, 8190); (8203, 8207); (8216, 8217); (8228, 8228);
   (8231, 8231); (8234, 8238); (8288, 8292); (8294, 8303); (8305, 8305); (8319, 8319);
   (8336, 8348); (8400, 8432); (11388, 11389); (11503, 11505); (11631, 11631); (11647,
   11647); (11744, 11775); (11823, 11823); (12293, 12293); (12330, 12333); (12337,
   12341); (12347, 12347); (12441, 12446); (12540, 12542); (40981, 40981); (42232,
   42237); (42508, 42508); (42607, 42610); (42612, 42621); (42623, 42623); (42652,
   42655); (42736, 42737); (42752, 42785); (42864, 42864); (42888, 42890); (42994,
   42996); (43000, 43001); (43010, 43010); (43014, 43014); (43019, 43019); (43045,
   43046); (43052, 43052); (43204, 43205); (43232, 43249); (43263, 43263); (43302,
   43309); (43335, 43345); (43392, 43394); (43443, 43443); (43446, 43449); (43452,
   43453); (43471, 43471); (43493, 43494); (43561, 43566); (43569, 43570); (43573,
   43574); (43587, 43587); (43596, 43596); (43632, 43632); (43644, 43644); (43696,
   43696); (43698, 43700); (43703, 43704); (43710, 43711); (43713, 43713); (43741,
   43741); (43756, 43757); (43763, 43764); (43766, 43766); (43867, 43871); (43881,
   43883); (44005, 44005); (44008, 44008); (44013, 44013); (64286, 64286); (64434,
   64450); (65024, 65039); (65043, 65043); (65056, 65071); (65106, 65106); (65109,
   65109); (65279, 65279); (65287, 65287); (65294, 65294); (65306, 65306); (65342,
   65342); (65344, 65344); (65392, 65392); (65438, 65439); (65507, 65507); (65529,
   65531); (66045, 66045); (66272, 66272); (66422, 66426); (67456, 67461); (67463,
   67504); (67506, 67514); (68097, 68099); (68101, 68102); (68108, 68111); (68152,
   68154); (68159, 68159); (68325, 68326); (68900, 68903); (69291, 69292); (69446,
   69456); (69506, 69509); (69633, 69633); (69688, 69702); (69744, 69744); (69747,
   69748); (69759, 69761); (69811, 69814); (69817, 69818); (69821, 69821); (69826,
   69826); (69837, 69837); (69888, 69890); (69927, 69931); (69933, 69940); (70003,
   70003); (70016, 70017); (70070, 70078); (70089, 70092); (70095, 70095); (70191,
   70193); (70196, 70196); (70198, 70199); (70206, 70206); (70367, 70367); (70371,
   70378); (70400, 70401); (70459, 70460); (70464, 70464); (70502, 70508); (70512,
   70516); (70712, 70719); (70722, 70724); (70726, 70726); (70750, 70750); (70835,
   70840); (70842, 70842); (70847, 70848); (70850, 70851); (71090, 71093); (71100,
   71101); (71103, 71104); (71132, 71133); (71219, 71226); (71229, 71229); (71231,
   71232); (71339, 71339); (71341, 71341); (71344, 71349); (71351, 71351); (71453,
   71455); (71458, 71461); (71463, 71467); (71727, 71735); (71737, 71738); (71995,
   71996); (71998, 71998); (72003, 72003); (72148, 72151); (72154, 72155); (72160,
   72160); (72193, 72202); (72243, 72248); (72251, 72254); (72263, 72263); (72273,
   72278); (72281, 72283); (72330, 72342); (72344, 72345); (72752, 72758); (72760,
   72765); (72767, 72767); (72850, 72871); (72874, 72880); (72882, 72883); (72885,
   72886); (73009, 73014); (73018, 73018); (73020, 73021); (73023, 73029); (73031,
   73031); (73104, 73105); (73109, 73109); (73111, 73111); (73459, 73460); (78896,
   78904); (92912, 92916); (92976, 92982); (92992, 92995); (94031, 94031); (94095,
   94111); (94176, 94177); (94179, 94180); (110576, 110579); (110581, 110587); (110589,
   110590); (113821, 113822); (113824, 113827); (118528, 118573); (118576, 118598);
   (119143, 119145); (119155, 119170); (119173, 119179); (119210, 119213); (119362,
   119364); (121344, 121398); (121403, 121452); (121461, 121461); (121476, 121476);
   (121499, 121503); (121505, 121519); (122880, 122886); (122888, 122904); (122907,
   122913); (122915, 122916); (122918, 122922); (123184, 123197); (123566, 123566);
   (123628, 123631); (125136, 125142); (125252, 125259); (127995, 127999); (917505,
   917505); (917536, 917631); (917760, 917999)
  ]%N.

(** The code points with the property Cased that are not Case_Ignorable. *)
Definition cased_ranges : list (codepoint * codepoint) :=
  [
   (65, 90); (97, 122); (170, 170); (181, 181); (186, 186); (192, 214); (216, 246);
   (248, 442); (444, 447); (452, 659); (661, 687); (880, 883); (886, 887); (891, 893);
   (895, 895); (902, 902); (904, 906); (908, 908); (910, 929); (931, 1013); (1015,
   1153); (1162, 1327); (1329, 1366); (1376, 1416); (4256, 4293); (4295, 4295); (4301,
   4301); (4304, 4346); (4349, 4351); (5024, 5109); (5112, 5117); (7296, 7304); (7312,
   7354); (7357, 7359); (7424, 7467); (7531, 7543); (7545, 7578); (7680, 7957); (7960,
   7965); (7968, 8005); (8008, 8013); (8016, 8023); (8025, 8025); (8027, 8027); (8029,
   8029); (8031, 8061); (8064, 8116); (8118, 8124); (8126, 8126); (8130, 8132); (8134,
   8140); (8144, 8147); (8150, 8155); (8160, 8172); (8178, 8180); (8182, 8188); (8450,
   8450); (8455, 8455); (8458, 8467); (8469, 8469); (8473, 8477); (8484, 8484); (8486,
   8486); (8488, 8488); (8490, 8493); (8495, 8500); (8505, 8505); (8508, 8511); (8517,
   8521); (8526, 8526); (8544, 8575); (8579, 8580); (9398, 9449); (11264, 11387);
   (11390, 11492); (11499, 11502); (11506, 11507); (11520, 11557); (11559, 11559);
   (11565, 11565); (42560, 42605); (42624, 42651); (42786, 42863); (42865, 42887);
   (42891, 42894); (42896, 42954); (42960, 42961); (42963, 42963); (42965, 42969);
   (42997, 42998); (43002, 43002); (43824, 43866); (43872, 43880); (43888, 43967);
   (64256, 64262); (64275, 64279); (65313, 65338); (65345, 65370); (66560, 66639);
   (66736, 66771); (66776, 66811); (66928, 66938); (66940, 66954); (66956, 66962);
   (66964, 66965); (66967, 66977); (66979, 66993); (66995, 67001); (67003, 67004);
   (68736, 68786); (68800, 68850); (71840, 71903); (93760, 93823); (119808, 119892);
   (119894, 119964); (119966, 119967); (119970, 119970); (119973, 119974); (119977,
   119980); (119982, 119993); (119995, 119995); (119997, 120003); (120005, 120069);
   (120071, 120074); (120077, 120084); (120086, 120092); (120094, 120121); (120123,
   120126); (120128, 120132); (120134, 120134); (120138, 120144); (120146, 120485);
   (120488, 120512); (120514, 120538); (120540, 120570); (120572, 120596); (120598,
   120628); (120630, 120654); (120656, 120686); (120688, 120712); (120714, 120744);
   (120746, 120770); (120772, 120779); (122624, 122633); (122635, 122654); (125184,
   125251); (127280, 127305); (127312, 127337); (127344, 127369)
  ]%N.

Definition case_ignorable (c : codepoint) : bool := in_ranges case_ignorable_ranges c.
Definition cased (c : codepoint) : bool := in_ranges cased_ranges c.

(** [chr(c).lower()]: the capital I with dot above U+0130 becomes i followed by
    the combining dot above; every other code point has one image. *)
Definition lower_cp (c : codepoint) : pystr :=
  (if c =? 304 then [105; 775] else [simple_map lower_rules c])%N.

(** [chr(c).upper()]. *)
Definition upper_cp (c : codepoint) : pystr :=
  match List.find (fun e => (fst e =? c)%N) upper_special with
  | Some e => snd e
  | None => [simple_map upper_rules c]
  end.

(** The final sigma: a capital sigma U+03A3 becomes the final small sigma
    U+03C2 when a cased letter stands before it and none after it, code points
    that are Case_Ignorable skipped on both sides; it becomes the small sigma
    U+03C3 otherwise.  [before] is the text before the sigma, nearest code
    point first. *)
Fixpoint cased_before (before : pystr) : bool :=
  match before with
  | [] => false
  | c :: rest => if case_ignorable c then cased_before rest else cased c
  end.

Fixpoint no_cased_after (after : pystr) : bool :=
  match after with
  | [] => true
  | c :: rest => if case_ignorable c then no_cased_after rest else negb (cased c)
  end.

Fixpoint lower_from (before s : pystr) : pystr :=
  match s with
  | [] => []
  | c :: rest =>
      (if (c =? 931)%N
       then [if cased_before before && no_cased_after rest then 962%N else 963%N]
       else lower_cp c)
      ++ lower_from (c :: before) rest
  end.

(** [s.lower()] and [s.upper()]. *)
Definition lower (s : pystr) : pystr := lower_from [] s.
Definition upper (s : pystr) : pystr := flat_map upper_cp s.

(** [str.lstrip()], [str.rstrip()] and [str.strip()] with no argument. *)
Fixpoint lstrip (s : pystr) : pystr :=
  match s with
  | [] => []
  | c :: rest => if is_space c then lstrip rest else s
  end.

Definition rstrip (s : pystr) : pystr := rev (lstrip (rev s)).

Definition strip (s : pystr) : pystr := rstrip (lstrip s).

End PyStr.

Import PyStr.

(** ** Answer checking *)

(** [normalize_scalar(x)]: [(x or "").strip().lower()]; [None] and the empty
    string are both falsy, so [or] replaces them by the empty string. *)
Definition normalize_scalar (x : option pystr) : pystr :=
  lower (strip (match x with
                | None => []
                | Some [] => []
                | Some s => s
                end)).

(** An answer value: what [json.loads] returns for a stored key and what the
    input widgets return for a submission.  A single answer is a string, a
    table answer a list of rows of strings. *)
Inductive answer :=
| Single (s : pystr)
| Table (t : list (list pystr)).

#[global] Instance answer_eq_dec : EqDecision answer.
Proof. solve_decision. Defined.

(** [check_table] indexes its arguments as sequences of sequences.  A grid is
    one already.  A Python string indexes as a sequence of one-character
    strings, each of which again has length one and itself at index 0: as a
    grid it has one row per character and one cell, that character, per
    row. *)
Definition as_rows (v : answer) : list (list pystr) :=
  match v with
  | Single s => map (fun c => [[c]]) s
  | Table t => t
  end.

(** Lines 304: one cell comparison,
    [normalize_scalar(str(u)) != normalize_scalar(str(k))]; the cells are
    strings, on which [str] is the identity. *)
Definition cell_eq (u k : pystr) : bool :=
  bool_decide (normalize_scalar (Some u) = normalize_scalar (Some k)).

(** The inner loop of [check_table] over the columns of one row, run once the
    two rows were found to have the same length.  It returns whether every
    cell matched, and the cell pairs it compared, in order: the loop leaves at
    the first cell that differs. *)
Fixpoint check_cells (urow krow : list pystr) : bool * list (pystr * pystr) :=
  match urow, krow with
  | u :: urow', k :: krow' =>
      if cell_eq u k
      then let '(ok, cmp) := check_cells urow' krow' in (ok, (u, k) :: cmp)
      else (false, [(u, k)])
  | _, _ => (true, [])
  end.

(** The outer loop over the rows, run once the two grids were found to have
    the same number of rows: the length of row [r] is compared first, then the
    cells of row [r], then the loop moves to row [r+1]. *)
Fixpoint check_rows (user_tab correct_tab : list (list pystr))
  : bool * list (pystr * pystr) :=
  match user_tab, correct_tab with
  | urow :: user_tab', krow :: correct_tab' =>
      if negb (length urow =? length krow)%nat then (false, [])
      else
        let '(ok, cmp) := check_cells urow krow in
        if negb ok then (false, cmp)
        else let '(ok', cmp') := check_rows user_tab' correct_tab' in
             (ok', cmp ++ cmp')
  | _, _ => (true, [])
  end.

(** [check_table] together with the list of cell comparisons it performed. *)
Definition check_table_run (user_tab correct_tab : answer)
  : bool * list (pystr * pystr) :=
  if negb (length (as_rows user_tab) =? length (as_rows correct_tab))%nat
  then (false, [])
  else check_rows (as_rows user_tab) (as_rows correct_tab).

(** [check_table(user_tab, correct_tab)]. *)
Definition check_table (user_tab correct_tab : answer) : bool :=
  fst (check_table_run user_tab correct_tab).

(** [check_single(user_ans, correct_ans)]. *)
Definition check_single (user_ans correct_ans : pystr) : bool :=
  bool_decide (normalize_scalar (Some user_ans) = normalize_scalar (Some correct_ans)).

(** ** Storage *)

Inductive answer_type := single | table.
Inductive mode := training | test1 | test2.
Inductive role := teacher | pupil.

#[global] Instance answer_type_eq_dec : EqDecision answer_type.
Proof. solve_decision. Defined.
#[global] Instance mode_eq_dec : EqDecision mode.
Proof. solve_decision. Defined.
#[global] Instance role_eq_dec : EqDecision role.
Proof. solve_decision. Defined.

(** A row of table [problems], without its key [id]. *)
Record problem_row := {
  pr_content : pystr;
  pr_answer_type : answer_type;
  pr_answer : answer;            (* answer_json, decoded *)
  pr_created_by : option Z;
  pr_updated_at : pystr
}.

(** The dict [get_problem] returns. *)
Record problem := {
  p_id : pystr;
  p_content : pystr;
  p_answer_type : answer_type;
  p_answer : answer;
  p_updated_at : pystr
}.

(** A row of table [papers]; its [id] is its position, from 1 (AUTOINCREMENT,
    and no statement of the program deletes a paper). *)
Record paper := {
  title : pystr;
  problem_ids : list pystr;
  paper_mode : mode;
  show_problem_ids : bool;
  created_by : option Z;
  created_at : pystr
}.

(** A row of table [submissions]; rows are kept in insertion order. *)
Record submission := {
  s_paper_id : Z;
  s_pupil_id : Z;
  s_answers : gmap pystr answer;
  s_score : Q;
  s_attempt_no : Z;
  s_submitted_at : pystr
}.

Record db := {
  problems : gmap pystr problem_row;
  papers : list paper;
  submissions : list submission
}.

(** [get_problem(pid)]. *)
Definition get_problem (d : db) (pid : pystr) : option problem :=
  match problems d !! pid with
  | None => None
  | Some row =>
      Some {| p_id := pid; p_content := pr_content row;
              p_answer_type := pr_answer_type row;
              p_answer := pr_answer row; p_updated_at := pr_updated_at row |}
  end.

(** [get_paper(paper_id)] for an id that sqlite3 can bind to the statement:
    the row of the paper, or [None].  The call with its binding, which raises
    on any other id, is [call_get_paper] below. *)
Definition get_paper (d : db) (paper_id : Z) : option paper :=
  if paper_id <? 1 then None else papers d !! Z.to_nat (paper_id - 1).

(** The [WHERE paper_id=? AND pupil_id=?] clause. *)
Definition of_pair (paper_id pupil_id : Z) (s : submission) : bool :=
  bool_decide (s_paper_id s = paper_id) && bool_decide (s_pupil_id s = pupil_id).

(** [get_attempt_count(paper_id, pupil_id)]: [SELECT COUNT( * )].  The page
    calls it with a paper id that [get_paper] has bound before and with the id
    of the signed-in user, which is the row id of a row of table [users]. *)
Definition get_attempt_count (d : db) (paper_id pupil_id : Z) : Z :=
  Z.of_nat (length (List.filter (of_pair paper_id pupil_id) (submissions d))).

(** [record_submission(...)]: one [INSERT] into [submissions]. *)
Definition record_submission (d : db) (paper_id pupil_id : Z)
    (answers : gmap pystr answer) (score : Q) (attempt_no : Z) (now : pystr) : db :=
  {| problems := problems d;
     papers := papers d;
     submissions := submissions d ++
       [{| s_paper_id := paper_id; s_pupil_id := pupil_id; s_answers := answers;
           s_score := score; s_attempt_no := attempt_no; s_submitted_at := now |}] |}.

(** [attempts_remaining(mode, attempts_so_far)]; [None] stands for
    infinity. *)
Definition attempts_remaining (m : mode) (attempts_so_far : Z) : option Z :=
  if decide (m = training) then None
  else
    let limit := if decide (m = test1) then 1 else 2 in
    let rem := Z.max 0 (limit - attempts_so_far) in
    Some rem.

(** ** The scorer and the page *)

Section Program.

(** [str] of a grid, that is Python's [repr] of a list of lists of strings.
    The scorer applies [str] to whatever it finds in a single-answer slot;
    on a string it is the identity. *)
Variable repr_table : list (list pystr) -> pystr.

Definition py_str (v : answer) : pystr :=
  match v with
  | Single s => s
  | Table t => repr_table t
  end.

(** Lines 317-320: the verdict on one problem that exists. *)
Definition check_problem (prob : problem) (user_answers : gmap pystr answer)
    (pid : pystr) : bool :=
  if decide (p_answer_type prob = single)
  then check_single (py_str (default (Single []) (user_answers !! pid)))
                    (py_str (p_answer prob))
  else check_table (default (Table []) (user_answers !! pid)) (p_answer prob).

(** The loop of [auto_score], threading [results] and [correct_count]. *)
Fixpoint auto_score_loop (d : db) (user_answers : gmap pystr answer)
    (problem_ids : list pystr) (results : gmap pystr bool) (correct_count : Z)
  : gmap pystr bool * Z :=
  match problem_ids with
  | [] => (results, correct_count)
  | pid :: rest =>
      match get_problem d pid with
      | None => auto_score_loop d user_answers rest (<[pid := false]> results) correct_count
      | Some prob =>
          let ok := check_problem prob user_answers pid in
          auto_score_loop d user_answers rest (<[pid := ok]> results)
            (if ok then correct_count + 1 else correct_count)
      end
  end.

(** [100.0 * correct_count / max(1, n)] as an exact rational. *)
Definition percentage (correct_count : Z) (n : nat) : Q :=
  (100 * correct_count) # Pos.of_nat (Nat.max 1 n).

(** [auto_score(problem_ids, user_answers)]. *)
Definition auto_score (d : db) (problem_ids : list pystr)
    (user_answers : gmap pystr answer) : Q * gmap pystr bool :=
  let '(results, correct_count) := auto_score_loop d user_answers problem_ids ∅ 0 in
  (percentage correct_count (length problem_ids), results).

(** *** The pupil's page

    [page_pupil_paper] reads the session and its widgets, reads and writes
    the database and renders elements.  It is run here in a state monad over
    a [world]; a run ends in a value, in a [return] of the page function, or
    in an exception. *)

(** The user of the session, as the login stored it: a row of table [users],
    [u_id] being its row id. *)
Record user := {
  u_id : Z;
  u_role : role;
  u_name : pystr;
  u_email : pystr
}.

(** What the widgets of the page hold in one run. *)
Inductive paper_id_text :=
| no_text                      (* the text input is empty *)
| not_a_number                 (* [int(pid)] raises ValueError *)
| paper_number (paper_id : Z).

Record widgets := {
  paper_id_input : paper_id_text;
  single_input : pystr -> pystr;              (* "Your answer", per problem id *)
  rows_input : pystr -> nat;                  (* what "Rows" holds, per problem id *)
  cols_input : pystr -> nat;                  (* what "Cols" holds, per problem id *)
  cell_input : pystr -> nat -> nat -> pystr;  (* the text input keyed r{r}c{c} *)
  submit_paper : bool                         (* the "Submit Paper" button *)
}.

(** The grid of [input_for_answer] (lines 360-367): [rows] rows of [cols]
    text inputs; [cell r c] is what the input keyed [r{r}c{c}] holds. *)
Definition grid_of (rows cols : nat) (cell : nat -> nat -> pystr) : list (list pystr) :=
  map (fun r => map (fun c => cell r c) (seq 0 cols)) (seq 0 rows).

(** The number a [st.number_input] with bounds 1 and 20 returns: one within
    the bounds. *)
Definition within_bounds (held : nat) : nat := Nat.max 1 (Nat.min 20 held).

(** The grid a pupil has typed for a table problem. *)
Definition grid_input (inp : widgets) (pid : pystr) : list (list pystr) :=
  grid_of (within_bounds (rows_input inp pid)) (within_bounds (cols_input inp pid))
    (cell_input inp pid).

(** The elements a run renders. *)
Inductive element :=
| st_info (msg : string)
| st_error (msg : string)
| st_wrong_role (r : role)                    (* st.error(f"This section is for {role}s only.") *)
| st_success (msg : string)
| st_caption (msg : string)
| st_header (msg : string)
| st_title (t : pystr)                        (* st.subheader(paper['title']) *)
| st_mode (m : mode)                          (* st.caption(f"Mode: ...") *)
| st_missing (ids : list pystr)               (* st.warning(f"Missing problems: ...") *)
| st_problem (pid : pystr) (show_id : bool)   (* the expander of one problem *)
| st_score (pct : Q)                          (* st.subheader(f"Your Score: ...") *)
| st_result (pid : pystr) (ok : bool)         (* st.write(f"**{id}**: ...") *)
| st_wrong (ids : list pystr)                 (* st.error("You got these wrong: " + ...) *)
| st_code (key : answer).                     (* st.code(...) of a correct answer *)

Inductive exn :=
| DuplicateWidgetID (pid : pystr)   (* Streamlit refuses a second widget with a key in use *)
| StreamlitAPIException             (* a number input whose default is outside its bounds *)
| OverflowError                     (* sqlite3 cannot bind an int outside 64 bits *)
| OperationalError                  (* SQLite refuses the statement *)
| KeyError (pid : pystr).

(** Ghost log of the calls a run makes to the scorer and to
    [record_submission]; nothing reads it. *)
Inductive call :=
| call_auto_score (problem_ids : list pystr) (answers : gmap pystr answer)
| call_record_submission (s : submission).

Record world := {
  w_db : db;
  w_out : list element;
  w_calls : list call
}.

Inductive step (A : Type) :=
| Val (a : A)
| Return
| Raise (e : exn).
Arguments Val {A} a.
Arguments Return {A}.
Arguments Raise {A} e.

Definition page (A : Type) : Type := world -> step A * world.

#[local] Instance page_ret : MRet page := fun A (a : A) w => (Val a, w).

#[local] Instance page_bind : MBind page := fun A B (f : A -> page B) (m : page A) w =>
  match m w with
  | (Val a, w') => f a w'
  | (Return, w') => (Return, w')
  | (Raise e, w') => (Raise e, w')
  end.

Definition ret {A} (a : A) : page A := mret a.

Definition return_ {A} : page A := fun w => (Return, w).
Definition raise {A} (e : exn) : page A := fun w => (Raise e, w).

(** One [st.*] call. *)
Definition st (e : element) : page unit :=
  fun w => (Val tt, {| w_db := w_db w; w_out := w_out w ++ [e]; w_calls := w_calls w |}).

(** A query. *)
Definition query {A} (f : db -> A) : page A := fun w => (Val (f (w_db w)), w).

(** sqlite3 binds a Python int to a statement as a signed 64-bit integer and
    raises for an int outside that range. *)
Definition sqlite_int (n : Z) : bool := (- 2 ^ 63 <=? n) && (n <? 2 ^ 63).

Definition bind_int (n : Z) : page unit :=
  if sqlite_int n then ret tt else raise OverflowError.

(** The call [get_paper(paper_id)]: the id is bound, then the row is read. *)
Definition call_get_paper (paper_id : Z) : page (option paper) :=
  bind_int paper_id ;; query (fun d => get_paper d paper_id).

Definition log (c : call) : page unit :=
  fun w => (Val tt, {| w_db := w_db w; w_out := w_out w; w_calls := w_calls w ++ [c] |}).

(** [for x in xs: body x]. *)
Fixpoint for_each {A} (xs : list A) (body : A -> page unit) : page unit :=
  match xs with
  | [] => ret tt
  | x :: rest => body x ;; for_each rest body
  end.

(** [require_auth(role)]. *)
Definition require_auth (session_user : option user) (r : option role)
  : page (option user) :=
  match session_user with
  | None => st (st_info "Please sign in using the header.") ;; ret None
  | Some u =>
      match r with
      | Some r' =>
          if decide (u_role u = r')
          then ret (Some u)
          else st (st_wrong_role r') ;; ret None
      | None => ret (Some u)
      end
  end.

(** [st.number_input(label, min_value=1, max_value=20, value=value)]:
    Streamlit raises when the default [value] is outside the bounds; otherwise
    the widget returns the number it holds, which is within the bounds. *)
Definition number_input (value held : nat) : page nat :=
  if (1 <=? value)%nat && (value <=? 20)%nat
  then ret (within_bounds held)
  else raise StreamlitAPIException.

(** [input_for_answer(prob, key_prefix)]: the text input of a single
    problem; for a table problem the two number inputs, whose defaults are the
    number of rows of the key and the length of its first row (2 when the key
    is not a list, or is empty), and then the grid. *)
Definition input_for_answer (inp : widgets) (prob : problem) : page answer :=
  if decide (p_answer_type prob = single)
  then ret (Single (single_input inp (p_id prob)))
  else
    rows ← number_input
              (match p_answer prob with Table t => length t | Single _ => 2%nat end)
              (rows_input inp (p_id prob));
    cols ← number_input
              (match p_answer prob with Table (row :: _) => length row | _ => 2%nat end)
              (cols_input inp (p_id prob));
    ret (Table (grid_of rows cols (cell_input inp (p_id prob)))).

(** Lines 538-544: the loop that renders the problems and collects
    [answers].  The widgets of a problem are keyed by the paper and the
    problem id, so a problem id that was rendered before (it is then a key
    of [answers]) makes Streamlit raise. *)
Fixpoint collect_answers (inp : widgets) (show_ids : bool)
    (probs : list (option problem)) (answers : gmap pystr answer)
  : page (gmap pystr answer) :=
  match probs with
  | [] => ret answers
  | None :: rest => collect_answers inp show_ids rest answers
  | Some p :: rest =>
      st (st_problem (p_id p) show_ids) ;;
      match answers !! p_id p with
      | Some _ => raise (DuplicateWidgetID (p_id p))
      | None =>
          typed ← input_for_answer inp p;
          collect_answers inp show_ids rest (<[p_id p := typed]> answers)
      end
  end.

(** [per_problem[pid]]. *)
Definition subscript (per_problem : gmap pystr bool) (pid : pystr) : page bool :=
  match per_problem !! pid with
  | Some ok => ret ok
  | None => raise (KeyError pid)
  end.

(** The loop shared by test1 and by the last attempt of test2: correctness
    and the correct answer of every problem (lines 576-583 and 594-601). *)
Definition reveal_all (probs : list (option problem)) (per_problem : gmap pystr bool)
  : page unit :=
  for_each probs (fun p =>
    match p with
    | None => ret tt
    | Some p =>
        ok ← subscript per_problem (p_id p);
        st (st_result (p_id p) ok) ;;
        st (st_caption "Correct answer:") ;;
        st (st_code (p_answer p))
    end).

(** [[p['id'] for p in problems if p and not per_problem[p['id']]]]. *)
Fixpoint wrong_ids (probs : list (option problem)) (per_problem : gmap pystr bool)
  : page (list pystr) :=
  match probs with
  | [] => ret ([] : list pystr)
  | None :: rest => wrong_ids rest per_problem
  | Some p :: rest =>
      ok ← subscript per_problem (p_id p);
      wrong ← wrong_ids rest per_problem;
      ret (if (ok : bool) then wrong else p_id p :: wrong)
  end.

(** Lines 569-601: the feedback, by mode and attempt number. *)
Definition feedback (m : mode) (attempt_no : Z) (probs : list (option problem))
    (per_problem : gmap pystr bool) : page unit :=
  if decide (m = training) then
    st (st_info "Training mode: see per-problem correctness below. You can try again anytime.") ;;
    for_each probs (fun p =>
      match p with
      | None => ret tt
      | Some p => ok ← subscript per_problem (p_id p); st (st_result (p_id p) ok)
      end)
  else if decide (m = test1) then
    st (st_info "Test mode-1: one attempt. Correct answers are revealed now.") ;;
    reveal_all probs per_problem
  else
    if attempt_no =? 1 then
      st (st_info "Test mode-2: you have one more attempt. Incorrect questions shown below.") ;;
      wrong ← wrong_ids probs per_problem;
      match wrong with
      | [] => st (st_success "All correct!")
      | _ => st (st_wrong wrong)
      end
    else
      st (st_info "Test mode-2: Final results. Correct answers revealed.") ;;
      reveal_all probs per_problem.

(** A statement that writes to the database. *)
Definition execute (f : db -> db) : page unit :=
  fun w => (Val tt, {| w_db := f (w_db w); w_out := w_out w; w_calls := w_calls w |}).

(** [[paper['problem_ids'][i] for i,p in enumerate(problems) if p is None]]. *)
Fixpoint missing_ids (ids : list pystr) (probs : list (option problem)) : list pystr :=
  match ids, probs with
  | pid :: ids', None :: probs' => pid :: missing_ids ids' probs'
  | _ :: ids', Some _ :: probs' => missing_ids ids' probs'
  | _, _ => []
  end.

(** [[p['id'] for p in problems if p]]. *)
Definition resolved_ids (probs : list (option problem)) : list pystr :=
  omap (fun p => p_id <$> p) probs.

(** The gate of lines 555-560 as a predicate: a new attempt goes through iff
    neither of the two tests fires. *)
Definition may_attempt (m : mode) (attempts_so_far : Z) : bool :=
  negb (bool_decide (m = test1) && (1 <=? attempts_so_far))
  && negb (bool_decide (m = test2) && (2 <=? attempts_so_far)).

(** [page_pupil_paper()], lines 511-601. *)
Definition page_pupil_paper (session_user : option user) (inp : widgets) (now : pystr)
  : page unit :=
  signed_in ← require_auth session_user (Some pupil);
  match signed_in with
  | None => return_
  | Some user =>
  st (st_header "Take a Paper") ;;
  match paper_id_input inp with
  | no_text => return_
  | not_a_number => st (st_error "Paper ID must be a number.") ;; return_
  | paper_number paper_id =>
  found ← call_get_paper paper_id;
  match found with
  | None => st (st_error "Paper not found.") ;; return_
  | Some paper =>
  st (st_title (title paper)) ;;
  st (st_mode (paper_mode paper)) ;;
  probs ← query (fun d => map (get_problem d) (problem_ids paper));
  let missing := missing_ids (problem_ids paper) probs in
  match missing with
  | [] => ret tt
  | _ => st (st_missing missing)
  end ;;
  answers ← collect_answers inp (show_problem_ids paper) probs ∅;
  (* Attempt control for test modes *)
  attempts_so_far ← query (fun d => get_attempt_count d paper_id (u_id user));
  (* Submit button *)
  if negb (submit_paper inp) then return_ else
  (* Enforce mode rules *)
  if bool_decide (paper_mode paper = test1) && (1 <=? attempts_so_far)
  then st (st_error "Test mode-1 allows only one attempt.") ;; return_ else
  if bool_decide (paper_mode paper = test2) && (2 <=? attempts_so_far)
  then st (st_error "Test mode-2 allows only two attempts.") ;; return_ else
  log (call_auto_score (resolved_ids probs) answers) ;;
  scored ← query (fun d => auto_score d (resolved_ids probs) answers);
  let pct := fst scored in
  let per_problem := snd scored in
  let attempt_no := attempts_so_far + 1 in
  log (call_record_submission
         {| s_paper_id := paper_id; s_pupil_id := u_id user; s_answers := answers;
            s_score := pct; s_attempt_no := attempt_no; s_submitted_at := now |}) ;;
  execute (fun d => record_submission d paper_id (u_id user) answers pct attempt_no now) ;;
  st (st_score pct) ;;
  (* Feedback per mode *)
  feedback (paper_mode paper) attempt_no probs per_problem
  end end end.

(** The page run from a database, with nothing rendered yet. *)
Definition run_page (session_user : option user) (inp : widgets) (now : pystr) (d : db)
  : step unit * world :=
  page_pupil_paper session_user inp now {| w_db := d; w_out := []; w_calls := [] |}.

(** *** The teacher's writes *)

(** [save_problem(pid, content, answer_type, answer)]: INSERT OR REPLACE that
    keeps the first [created_by]. *)
Definition save_problem (d : db) (teacher_id : Z) (now : pystr)
    (pid content : pystr) (ty : answer_type) (ans : answer) : db :=
  {| problems :=
       <[pid := {| pr_content := content; pr_answer_type := ty; pr_answer := ans;
                   pr_created_by :=
                     match problems d !! pid with
                     | Some old => match pr_created_by old with
                                   | Some c => Some c
                                   | None => Some teacher_id
                                   end
                     | None => Some teacher_id
                     end;
                   pr_updated_at := now |}]> (problems d);
     papers := papers d;
     submissions := submissions d |}.

(** [create_paper(title, problem_ids, mode, show_ids)]; returns the new
    paper's id. *)
Definition create_paper (d : db) (teacher_id : Z) (now : pystr)
    (t : pystr) (ids : list pystr) (m : mode) (show_ids : bool) : db * Z :=
  ({| problems := problems d;
      papers := papers d ++
        [{| title := t; problem_ids := ids; paper_mode := m;
            show_problem_ids := show_ids; created_by := Some teacher_id;
            created_at := now |}];
      submissions := submissions d |},
   Z.of_nat (length (papers d)) + 1).

(** One event of the application that touches the database. *)
Inductive event :=
| ev_save_problem (teacher_id : Z) (now pid content : pystr) (ty : answer_type) (ans : answer)
| ev_create_paper (teacher_id : Z) (now t : pystr) (ids : list pystr) (m : mode) (show_ids : bool)
| ev_pupil_paper (session_user : option user) (inp : widgets) (now : pystr).

Definition apply_event (d : db) (e : event) : db :=
  match e with
  | ev_save_problem teacher_id now pid content ty ans =>
      save_problem d teacher_id now pid content ty ans
  | ev_create_paper teacher_id now t ids m show_ids =>
      fst (create_paper d teacher_id now t ids m show_ids)
  | ev_pupil_paper session_user inp now =>
      w_db (snd (run_page session_user inp now d))
  end.

(** The database after a sequence of events, from the empty tables that
    [init_db] creates. *)
Definition empty_db : db := {| problems := ∅; papers := []; submissions := [] |}.

Definition replay (events : list event) : db := fold_left apply_event events empty_db.

End Program.

#[global] Existing Instance page_ret.
#[global] Existing Instance page_bind.

Arguments Val {A} a.
Arguments Return {A}.
Arguments Raise {A} e.

(** ** Running the model

    A stand-in for [repr] on grids, to run the model on concrete inputs: it is
    Python's [repr] on grids whose cells hold printable characters other than
    the quote and the backslash.  No example below puts a grid in a
    single-answer slot, so none depends on it. *)
Definition join (sep : pystr) (parts : list pystr) : pystr :=
  match parts with
  | [] => []
  | first :: rest => first ++ flat_map (fun part => sep ++ part) rest
  end.

Definition repr_plain (t : list (list pystr)) : pystr :=
  lit "[" ++ join (lit ", ")
    (map (fun row => lit "[" ++ join (lit ", ")
                       (map (fun cell => lit "'" ++ cell ++ lit "'") row) ++ lit "]") t)
  ++ lit "]".

(** Sample data: three stored problems, two papers that also reference an id
    [P9] that is not stored, and a pupil. *)
Definition sample_problem (ty : answer_type) (key : answer) : problem_row :=
  {| pr_content := lit "?"; pr_answer_type := ty; pr_answer := key;
     pr_created_by := Some 1; pr_updated_at := lit "2024-01-01T00:00:00" |}.

Definition sample_paper (ids : list pystr) (m : mode) : paper :=
  {| title := lit "Quiz"; problem_ids := ids; paper_mode := m;
     show_problem_ids := true; created_by := Some 1;
     created_at := lit "2024-01-02T00:00:00" |}.

Definition sample_db : db :=
  {| problems :=
       <[lit "P1" := sample_problem single (Single (lit "paris"))]>
       (<[lit "P2" := sample_problem single (Single (lit "  "))]>
       (<[lit "T1" := sample_problem table
                        (Table [[lit "A"; lit "B"]; [lit "C"; lit "D"]])]> ∅));
     papers := [sample_paper [lit "P1"; lit "P9"] test1;
                sample_paper [lit "P1"; lit "T1"] test2];
     submissions := [] |}.

Definition alice : user :=
  {| u_id := 2; u_role := pupil; u_name := lit "Pupil Alice";
     u_email := lit "alice@example.com" |}.

(** Alice opens paper [paper_id], types [text] into every single-answer input,
    sets the number inputs to the dimensions of [grid] and types its cells, and
    presses the button. *)
Definition sample_widgets (paper_id : Z) (text : pystr) (grid : list (list pystr)) : widgets :=
  {| paper_id_input := paper_number paper_id;
     single_input := fun _ => text;
     rows_input := fun _ => length grid;
     cols_input := fun _ => length (hd [] grid);
     cell_input := fun _ r c => nth c (nth r grid []) [];
     submit_paper := true |}.

Definition sample_now : pystr := lit "2024-01-03T00:00:00".

(** Alice's correct answer to the one problem of paper 1 that exists, and the
    database after she has submitted it. *)
Definition sample_submit : widgets := sample_widgets 1 (lit " Paris ") [].

Definition sample_db_after : db :=
  w_db (snd (run_page repr_plain (Some alice) sample_submit sample_now sample_db)).

(** A resolved problem list with one problem and one absent id, and a verdict
    for the problem. *)
Definition sample_probs : list (option problem) :=
  [Some {| p_id := lit "P1"; p_content := lit "?"; p_answer_type := single;
           p_answer := Single (lit "paris");
           p_updated_at := lit "2024-01-01T00:00:00" |};
   None].

Definition sample_per_problem : gmap pystr bool := <[lit "P1" := false]> ∅.


(** ** Vocabulary of the statements *)

(** The capital sigma, the one letter that [str.lower] maps by its context. *)
Definition capital_sigma : codepoint := 931%N.

(** A character whose lower-case form survives upper-casing: the capital
    sigma itself, or a character whose upper-case form holds no capital sigma
    and lower-cases, character by character, to what the character itself
    lower-cases to ([c.upper().lower() == c.lower()]). *)
Definition case_stable (c : codepoint) : bool :=
  (c =? capital_sigma)%N
  || forallb (fun u => negb (u =? capital_sigma)%N) (upper_cp c)
     && bool_decide (flat_map lower_cp (upper_cp c) = lower_cp c).

(** The characters that are not case-stable: the micro sign, the sharp s, the
    dotless i, the long s, the small sigmas, the Greek symbol variants and
    letters with iota subscript, the ligatures and the like. *)
Definition case_unstable : list codepoint :=
  [181; 223; 305; 329; 383; 496; 837; 912; 944; 962; 963; 976; 977; 981; 982; 1008;
   1009; 1013; 1415; 7296; 7297; 7298; 7299; 7300; 7301; 7302; 7303; 7304; 7830;
   7831; 7832; 7833; 7834; 7835; 8016; 8018; 8020; 8022; 8064; 8065; 8066; 8067;
   8068; 8069; 8070; 8071; 8072; 8073; 8074; 8075; 8076; 8077; 8078; 8079; 8080;
   8081; 8082; 8083; 8084; 8085; 8086; 8087; 8088; 8089; 8090; 8091; 8092; 8093;
   8094; 8095; 8096; 8097; 8098; 8099; 8100; 8101; 8102; 8103; 8104; 8105; 8106;
   8107; 8108; 8109; 8110; 8111; 8114; 8115; 8116; 8118; 8119; 8124; 8126; 8130;
   8131; 8132; 8134; 8135; 8140; 8146; 8147; 8150; 8151; 8162; 8163; 8164; 8166;
   8167; 8178; 8179; 8180; 8182; 8183; 8188; 64256; 64257; 64258; 64259; 64260;
   64261; 64262; 64275; 64276; 64277; 64278; 64279]%N.

(** What the scan for the final sigma meets in a stretch of text: [None] when
    it skips every code point, else whether the first one it stops at is
    cased. *)
Fixpoint first_cased (l : pystr) : option bool :=
  match l with
  | [] => None
  | c :: rest => if case_ignorable c then first_cased rest else Some (cased c)
  end.

(** The upper-case form of [c] looks to that scan, from either side, as [c]
    does. *)
Definition same_context (c : codepoint) : bool :=
  bool_decide (first_cased (upper_cp c) = first_cased [c])
  && bool_decide (first_cased (rev (upper_cp c)) = first_cased [c]).

(** The code points [first], [first + 1], ..., [last]. *)
Definition code_range (first last : codepoint) : list codepoint :=
  map (fun k => (first + N.of_nat k)%N) (seq 0 (S (N.to_nat (last - first)))).

(** Every code point an upper-casing rule can apply to. *)
Definition upper_changed : list codepoint :=
  map fst upper_special
  ++ flat_map (fun r : case_rule => let '(first, last, _, _) := r in code_range first last)
       upper_rules.

(** The code points [is_space] accepts. *)
Definition space_list : list codepoint :=
  [9; 10; 11; 12; 13; 28; 29; 30; 31; 32; 133; 160; 5760; 8192; 8193; 8194; 8195;
   8196; 8197; 8198; 8199; 8200; 8201; 8202; 8232; 8233; 8239; 8287; 12288]%N.

(** The first 256 code points (Basic Latin and Latin-1 Supplement). *)
Definition latin1 : list codepoint := map N.of_nat (seq 0 256).

(** Two blanks before and after, as in ["  " + s + "  "]. *)
Definition padded (s : pystr) : pystr := lit "  " ++ s ++ lit "  ".

(** A string of whitespace only (the empty string included). *)
Definition all_spaces (s : pystr) : Prop := Forall (fun c => is_space c = true) s.

(** Two grids have the same dimensions: as many rows, and row by row as many
    columns. *)
Definition same_shape (user_tab correct_tab : list (list pystr)) : Prop :=
  Forall2 (fun urow krow => length urow = length krow) user_tab correct_tab.

(** Every cell of the submitted grid matches the cell of the key at the same
    place under the normalizer. *)
Definition cells_match (user_tab correct_tab : list (list pystr)) : Prop :=
  Forall2 (Forall2 (fun u k => normalize_scalar (Some u) = normalize_scalar (Some k)))
    user_tab correct_tab.

(** What one pass of the loop of [auto_score] stores in [results] for [pid]. *)
Definition verdict (repr_table : list (list pystr) -> pystr) (d : db)
    (user_answers : gmap pystr answer) (pid : pystr) : bool :=
  match get_problem d pid with
  | None => false
  | Some prob => check_problem repr_table prob user_answers pid
  end.

(** The world a run starts from, and a world with more elements rendered. *)
Definition start (d : db) : world := {| w_db := d; w_out := []; w_calls := [] |}.

Definition add_out (w : world) (es : list element) : world :=
  {| w_db := w_db w; w_out := w_out w ++ es; w_calls := w_calls w |}.

(** What a computation renders from nothing, with how it ends. *)
Definition rendered {A} (m : page A) : step A * list element :=
  (fst (m (start empty_db)), w_out (snd (m (start empty_db)))).

(** A computation that only renders: in every world it ends the same way and
    appends the same elements, and it leaves the rest of the world alone. *)
Definition renders {A} (m : page A) : Prop :=
  forall w, m w = (fst (rendered m), add_out w (snd (rendered m))).

(** The problems of a paper that exist, in display order. *)
Definition present (probs : list (option problem)) : list problem := omap id probs.

(** What [input_for_answer] returns for a problem when its widgets can be
    shown: the text typed for a single problem, the grid for a table problem. *)
Definition typed_in (inp : widgets) (p : problem) : answer :=
  if decide (p_answer_type p = single)
  then Single (single_input inp (p_id p))
  else Table (grid_input inp (p_id p)).

(** The widgets of a problem can be shown: it is a single problem, or the
    defaults of its two number inputs are within their bounds, that is, its
    key is not a grid or is a grid of 1 to 20 rows whose first row has 1 to 20
    cells. *)
Definition fits (p : problem) : bool :=
  match p_answer_type p, p_answer p with
  | single, _ => true
  | table, Single _ => true
  | table, Table [] => false
  | table, Table (row :: rest) =>
      (length (row :: rest) <=? 20)%nat && (1 <=? length row)%nat && (length row <=? 20)%nat
  end.

(** The dict [answers] after the loop of lines 538-544. *)
Definition answers_of (inp : widgets) (probs : list (option problem))
    (acc : gmap pystr answer) : gmap pystr answer :=
  fold_left (fun acc p => <[p_id p := typed_in inp p]> acc) (present probs) acc.

(** [per_problem] has an entry for every problem that exists. *)
Definition covers (per_problem : gmap pystr bool) (probs : list (option problem)) : Prop :=
  forall p, p ∈ present probs -> is_Some (per_problem !! p_id p).

Definition flag (per_problem : gmap pystr bool) (pid : pystr) : bool :=
  default false (per_problem !! pid).

(** The lines of feedback: correctness only, and correctness with the correct
    answer. *)
Definition correctness_lines (probs : list (option problem))
    (per_problem : gmap pystr bool) : list element :=
  map (fun p => st_result (p_id p) (flag per_problem (p_id p))) (present probs).

Definition reveal_lines (probs : list (option problem))
    (per_problem : gmap pystr bool) : list element :=
  flat_map (fun p => [st_result (p_id p) (flag per_problem (p_id p));
                      st_caption "Correct answer:"; st_code (p_answer p)])
    (present probs).

(** The ids answered incorrectly. *)
Definition wrong_list (probs : list (option problem))
    (per_problem : gmap pystr bool) : list pystr :=
  map p_id (List.filter (fun p => negb (flag per_problem (p_id p))) (present probs)).

(** The ids of the problems a run displayed. *)
Definition displayed (out : list element) : list pystr :=
  omap (fun e => match e with st_problem pid _ => Some pid | _ => None end) out.

(** The message of the gate, by mode. *)
Definition limit_message (m : mode) : string :=
  match m with
  | test2 => "Test mode-2 allows only two attempts."
  | _ => "Test mode-1 allows only one attempt."
  end.



(** How a sequence of two rendering computations ends and what it renders. *)
Definition then_rendered {A B} (first : step A * list element)
    (next : A -> step B * list element) : step B * list element :=
  match fst first with
  | Val a => (fst (next a), snd first ++ snd (next a))
  | Return => (Return, snd first)
  | Raise e => (Raise e, snd first)
  end.

(** What the page has rendered when it reaches the button: header, title and
    mode, the warning about missing problems if there are any, and one
    expander for each problem that exists. *)
Definition prelude (pp : paper) (probs : list (option problem)) : list element :=
  [st_header "Take a Paper"; st_title (title pp); st_mode (paper_mode pp)]
  ++ match missing_ids (problem_ids pp) probs with
     | [] => []
     | _ => [st_missing (missing_ids (problem_ids pp) probs)]
     end
  ++ map (fun p => st_problem (p_id p) (show_problem_ids pp)) (present probs).

(** A world with one more call logged, and a world with another database. *)
Definition add_call (w : world) (c : call) : world :=
  {| w_db := w_db w; w_out := w_out w; w_calls := w_calls w ++ [c] |}.

Definition set_db (w : world) (d : db) : world :=
  {| w_db := d; w_out := w_out w; w_calls := w_calls w |}.

(** The page from the button on (lines 550-601), given what the lines before
    have computed; [run_page_to_button] shows that this is how the page
    continues. *)
Definition from_button (repr_table : list (list pystr) -> pystr) (u : user)
    (inp : widgets) (now : pystr) (paper_id : Z) (pp : paper)
    (probs : list (option problem)) (answers : gmap pystr answer)
    (attempts_so_far : Z) : page unit :=
  if negb (submit_paper inp) then return_ else
  if bool_decide (paper_mode pp = test1) && (1 <=? attempts_so_far)
  then st (st_error "Test mode-1 allows only one attempt.") ;; return_ else
  if bool_decide (paper_mode pp = test2) && (2 <=? attempts_so_far)
  then st (st_error "Test mode-2 allows only two attempts.") ;; return_ else
  log (call_auto_score (resolved_ids probs) answers) ;;
  scored ← query (fun d => auto_score repr_table d (resolved_ids probs) answers);
  log (call_record_submission
         {| s_paper_id := paper_id; s_pupil_id := u_id u; s_answers := answers;
            s_score := fst scored; s_attempt_no := attempts_so_far + 1;
            s_submitted_at := now |}) ;;
  execute (fun d => record_submission d paper_id (u_id u) answers (fst scored)
                      (attempts_so_far + 1) now) ;;
  st (st_score (fst scored)) ;;
  feedback (paper_mode pp) (attempts_so_far + 1) probs (snd scored).

(** The submission a run writes, and the world it ends in. *)
Definition new_submission (repr_table : list (list pystr) -> pystr) (d : db) (u : user)
    (inp : widgets) (now : pystr) (paper_id : Z) (pp : paper) : submission :=
  let probs := map (get_problem d) (problem_ids pp) in
  let answers := answers_of inp probs ∅ in
  {| s_paper_id := paper_id; s_pupil_id := u_id u; s_answers := answers;
     s_score := fst (auto_score repr_table d (resolved_ids probs) answers);
     s_attempt_no := get_attempt_count d paper_id (u_id u) + 1;
     s_submitted_at := now |}.




(** ** The rest of the application

    The queries of the pupil's home page, the grid widget, the table editor
    and the paper form of the teacher's pages. *)

(** [get_attempt_counts_by_paper(pupil_id)]: [SELECT paper_id, COUNT( * ) ...
    WHERE pupil_id = ? GROUP BY paper_id] as a dict; a paper without a
    submission of the pupil has no group, hence no key. *)
Definition get_attempt_counts_by_paper (d : db) (pupil_id : Z) : gmap Z Z :=
  fold_left
    (fun counts s =>
       if bool_decide (s_pupil_id s = pupil_id)
       then <[s_paper_id s := default 0 (counts !! s_paper_id s) + 1]> counts
       else counts)
    (submissions d) ∅.

(** The rows of table [papers] with their ids. *)
Definition paper_rows (d : db) : list (Z * paper) :=
  imap (fun i pp => (Z.of_nat i + 1, pp)) (papers d).

(** [get_problem_count_for_papers(paper_ids)]: the number of problem ids of
    each paper whose id is in the list; no query at all for the empty list.
    The statement has one placeholder for each id of the list.  SQLite refuses
    to prepare it when it has more than [max_variable_number] of them
    (SQLITE_MAX_VARIABLE_NUMBER, fixed when the library is built: 999, 32766
    or 250000 in the usual builds, for which the text of the statement stays
    far below SQLite's limit on its length), and sqlite3 then raises for an id
    that it cannot bind. *)
Definition get_problem_count_for_papers (max_variable_number : nat) (d : db)
    (paper_ids : list Z) : step (gmap Z nat) :=
  match paper_ids with
  | [] => Val ∅
  | _ =>
      if (max_variable_number <? length paper_ids)%nat then Raise OperationalError
      else if forallb sqlite_int paper_ids then
        Val (list_to_map
               (map (fun row => (fst row, length (problem_ids (snd row))))
                  (List.filter (fun row => bool_decide (fst row ∈ paper_ids)) (paper_rows d))))
      else Raise OverflowError
  end.

(** The "Attempts left" cell of one row of the home page (lines 415-416):
    [attempts_remaining(mode, counts.get(paper_id, 0))]. *)
Definition attempts_left (d : db) (pupil_id paper_id : Z) (m : mode) : option Z :=
  attempts_remaining m
    (default 0 (get_attempt_counts_by_paper d pupil_id !! paper_id)).

(** [s.split(sep)] for a one-character separator: one piece more than there
    are separators, the empty string included. *)
Fixpoint split_on (sep : codepoint) (s : pystr) : list pystr :=
  match s with
  | [] => [[]]
  | c :: rest =>
      if (c =? sep)%N then [] :: split_on sep rest
      else match split_on sep rest with
           | piece :: pieces => (c :: piece) :: pieces
           | [] => [[c]]
           end
  end.

(** The line boundaries of [str.splitlines()]: LF, VT, FF, CR, FS, GS, RS,
    NEL, LINE SEPARATOR and PARAGRAPH SEPARATOR; CR LF counts once. *)
Definition is_linebreak (c : codepoint) : bool :=
  ((10 <=? c) && (c <=? 13) || (28 <=? c) && (c <=? 30)
   || (c =? 133) || (c =? 8232) || (c =? 8233))%N.

(** [s.splitlines()]: the lines without their boundaries; a boundary at the
    very end does not open a last empty line. *)
Fixpoint splitlines (s : pystr) : list pystr :=
  match s with
  | [] => []
  | c :: rest =>
      if is_linebreak c then
        [] :: (if (c =? 13)%N
               then match rest with
                    | c' :: rest' =>
                        if (c' =? 10)%N then splitlines rest' else splitlines rest
                    | [] => splitlines rest
                    end
               else splitlines rest)
      else match splitlines rest with
           | line :: lines => (c :: line) :: lines
           | [] => [[c]]
           end
  end.

Definition comma : codepoint := 44%N.
Definition newline : codepoint := 10%N.

(** Line 342: the text the table editor shows for a stored grid,
    ["\n".join([",".join(map(str,row)) for row in existing['answer']])]. *)
Definition render_table (t : list (list pystr)) : pystr :=
  join [newline] (map (join [comma]) t).

(** Line 344: the grid read back from the text area,
    [[[cell.strip() for cell in line.split(',')]
      for line in table_text.splitlines() if line.strip() != '']]. *)
Definition parse_table (table_text : pystr) : list (list pystr) :=
  map (fun line => map strip (split_on comma line))
    (List.filter (fun line => negb (bool_decide (strip line = [])))
       (splitlines table_text)).

(** Line 480: [[x.strip() for x in raw_ids.split(',') if x.strip()]]. *)
Definition parse_ids (raw_ids : pystr) : list pystr :=
  map strip
    (List.filter (fun x => negb (bool_decide (strip x = []))) (split_on comma raw_ids)).

(** Lines 485-490: the "Create Paper" button of [page_teacher_papers]; the
    result is the id of the new paper, or [None] for the error message. *)
Definition press_create_paper (d : db) (teacher_id : Z) (now t raw_ids : pystr)
    (m : mode) (show_ids : bool) : db * option Z :=
  let pid_list := parse_ids raw_ids in
  if bool_decide (t = []) || bool_decide (pid_list = [])
  then (d, None)
  else
    let '(d', pid) := create_paper d teacher_id now t pid_list m show_ids in
    (d', Some pid).

(** Lines 445-450: the "Save Problem" button of [page_teacher_problems];
    [false] stands for the error message. *)
Definition press_save_problem (d : db) (teacher_id : Z) (now pid content : pystr)
    (ty : answer_type) (ans : answer) : db * bool :=
  if bool_decide (pid = []) then (d, false)
  else (save_problem d teacher_id now pid content ty ans, true).

(** The limit on attempts that [attempts_remaining] and the gate of the page
    use for a mode: none, 1 or 2. *)
Definition attempt_limit (m : mode) : option Z :=
  match m with
  | training => None
  | test1 => Some 1
  | test2 => Some 2
  end.

(** No pupil has more submissions on a paper than its mode allows, and there
    is no submission on a paper that does not exist. *)
Definition within_limits (d : db) : Prop :=
  forall paper_id pupil_id,
    match get_paper d paper_id with
    | Some pp =>
        match attempt_limit (paper_mode pp) with
        | Some limit => get_attempt_count d paper_id pupil_id <= limit
        | None => True
        end
    | None => get_attempt_count d paper_id pupil_id = 0
    end.

(** A cell that the table editor gives back as it was: no blank at either
    end, no comma and no line boundary inside. *)
Definition plain_cell (c : pystr) : Prop :=
  strip c = c /\ Forall (fun x => x <> comma /\ is_linebreak x = false) c.

(** A row that the table editor gives back as it was: at least one cell, all
    of them plain, and a line that is not blank. *)
Definition plain_row (row : list pystr) : Prop :=
  row <> [] /\ Forall plain_cell row /\ strip (join [comma] row) <> [].

(** * The normalizer *)

Section Normalizer.

Lemma lstrip_spaces (ws : pystr) : all_spaces ws -> lstrip ws = [].
Proof. induction 1 as [| c ws Hc _ IH]; simpl; [| rewrite Hc]; auto. Qed.

Lemma lstrip_app_spaces (ws s : pystr) : all_spaces ws -> lstrip (ws ++ s) = lstrip s.
Proof. induction 1 as [| c ws Hc _ IH]; simpl; [| rewrite Hc]; auto. Qed.

Lemma rstrip_app_spaces (s ws : pystr) : all_spaces ws -> rstrip (s ++ ws) = rstrip s.
Proof.
  intros Hws. unfold rstrip. rewrite rev_app_distr, lstrip_app_spaces; [reflexivity |].
  apply Forall_rev. exact Hws.
Qed.

Lemma strip_app_spaces (s ws : pystr) : all_spaces ws -> strip (s ++ ws) = strip s.
Proof.
  intros Hws. unfold strip. induction s as [| c s IH]; simpl.
  - rewrite lstrip_spaces by exact Hws. reflexivity.
  - destruct (is_space c); [exact IH |].
    apply (rstrip_app_spaces (c :: s)). exact Hws.
Qed.

Lemma strip_spaces (ws : pystr) : all_spaces ws -> strip ws = [].
Proof. intros Hws. unfold strip. rewrite lstrip_spaces by exact Hws. reflexivity. Qed.

Lemma strip_padded (s : pystr) : strip (padded s) = strip s.
Proof.
  unfold padded. unfold strip at 1.
  rewrite lstrip_app_spaces by (repeat constructor).
  apply strip_app_spaces. repeat constructor.
Qed.

Lemma normalize_scalar_some (s : pystr) : normalize_scalar (Some s) = lower (strip s).
Proof. destruct s; reflexivity. Qed.

Lemma normalize_scalar_spaces (ws : pystr) :
  all_spaces ws -> normalize_scalar (Some ws) = [].
Proof. intros Hws. rewrite normalize_scalar_some, strip_spaces by exact Hws. reflexivity. Qed.

(** Whitespace and the upper-case table: a whitespace character is its own
    upper-case form, and the upper-case form of any other character is not
    empty and holds no whitespace. *)

Lemma is_space_listed (c : codepoint) : is_space c = true -> In c space_list.
Proof.
  unfold is_space. rewrite !orb_true_iff, !andb_true_iff, !N.leb_le, !N.eqb_eq.
  intros Hc. unfold space_list.
  assert (Hcases : (c = 9 \/ c = 10 \/ c = 11 \/ c = 12 \/ c = 13 \/ c = 28 \/ c = 29
                    \/ c = 30 \/ c = 31 \/ c = 32 \/ c = 133 \/ c = 160 \/ c = 5760
                    \/ c = 8192 \/ c = 8193 \/ c = 8194 \/ c = 8195 \/ c = 8196
                    \/ c = 8197 \/ c = 8198 \/ c = 8199 \/ c = 8200 \/ c = 8201
                    \/ c = 8202 \/ c = 8232 \/ c = 8233 \/ c = 8239 \/ c = 8287
                    \/ c = 12288)%N) by lia.
  simpl. intuition auto.
Qed.

Lemma upper_special_solid :
  forallb (fun e => negb (is_space (fst e))
                    && negb (forallb (fun _ => false) (snd e))
                    && forallb (fun x => negb (is_space x)) (snd e))
    upper_special = true.
Proof. vm_compute. reflexivity. Qed.

Lemma upper_rules_solid :
  forallb (fun r : case_rule =>
             let '(first, last, _, target) := r in
             forallb (fun w => negb ((first <=? w) && (w <=? last))
                               && negb ((target <=? w) && (w <=? target + (last - first))))%N
               space_list)
    upper_rules = true.
Proof. vm_compute. reflexivity. Qed.

Lemma simple_map_upper_solid (c : codepoint) :
  (is_space c = true -> simple_map upper_rules c = c) /\
  (is_space c = false -> is_space (simple_map upper_rules c) = false).
Proof.
  unfold simple_map.
  destruct (List.find (rule_applies c) upper_rules) as [[[[first last] step] target] |] eqn:Hfind;
    [| split; auto].
  apply List.find_some in Hfind as [Hin Happlies].
  pose proof upper_rules_solid as Hsolid.
  rewrite forallb_forall in Hsolid. specialize (Hsolid _ Hin). cbv beta iota zeta in Hsolid.
  rewrite forallb_forall in Hsolid.
  unfold rule_applies in Happlies.
  apply andb_prop in Happlies as [Hrange _]. apply andb_prop in Hrange as [Hlo Hhi].
  apply N.leb_le in Hlo, Hhi.
  split.
  - intros Hspace. apply is_space_listed in Hspace.
    specialize (Hsolid c Hspace). apply andb_prop in Hsolid as [Hout _].
    apply negb_true_iff, andb_false_iff in Hout.
    destruct Hout as [Hout | Hout]; apply N.leb_gt in Hout; lia.
  - intros _. apply not_true_is_false. intros Hspace. apply is_space_listed in Hspace.
    specialize (Hsolid _ Hspace). apply andb_prop in Hsolid as [_ Hout].
    apply negb_true_iff, andb_false_iff in Hout.
    destruct Hout as [Hout | Hout]; apply N.leb_gt in Hout; lia.
Qed.

Lemma upper_cp_space (c : codepoint) : is_space c = true -> upper_cp c = [c].
Proof.
  intros Hspace. unfold upper_cp.
  destruct (List.find (fun e => (fst e =? c)%N) upper_special) as [[c' image] |] eqn:Hfind.
  - apply List.find_some in Hfind as [Hin Hc]. apply N.eqb_eq in Hc. simpl in Hc. subst c'.
    pose proof upper_special_solid as Hsolid.
    rewrite forallb_forall in Hsolid. specialize (Hsolid _ Hin). simpl in Hsolid.
    rewrite Hspace in Hsolid. discriminate Hsolid.
  - rewrite (proj1 (simple_map_upper_solid c) Hspace). reflexivity.
Qed.

Lemma upper_cp_solid (c : codepoint) :
  is_space c = false ->
  exists u us, upper_cp c = u :: us /\ Forall (fun x => is_space x = false) (u :: us).
Proof.
  intros Hsolid. unfold upper_cp.
  destruct (List.find (fun e => (fst e =? c)%N) upper_special) as [[c' image] |] eqn:Hfind.
  - apply List.find_some in Hfind as [Hin _].
    pose proof upper_special_solid as Hall.
    rewrite forallb_forall in Hall. specialize (Hall _ Hin). simpl in Hall.
    apply andb_prop in Hall as [Hall Himage]. apply andb_prop in Hall as [_ Hne].
    destruct image as [| u us]; [discriminate Hne |].
    exists u, us. split; [reflexivity |].
    apply Forall_forall. intros x Hx. rewrite forallb_forall in Himage.
    apply negb_true_iff, Himage. apply list_elem_of_In. exact Hx.
  - eexists _, []. split; [reflexivity |]. constructor; [| constructor].
    apply simple_map_upper_solid. exact Hsolid.
Qed.

Lemma lstrip_upper (s : pystr) : lstrip (upper s) = upper (lstrip s).
Proof.
  unfold upper. induction s as [| c s IH]; [reflexivity |].
  simpl. destruct (is_space c) eqn:Hc.
  - rewrite (upper_cp_space c Hc). simpl. rewrite Hc. exact IH.
  - destruct (upper_cp_solid c Hc) as (u & us & Hupper & Hsolid).
    inversion Hsolid as [| ? ? Hu _]; subst. simpl. rewrite Hupper. simpl. rewrite Hu.
    reflexivity.
Qed.

Lemma lstrip_solid (c : codepoint) (s : pystr) :
  is_space c = false -> lstrip (c :: s) = c :: s.
Proof. intros Hc. simpl. rewrite Hc. reflexivity. Qed.

Lemma rstrip_app_solid (s solid : pystr) :
  solid <> [] -> Forall (fun x => is_space x = false) solid ->
  rstrip (s ++ solid) = s ++ solid.
Proof.
  intros Hne Hsolid. unfold rstrip. rewrite rev_app_distr.
  destruct (rev solid) as [| c rest] eqn:Hrev.
  - apply (f_equal (@rev codepoint)) in Hrev. rewrite rev_involutive in Hrev.
    contradiction.
  - assert (Hc : is_space c = false).
    { assert (Hrsolid : Forall (fun x => is_space x = false) (rev solid))
        by (apply Forall_rev; exact Hsolid).
      rewrite Hrev in Hrsolid. inversion Hrsolid; subst. assumption. }
    simpl app. rewrite lstrip_solid by exact Hc.
    change (c :: rest ++ rev s) with ((c :: rest) ++ rev s).
    rewrite <- Hrev, <- rev_app_distr, rev_involutive. reflexivity.
Qed.

Lemma rstrip_snoc_solid (s : pystr) (c : codepoint) :
  is_space c = false -> rstrip (s ++ [c]) = s ++ [c].
Proof.
  intros Hc. apply rstrip_app_solid; [discriminate |]. constructor; [exact Hc | constructor].
Qed.

Lemma rstrip_upper (s : pystr) : rstrip (upper s) = upper (rstrip s).
Proof.
  unfold upper. induction s as [| c s IH] using rev_ind; [reflexivity |].
  rewrite flat_map_app. simpl. rewrite app_nil_r.
  destruct (is_space c) eqn:Hc.
  - rewrite (upper_cp_space c Hc).
    rewrite !rstrip_app_spaces by (constructor; [exact Hc | constructor]). exact IH.
  - destruct (upper_cp_solid c Hc) as (u & us & Hupper & Hsolid).
    rewrite rstrip_snoc_solid by exact Hc.
    rewrite flat_map_app. simpl. rewrite app_nil_r, Hupper.
    apply rstrip_app_solid; [discriminate | exact Hsolid].
Qed.

Lemma strip_upper (s : pystr) : strip (upper s) = upper (strip s).
Proof. unfold strip. rewrite lstrip_upper, rstrip_upper. reflexivity. Qed.

Lemma lstrip_Forall (P : codepoint -> Prop) (s : pystr) : Forall P s -> Forall P (lstrip s).
Proof.
  induction 1 as [| c s Hc Hs IH]; simpl; [constructor |].
  destruct (is_space c); [exact IH | constructor; assumption].
Qed.

Lemma strip_Forall (P : codepoint -> Prop) (s : pystr) : Forall P s -> Forall P (strip s).
Proof.
  intros Hs. unfold strip, rstrip.
  apply Forall_rev, lstrip_Forall, Forall_rev, lstrip_Forall, Hs.
Qed.

(** The final sigma and upper-casing. *)

Lemma cased_before_app (l rest : pystr) :
  cased_before (l ++ rest)
  = match first_cased l with Some b => b | None => cased_before rest end.
Proof.
  induction l as [| c l IH]; [reflexivity |].
  simpl. destruct (case_ignorable c); [exact IH | reflexivity].
Qed.

Lemma no_cased_after_app (l rest : pystr) :
  no_cased_after (l ++ rest)
  = match first_cased l with Some b => negb b | None => no_cased_after rest end.
Proof.
  induction l as [| c l IH]; [reflexivity |].
  simpl. destruct (case_ignorable c); [exact IH | reflexivity].
Qed.

Lemma lower_from_prefix (l : pystr) :
  Forall (fun c => c <> capital_sigma) l ->
  forall before rest,
    lower_from before (l ++ rest) = flat_map lower_cp l ++ lower_from (rev l ++ before) rest.
Proof.
  induction 1 as [| c l Hc _ IH]; intros before rest; [reflexivity |].
  simpl. rewrite (proj2 (N.eqb_neq c 931) Hc), IH, <- !app_assoc. reflexivity.
Qed.

Lemma code_range_covers (first last c : codepoint) :
  (first <= c)%N -> (c <= last)%N -> In c (code_range first last).
Proof.
  intros Hlo Hhi. unfold code_range. apply in_map_iff.
  exists (N.to_nat (c - first)). split; [lia |]. apply in_seq. lia.
Qed.

Lemma upper_cp_changed (c : codepoint) : upper_cp c = [c] \/ In c upper_changed.
Proof.
  unfold upper_cp, upper_changed, simple_map.
  destruct (List.find (fun e => (fst e =? c)%N) upper_special) as [[c' image] |] eqn:Hspecial.
  { right. apply List.find_some in Hspecial as [Hin Hc]. apply N.eqb_eq in Hc.
    simpl in Hc. subst c'. apply in_or_app. left.
    apply in_map_iff. exists (c, image). split; [reflexivity | exact Hin]. }
  destruct (List.find (rule_applies c) upper_rules) as [[[[first last] step] target] |] eqn:Hrule;
    [| left; reflexivity].
  right. apply List.find_some in Hrule as [Hin Happlies].
  unfold rule_applies in Happlies.
  apply andb_prop in Happlies as [Hrange _]. apply andb_prop in Hrange as [Hlo Hhi].
  apply N.leb_le in Hlo, Hhi.
  apply in_or_app. right. apply in_flat_map.
  exists (first, last, step, target). split; [exact Hin |].
  apply code_range_covers; assumption.
Qed.

Lemma upper_changed_same_context :
  forallb (fun c => implb (case_stable c) (same_context c)) upper_changed = true.
Proof. vm_compute. reflexivity. Qed.

Lemma case_stable_context (c : codepoint) :
  case_stable c = true ->
  first_cased (upper_cp c) = first_cased [c] /\
  first_cased (rev (upper_cp c)) = first_cased [c].
Proof.
  intros Hc. destruct (upper_cp_changed c) as [Hsame | Hin].
  - rewrite Hsame. split; reflexivity.
  - pose proof upper_changed_same_context as Hall.
    rewrite forallb_forall in Hall. specialize (Hall c Hin). cbv beta in Hall.
    rewrite Hc in Hall. simpl in Hall. unfold same_context in Hall.
    apply andb_prop in Hall as [Hfwd Hbwd].
    split; [exact (bool_decide_eq_true_1 _ Hfwd) | exact (bool_decide_eq_true_1 _ Hbwd)].
Qed.

Lemma case_stable_spec (c : codepoint) :
  case_stable c = true ->
  c = capital_sigma \/
  c <> capital_sigma /\
  Forall (fun u => u <> capital_sigma) (upper_cp c) /\
  flat_map lower_cp (upper_cp c) = lower_cp c.
Proof.
  unfold case_stable. intros Hc.
  destruct (N.eqb_spec c capital_sigma) as [Hsigma | Hsigma]; [left; exact Hsigma | right].
  simpl in Hc. apply andb_prop in Hc as [Hupper Hlower].
  repeat split.
  - exact Hsigma.
  - apply Forall_forall. intros u Hu. rewrite forallb_forall in Hupper.
    apply N.eqb_neq, negb_true_iff, Hupper, list_elem_of_In, Hu.
  - exact (bool_decide_eq_true_1 _ Hlower).
Qed.

Lemma no_cased_after_upper (s : pystr) :
  Forall (fun c => case_stable c = true) s ->
  no_cased_after (upper s) = no_cased_after s.
Proof.
  unfold upper. induction 1 as [| c s Hc _ IH]; [reflexivity |].
  change (flat_map upper_cp (c :: s)) with (upper_cp c ++ flat_map upper_cp s).
  change (c :: s) with ([c] ++ s).
  rewrite !no_cased_after_app, (proj1 (case_stable_context c Hc)).
  destruct (first_cased [c]); [reflexivity | exact IH].
Qed.

Lemma lower_from_upper (s : pystr) :
  Forall (fun c => case_stable c = true) s ->
  forall before before' : pystr,
    cased_before before' = cased_before before ->
    lower_from before' (upper s) = lower_from before s.
Proof.
  unfold upper. induction 1 as [| c s Hc Hs IH]; intros before before' Hbefore; [reflexivity |].
  change (flat_map upper_cp (c :: s)) with (upper_cp c ++ flat_map upper_cp s).
  destruct (case_stable_spec c Hc) as [-> | (Hsigma & Hupper & Hlower)].
  - change (upper_cp capital_sigma) with [capital_sigma].
    change ([capital_sigma] ++ flat_map upper_cp s) with (capital_sigma :: flat_map upper_cp s).
    cbn [lower_from]. change (capital_sigma =? 931)%N with true. cbv iota.
    rewrite Hbefore. fold (upper s). rewrite (no_cased_after_upper s Hs). f_equal.
    apply IH. reflexivity.
  - rewrite (lower_from_prefix _ Hupper), Hlower.
    cbn [lower_from]. rewrite (proj2 (N.eqb_neq c 931) Hsigma). f_equal.
    apply IH. change (c :: before) with ([c] ++ before).
    rewrite !cased_before_app, (proj2 (case_stable_context c Hc)).
    destruct (first_cased [c]); [reflexivity | exact Hbefore].
Qed.

Lemma lower_upper_stable (s : pystr) :
  Forall (fun c => case_stable c = true) s -> lower (upper s) = lower s.
Proof. intros Hs. unfold lower. apply lower_from_upper; [exact Hs | reflexivity]. Qed.

Lemma normalize_scalar_upper (s : pystr) :
  Forall (fun c => case_stable c = true) s ->
  normalize_scalar (Some (upper s)) = normalize_scalar (Some s).
Proof.
  intros Hs. rewrite !normalize_scalar_some, strip_upper.
  apply lower_upper_stable, strip_Forall, Hs.
Qed.

Lemma upper_cp_fixed_stable (c : codepoint) : upper_cp c = [c] -> case_stable c = true.
Proof.
  intros Hfixed. unfold case_stable. rewrite Hfixed. simpl. rewrite app_nil_r.
  rewrite bool_decide_eq_true_2 by reflexivity.
  destruct (c =? capital_sigma)%N; reflexivity.
Qed.

Lemma upper_changed_unstable :
  forallb (fun c => case_stable c || existsb (N.eqb c) case_unstable) upper_changed = true.
Proof. vm_compute. reflexivity. Qed.

Lemma case_unstable_fails :
  forallb (fun c =>
             negb (case_stable c)
             && (negb (bool_decide (normalize_scalar (Some [c])
                                    = normalize_scalar (Some (upper [c]))))
                 || negb (bool_decide (normalize_scalar (Some [97%N; c])
                                       = normalize_scalar (Some (upper [97%N; c]))))))
    case_unstable = true.
Proof. vm_compute. reflexivity. Qed.

(** The characters that are not case-stable are those of the list, and on each
    of them the normalizer does see upper-casing: alone, or after an "a". *)
Lemma case_unstable_spec (c : codepoint) :
  (case_stable c = false <-> In c case_unstable) /\
  (In c case_unstable ->
   normalize_scalar (Some [c]) <> normalize_scalar (Some (upper [c])) \/
   normalize_scalar (Some [97%N; c]) <> normalize_scalar (Some (upper [97%N; c]))).
Proof.
  pose proof case_unstable_fails as Hfails. rewrite forallb_forall in Hfails.
  split; [split |].
  - intros Hc. destruct (upper_cp_changed c) as [Hfixed | Hin].
    + rewrite (upper_cp_fixed_stable c Hfixed) in Hc. discriminate Hc.
    + pose proof upper_changed_unstable as Hall. rewrite forallb_forall in Hall.
      specialize (Hall c Hin). cbv beta in Hall. rewrite Hc in Hall.
      apply existsb_exists in Hall as (x & Hx & Heq). apply N.eqb_eq in Heq.
      subst x. exact Hx.
  - intros Hin. specialize (Hfails c Hin). cbv beta in Hfails.
    apply andb_prop in Hfails as [Hc _]. apply negb_true_iff, Hc.
  - intros Hin. specialize (Hfails c Hin). cbv beta in Hfails.
    apply andb_prop in Hfails as [_ Hseen]. apply orb_prop in Hseen as [Hone | Htwo].
    + left. apply negb_true_iff in Hone. exact (bool_decide_eq_false_1 _ Hone).
    + right. apply negb_true_iff in Htwo. exact (bool_decide_eq_false_1 _ Htwo).
Qed.

Lemma latin1_stable :
  forallb (fun c => (c =? 181)%N || (c =? 223)%N || case_stable c) latin1 = true.
Proof. vm_compute. reflexivity. Qed.

Lemma latin1_case_stable (c : codepoint) :
  (c < 256)%N -> c <> 181%N -> c <> 223%N -> case_stable c = true.
Proof.
  intros Hc Hmicro Hsharp. pose proof latin1_stable as Hall.
  rewrite forallb_forall in Hall.
  assert (Hin : In c latin1).
  { unfold latin1. apply in_map_iff. exists (N.to_nat c). split; [lia |]. apply in_seq. lia. }
  specialize (Hall c Hin). cbv beta in Hall.
  rewrite (proj2 (N.eqb_neq c 181) Hmicro), (proj2 (N.eqb_neq c 223) Hsharp) in Hall.
  exact Hall.
Qed.

End Normalizer.

(** C6, as stated, fails at the one-letter string "ß" (U+00DF, the German
    sharp s): [lower] leaves it alone, [upper] turns it into "SS", which
    normalizes to "ss". *)
Lemma normalize_scalar_upper_sharp_s :
  [223%N] <> [] /\
  normalize_scalar (Some [223%N]) <> normalize_scalar (Some (upper [223%N])).
Proof. split; [discriminate | vm_compute; discriminate]. Qed.

(** C6, amended: the normalizer does not see upper-casing on a string made of
    case-stable characters.  Every character is case-stable but the 126 of
    [case_unstable] (the sharp s, the micro sign, the small sigmas, the
    dotless i, the long s, the ligatures, the Greek letters with iota
    subscript and the like), and on each of those the normalizer does see
    upper-casing, alone or after a letter; among the first 256 code points
    all but the micro sign U+00B5 and the sharp s U+00DF are case-stable.  On
    every string the normalizer does not see two blanks added at each end, and
    it maps an absent value ([None]) and the empty string to the empty
    string. *)
Theorem normalize_scalar_invariant (s : pystr) :
  (Forall (fun c => case_stable c = true) s ->
   normalize_scalar (Some s) = normalize_scalar (Some (upper s))) /\
  normalize_scalar (Some s) = normalize_scalar (Some (padded s)) /\
  normalize_scalar None = [] /\
  normalize_scalar (Some []) = [] /\
  (forall c : codepoint, case_stable c = false <-> In c case_unstable) /\
  length case_unstable = 126%nat /\
  (forall c : codepoint,
     In c case_unstable ->
     normalize_scalar (Some [c]) <> normalize_scalar (Some (upper [c])) \/
     normalize_scalar (Some [97%N; c]) <> normalize_scalar (Some (upper [97%N; c]))) /\
  (forall c : codepoint, (c < 256)%N -> c <> 181%N -> c <> 223%N -> case_stable c = true).
Proof.
  split; [| split; [| split; [| split; [| split; [| split; [| split]]]]]].
  - intros Hs. symmetry. apply normalize_scalar_upper, Hs.
  - rewrite !normalize_scalar_some, strip_padded. reflexivity.
  - reflexivity.
  - reflexivity.
  - intros c. apply case_unstable_spec.
  - reflexivity.
  - intros c. apply case_unstable_spec.
  - apply latin1_case_stable.
Qed.

Lemma normalize_scalar_invariant_ecole :
  Forall (fun c => case_stable c = true) [201; 99; 111; 108; 101]%N /\
  normalize_scalar (Some [201; 99; 111; 108; 101]%N)
  = normalize_scalar (Some (upper [201; 99; 111; 108; 101]%N)).
Proof.
  assert (H : Forall (fun c => case_stable c = true) [201; 99; 111; 108; 101]%N)
    by (repeat constructor).
  split; [exact H | exact (proj1 (normalize_scalar_invariant _) H)].
Defined.

(** * The table comparison *)

Section CheckTable.

Lemma cell_eq_true (u k : pystr) :
  cell_eq u k = true <-> normalize_scalar (Some u) = normalize_scalar (Some k).
Proof. unfold cell_eq. apply bool_decide_eq_true. Qed.

Lemma check_cells_true (urow krow : list pystr) :
  length urow = length krow ->
  fst (check_cells urow krow) = true <->
  Forall2 (fun u k => normalize_scalar (Some u) = normalize_scalar (Some k)) urow krow.
Proof.
  revert krow. induction urow as [| u urow IH]; intros [| k krow] Hlen;
    simpl in *; try discriminate.
  - split; [constructor | reflexivity].
  - injection Hlen as Hlen. specialize (IH krow Hlen).
    destruct (cell_eq u k) eqn:Hcell.
    + destruct (check_cells urow krow) as [ok cmp]. simpl in *. split.
      * intros Hok. constructor; [apply cell_eq_true, Hcell | apply IH, Hok].
      * intros Hall. inversion Hall; subst. apply IH. assumption.
    + simpl. split; [discriminate |].
      intros Hall. inversion Hall as [| ? ? ? ? Hhead]; subst.
      apply cell_eq_true in Hhead. congruence.
Qed.

Lemma check_rows_true (user_tab correct_tab : list (list pystr)) :
  length user_tab = length correct_tab ->
  fst (check_rows user_tab correct_tab) = true <->
  same_shape user_tab correct_tab /\ cells_match user_tab correct_tab.
Proof.
  unfold same_shape, cells_match. revert correct_tab.
  induction user_tab as [| urow user_tab IH]; intros [| krow correct_tab] Hlen;
    simpl in *; try discriminate.
  - split; [repeat constructor | reflexivity].
  - injection Hlen as Hlen. specialize (IH correct_tab Hlen).
    destruct (Nat.eqb_spec (length urow) (length krow)) as [Hcols | Hcols]; simpl.
    + pose proof (check_cells_true urow krow Hcols) as Hcells.
      destruct (check_cells urow krow) as [ok cmp]. simpl in Hcells.
      destruct ok; simpl.
      * destruct (check_rows user_tab correct_tab) as [ok' cmp']. simpl in *. split.
        -- intros Hok. apply IH in Hok as [Hshape Hmatch].
           split; constructor; try assumption. apply Hcells. reflexivity.
        -- intros [Hshape Hmatch]. inversion Hshape; inversion Hmatch; subst.
           apply IH. split; assumption.
      * split; [discriminate |]. intros [_ Hmatch]. inversion Hmatch; subst.
        apply Hcells. assumption.
    + split; [discriminate |]. intros [Hshape _]. inversion Hshape; subst. contradiction.
Qed.


End CheckTable.



(** * The scorer *)

Section AutoScore.

Variable repr_table : list (list pystr) -> pystr.
Variable d : db.
Variable user_answers : gmap pystr answer.

(** The number of ids of a list that the loop counts as correct. *)
Let correct (ids : list pystr) : Z :=
  Z.of_nat (length (List.filter (verdict repr_table d user_answers) ids)).

Lemma auto_score_loop_step (pid : pystr) (rest : list pystr)
    (results : gmap pystr bool) (n : Z) :
  auto_score_loop repr_table d user_answers (pid :: rest) results n =
  auto_score_loop repr_table d user_answers rest
    (<[pid := verdict repr_table d user_answers pid]> results)
    (if verdict repr_table d user_answers pid then n + 1 else n).
Proof. unfold verdict. simpl. destruct (get_problem d pid); reflexivity. Qed.

Lemma auto_score_loop_count (ids : list pystr) (results : gmap pystr bool) (n : Z) :
  snd (auto_score_loop repr_table d user_answers ids results n) = n + correct ids.
Proof.
  subst correct. revert results n.
  induction ids as [| pid rest IH]; intros results n.
  - simpl. lia.
  - rewrite auto_score_loop_step, IH. simpl.
    destruct (verdict repr_table d user_answers pid); simpl length; lia.
Qed.

Lemma auto_score_loop_lookup (ids : list pystr) (results : gmap pystr bool) (n : Z)
    (pid : pystr) :
  fst (auto_score_loop repr_table d user_answers ids results n) !! pid =
  if decide (pid ∈ ids) then Some (verdict repr_table d user_answers pid)
  else results !! pid.
Proof.
  revert results n. induction ids as [| x rest IH]; intros results n.
  - simpl. destruct (decide (pid ∈ [])) as [Hin | _]; [inversion Hin | reflexivity].
  - rewrite auto_score_loop_step, IH.
    destruct (decide (pid ∈ rest)) as [Hin | Hnotin].
    + rewrite decide_True by (right; exact Hin). reflexivity.
    + destruct (decide (pid = x)) as [-> | Hne].
      * rewrite decide_True by left. apply lookup_insert_eq.
      * rewrite decide_False by (intros Hin; inversion Hin; subst; contradiction).
        apply lookup_insert_ne. congruence.
Qed.

Lemma correct_Permutation (ids ids' : list pystr) :
  Permutation ids ids' -> correct ids = correct ids'.
Proof.
  subst correct. simpl. intros Hperm. f_equal.
  induction Hperm as [| x l l' _ IH | x y l | l l' l'' _ IH1 _ IH2]; simpl.
  - reflexivity.
  - destruct (verdict repr_table d user_answers x); simpl; congruence.
  - destruct (verdict repr_table d user_answers x),
             (verdict repr_table d user_answers y); reflexivity.
  - congruence.
Qed.

Lemma auto_score_unfold (ids : list pystr) :
  auto_score repr_table d ids user_answers =
  (percentage (correct ids) (length ids),
   fst (auto_score_loop repr_table d user_answers ids ∅ 0)).
Proof.
  unfold auto_score.
  pose proof (auto_score_loop_count ids ∅ 0) as Hcount.
  destruct (auto_score_loop repr_table d user_answers ids ∅ 0) as [results n].
  simpl in *. rewrite Hcount. reflexivity.
Qed.

Lemma auto_score_results (ids : list pystr) (pid : pystr) :
  snd (auto_score repr_table d ids user_answers) !! pid =
  if decide (pid ∈ ids) then Some (verdict repr_table d user_answers pid) else None.
Proof. rewrite auto_score_unfold. simpl. rewrite auto_score_loop_lookup. reflexivity. Qed.

Lemma auto_score_percentage (ids : list pystr) :
  fst (auto_score repr_table d ids user_answers) =
  percentage (Z.of_nat (length (List.filter (verdict repr_table d user_answers) ids)))
             (length ids).
Proof. rewrite auto_score_unfold. reflexivity. Qed.

(** C8: the scorer gives a permutation of a list of problem ids (repeated ids
    allowed) the same percentage and the same [results] as the list, whatever
    the stored problems and the submitted answers. *)
Theorem auto_score_Permutation (ids ids' : list pystr) :
  Permutation ids ids' ->
  auto_score repr_table d ids' user_answers = auto_score repr_table d ids user_answers.
Proof.
  intros Hperm. rewrite !auto_score_unfold. f_equal.
  - rewrite (correct_Permutation ids ids' Hperm), (Permutation_length Hperm). reflexivity.
  - apply map_eq. intros pid. rewrite !auto_score_loop_lookup.
    destruct (decide (pid ∈ ids)) as [Hin | Hnotin].
    + rewrite decide_True by (rewrite <- Hperm; exact Hin). reflexivity.
    + rewrite decide_False by (rewrite <- Hperm; exact Hnotin). reflexivity.
Qed.

(** C5: on the empty list of problems the scorer returns 0 and the empty
    [results]; on every list its divisor is [max(1, len(problem_ids))], which
    is never zero. *)
Theorem auto_score_empty :
  auto_score repr_table d [] user_answers = (0%Q, ∅) /\
  forall ids, Zpos (Qden (fst (auto_score repr_table d ids user_answers)))
              = Z.max 1 (Z.of_nat (length ids)).
Proof.
  split; [reflexivity |].
  intros ids. rewrite auto_score_percentage. unfold percentage. simpl Qden.
  destruct (length ids) as [| n]; [reflexivity |].
  change (Nat.max 1 (S n)) with (S n). lia.
Qed.

(** C10: a problem of type single whose key normalizes to the empty string is
    scored correct when the submission has no entry for it, and when its entry
    is a string of whitespace only. *)
Theorem auto_score_empty_key (ids : list pystr) (pid : pystr) (row : problem_row) :
  problems d !! pid = Some row ->
  pr_answer_type row = single ->
  normalize_scalar (Some (py_str repr_table (pr_answer row))) = [] ->
  (user_answers !! pid = None \/
   exists ws, user_answers !! pid = Some (Single ws) /\ all_spaces ws) ->
  pid ∈ ids ->
  snd (auto_score repr_table d ids user_answers) !! pid = Some true.
Proof.
  intros Hrow Hsingle Hkey Hans Hin.
  rewrite auto_score_results, decide_True by exact Hin. f_equal.
  unfold verdict, get_problem. rewrite Hrow.
  unfold check_problem. simpl. rewrite decide_True by exact Hsingle.
  unfold check_single. apply bool_decide_eq_true. rewrite Hkey.
  destruct Hans as [-> | (ws & -> & Hws)]; simpl.
  - reflexivity.
  - apply normalize_scalar_spaces. exact Hws.
Qed.

End AutoScore.

Lemma auto_score_Permutation_sample :
  auto_score repr_plain sample_db [lit "T1"; lit "P1"; lit "P9"; lit "P1"]
    (<[lit "P1" := Single (lit " Paris ")]> ∅)
  = auto_score repr_plain sample_db [lit "P1"; lit "P9"; lit "P1"; lit "T1"]
      (<[lit "P1" := Single (lit " Paris ")]> ∅).
Proof.
  apply auto_score_Permutation.
  change ([lit "P1"; lit "P9"; lit "P1"; lit "T1"])
    with ([lit "P1"; lit "P9"; lit "P1"] ++ [lit "T1"]).
  symmetry. apply Permutation_cons_append.
Defined.

Lemma auto_score_empty_key_sample :
  snd (auto_score repr_plain sample_db [lit "P1"; lit "P2"]
         (<[lit "P1" := Single (lit "x")]> ∅)) !! lit "P2" = Some true.
Proof.
  apply (auto_score_empty_key repr_plain sample_db _ _ (lit "P2")
           (sample_problem single (Single (lit "  ")))).
  - reflexivity.
  - reflexivity.
  - reflexivity.
  - left. reflexivity.
  - right. left.
Defined.

(** * Computations that only render *)

Section Renders.

Lemma add_out_nil (w : world) : add_out w [] = w.
Proof. destruct w. unfold add_out. simpl. rewrite app_nil_r. reflexivity. Qed.

Lemma add_out_app (w : world) (es es' : list element) :
  add_out (add_out w es) es' = add_out w (es ++ es').
Proof. unfold add_out. simpl. rewrite app_assoc. reflexivity. Qed.

Lemma renders_intro {A} (m : page A) (r : step A) (es : list element) :
  (forall w, m w = (r, add_out w es)) -> renders m.
Proof.
  intros Hm w. unfold rendered. rewrite (Hm (start empty_db)), (Hm w). reflexivity.
Qed.

Lemma rendered_intro {A} (m : page A) (r : step A) (es : list element) :
  (forall w, m w = (r, add_out w es)) -> rendered m = (r, es).
Proof. intros Hm. unfold rendered. rewrite (Hm (start empty_db)). reflexivity. Qed.

Lemma renders_ret {A} (a : A) : renders (ret a).
Proof. apply (renders_intro _ (Val a) []). intros w. rewrite add_out_nil. reflexivity. Qed.

Lemma renders_raise {A} (e : exn) : renders (@raise A e).
Proof. apply (renders_intro _ (Raise e) []). intros w. rewrite add_out_nil. reflexivity. Qed.

Lemma renders_st (e : element) : renders (st e).
Proof. apply (renders_intro _ (Val tt) [e]). intros w. reflexivity. Qed.

Lemma bind_run {A B} (m : page A) (f : A -> page B) (w : world) :
  renders m -> (forall a, renders (f a)) ->
  (m ≫= f) w =
  (fst (then_rendered (rendered m) (fun a => rendered (f a))),
   add_out w (snd (then_rendered (rendered m) (fun a => rendered (f a))))).
Proof.
  intros Hm Hf. unfold mbind, page_bind, then_rendered. rewrite (Hm w).
  destruct (fst (rendered m)) as [a | | e]; simpl; try reflexivity.
  rewrite (Hf a), add_out_app. reflexivity.
Qed.

Lemma renders_bind {A B} (m : page A) (f : A -> page B) :
  renders m -> (forall a, renders (f a)) -> renders (m ≫= f).
Proof.
  intros Hm Hf. eapply renders_intro. intros w. apply bind_run; assumption.
Qed.

Lemma rendered_bind {A B} (m : page A) (f : A -> page B) :
  renders m -> (forall a, renders (f a)) ->
  rendered (m ≫= f) = then_rendered (rendered m) (fun a => rendered (f a)).
Proof.
  intros Hm Hf. rewrite (surjective_pairing (then_rendered _ _)).
  apply rendered_intro. intros w. apply bind_run; assumption.
Qed.

Lemma renders_for_each {A} (xs : list A) (body : A -> page unit) :
  (forall x, renders (body x)) -> renders (for_each xs body).
Proof.
  intros Hbody. induction xs as [| x xs IH]; simpl.
  - apply renders_ret.
  - apply renders_bind; [apply Hbody | intros _; exact IH].
Qed.

Lemma renders_subscript (per_problem : gmap pystr bool) (pid : pystr) :
  renders (subscript per_problem pid).
Proof.
  unfold subscript. destruct (per_problem !! pid); [apply renders_ret | apply renders_raise].
Qed.

Lemma renders_wrong_ids (probs : list (option problem)) (per_problem : gmap pystr bool) :
  renders (wrong_ids probs per_problem).
Proof.
  induction probs as [| [p |] probs IH]; simpl.
  - apply renders_ret.
  - apply renders_bind; [apply renders_subscript |].
    intros ok. apply renders_bind; [exact IH | intros wrong; apply renders_ret].
  - exact IH.
Qed.

Lemma renders_reveal_all (probs : list (option problem)) (per_problem : gmap pystr bool) :
  renders (reveal_all probs per_problem).
Proof.
  apply renders_for_each. intros [p |]; [| apply renders_ret].
  apply renders_bind; [apply renders_subscript |]. intros ok.
  repeat (apply renders_bind; [apply renders_st | intros _]). apply renders_st.
Qed.

Lemma renders_feedback (m : mode) (attempt_no : Z) (probs : list (option problem))
    (per_problem : gmap pystr bool) :
  renders (feedback m attempt_no probs per_problem).
Proof.
  unfold feedback.
  destruct (decide (m = training)); [| destruct (decide (m = test1));
                                       [| destruct (attempt_no =? 1)]].
  - apply renders_bind; [apply renders_st | intros _].
    apply renders_for_each. intros [p |]; [| apply renders_ret].
    apply renders_bind; [apply renders_subscript | intros ok; apply renders_st].
  - apply renders_bind; [apply renders_st | intros _]. apply renders_reveal_all.
  - apply renders_bind; [apply renders_st | intros _].
    apply renders_bind; [apply renders_wrong_ids |].
    intros [| pid wrong]; apply renders_st.
  - apply renders_bind; [apply renders_st | intros _]. apply renders_reveal_all.
Qed.

End Renders.

(** * The feedback *)

Section Feedback.

Variable probs : list (option problem).
Variable per_problem : gmap pystr bool.

Lemma rendered_st (e : element) : rendered (st e) = (Val tt, [e]).
Proof. reflexivity. Qed.

Lemma rendered_ret {A} (a : A) : rendered (ret a) = (Val a, []).
Proof. reflexivity. Qed.

Lemma rendered_st_then {B} (e : element) (k : page B) :
  renders k ->
  rendered (st e ;; k) = (fst (rendered k), e :: snd (rendered k)).
Proof.
  intros Hk. rewrite rendered_bind; [| apply renders_st | intros _; exact Hk].
  reflexivity.
Qed.

Lemma rendered_subscript (pid : pystr) :
  is_Some (per_problem !! pid) ->
  rendered (subscript per_problem pid) = (Val (flag per_problem pid), []).
Proof. intros [ok Hok]. unfold subscript, flag. rewrite Hok. reflexivity. Qed.

Lemma rendered_for_each {A} (xs : list A) (body : A -> page unit)
    (line : A -> list element) :
  (forall x, renders (body x)) ->
  (forall x, x ∈ xs -> rendered (body x) = (Val tt, line x)) ->
  rendered (for_each xs body) = (Val tt, flat_map line xs).
Proof.
  intros Hrenders Hline. induction xs as [| x xs IH]; [reflexivity |].
  simpl. rewrite rendered_bind;
    [| apply Hrenders | intros _; apply renders_for_each, Hrenders].
  rewrite (Hline x) by left.
  rewrite IH by (intros y Hy; apply Hline; right; exact Hy).
  reflexivity.
Qed.

Lemma flat_map_present {B} (line : problem -> list B) (ps : list (option problem)) :
  flat_map (fun p => match p with Some p => line p | None => [] end) ps
  = flat_map line (present ps).
Proof.
  unfold present. induction ps as [| [p |] ps IH]; simpl; [| rewrite IH |]; auto.
Qed.

Lemma covers_elem (p : problem) :
  covers per_problem probs -> Some p ∈ probs -> is_Some (per_problem !! p_id p).
Proof.
  intros Hcov Hin. apply Hcov. unfold present. apply list_elem_of_omap.
  exists (Some p). split; [exact Hin | reflexivity].
Qed.

Lemma rendered_reveal_all :
  covers per_problem probs ->
  rendered (reveal_all probs per_problem) = (Val tt, reveal_lines probs per_problem).
Proof.
  intros Hcov. unfold reveal_all, reveal_lines. rewrite <- flat_map_present.
  apply rendered_for_each.
  - intros [p |]; [| apply renders_ret].
    apply renders_bind; [apply renders_subscript |]. intros ok.
    repeat (apply renders_bind; [apply renders_st | intros _]). apply renders_st.
  - intros [p |] Hin; [| reflexivity].
    rewrite rendered_bind; [| apply renders_subscript |].
    + rewrite rendered_subscript by (apply covers_elem; assumption). reflexivity.
    + intros ok. repeat (apply renders_bind; [apply renders_st | intros _]).
      apply renders_st.
Qed.

Lemma rendered_correctness :
  covers per_problem probs ->
  rendered (for_each probs (fun p =>
    match p with
    | None => ret tt
    | Some p => ok ← subscript per_problem (p_id p); st (st_result (p_id p) ok)
    end)) = (Val tt, correctness_lines probs per_problem).
Proof.
  intros Hcov. unfold correctness_lines.
  replace (map (fun p => st_result (p_id p) (flag per_problem (p_id p))) (present probs))
    with (flat_map (fun p => [st_result (p_id p) (flag per_problem (p_id p))])
            (present probs))
    by (induction (present probs); simpl; congruence).
  rewrite <- flat_map_present.
  apply rendered_for_each.
  - intros [p |]; [| apply renders_ret].
    apply renders_bind; [apply renders_subscript | intros ok; apply renders_st].
  - intros [p |] Hin; [| reflexivity].
    rewrite rendered_bind; [| apply renders_subscript | intros ok; apply renders_st].
    rewrite rendered_subscript by (apply covers_elem; assumption). reflexivity.
Qed.

Lemma rendered_wrong_ids (ps : list (option problem)) :
  (forall p, Some p ∈ ps -> is_Some (per_problem !! p_id p)) ->
  rendered (wrong_ids ps per_problem) = (Val (wrong_list ps per_problem), []).
Proof.
  induction ps as [| [p |] ps IH]; intros Hcov; cbn [wrong_ids].
  - reflexivity.
  - rewrite rendered_bind; [| apply renders_subscript |].
    2:{ intros ok. apply renders_bind; [apply renders_wrong_ids | intros; apply renders_ret]. }
    rewrite rendered_subscript by (apply Hcov; left).
    unfold then_rendered at 1. cbn [fst snd].
    rewrite rendered_bind; [| apply renders_wrong_ids | intros; apply renders_ret].
    rewrite IH by (intros q Hq; apply Hcov; right; exact Hq).
    unfold wrong_list, present, then_rendered. simpl.
    destruct (flag per_problem (p_id p)); reflexivity.
  - rewrite IH by (intros q Hq; apply Hcov; right; exact Hq). reflexivity.
Qed.

End Feedback.

Lemma resolved_ids_present (probs : list (option problem)) :
  resolved_ids probs = map p_id (present probs).
Proof.
  unfold resolved_ids, present. induction probs as [| [p |] probs IH]; simpl in *;
    [reflexivity | f_equal; exact IH | exact IH].
Qed.

Lemma correctness_lines_ids (probs : list (option problem)) (per_problem : gmap pystr bool) :
  correctness_lines probs per_problem
  = map (fun pid => st_result pid (flag per_problem pid)) (resolved_ids probs).
Proof.
  rewrite resolved_ids_present. unfold correctness_lines. rewrite map_map. reflexivity.
Qed.

Lemma wrong_list_ids (probs : list (option problem)) (per_problem : gmap pystr bool) :
  wrong_list probs per_problem
  = List.filter (fun pid => negb (flag per_problem pid)) (resolved_ids probs).
Proof.
  rewrite resolved_ids_present. unfold wrong_list.
  induction (present probs) as [| p ps IH]; [reflexivity |].
  simpl. destruct (negb (flag per_problem (p_id p))); simpl; rewrite IH; reflexivity.
Qed.

Lemma covers_ids (probs probs' : list (option problem)) (per_problem : gmap pystr bool) :
  resolved_ids probs' = resolved_ids probs ->
  covers per_problem probs -> covers per_problem probs'.
Proof.
  rewrite !resolved_ids_present. intros Hids Hcov p Hp.
  assert (Hin : p_id p ∈ map p_id (present probs)).
  { rewrite <- Hids. apply list_elem_of_fmap. exists p. auto. }
  apply list_elem_of_fmap in Hin as (q & -> & Hq). apply Hcov, Hq.
Qed.

Lemma reveal_lines_all (probs : list (option problem)) (per_problem : gmap pystr bool)
    (p : problem) :
  p ∈ present probs ->
  st_result (p_id p) (flag per_problem (p_id p)) ∈ reveal_lines probs per_problem /\
  st_code (p_answer p) ∈ reveal_lines probs per_problem.
Proof.
  unfold reveal_lines. intros Hin. induction Hin as [p ps | p q ps _ IH]; simpl.
  - split; [left | right; right; left].
  - destruct IH as [IH1 IH2]. split; do 3 right; assumption.
Qed.

Lemma rendered_feedback_training (attempt_no : Z) (probs : list (option problem))
    (per_problem : gmap pystr bool) :
  covers per_problem probs ->
  rendered (feedback training attempt_no probs per_problem)
  = (Val tt,
     st_info "Training mode: see per-problem correctness below. You can try again anytime."
     :: correctness_lines probs per_problem).
Proof.
  intros Hcov. unfold feedback. simpl.
  rewrite rendered_st_then.
  2:{ apply renders_for_each. intros [p |]; [| apply renders_ret].
      apply renders_bind; [apply renders_subscript | intros ok; apply renders_st]. }
  rewrite rendered_correctness by exact Hcov. reflexivity.
Qed.

Lemma rendered_feedback_first_of_two (probs : list (option problem))
    (per_problem : gmap pystr bool) :
  covers per_problem probs ->
  rendered (feedback test2 1 probs per_problem)
  = (Val tt,
     [st_info "Test mode-2: you have one more attempt. Incorrect questions shown below.";
      match wrong_list probs per_problem with
      | [] => st_success "All correct!"
      | wrong => st_wrong wrong
      end]).
Proof.
  intros Hcov. unfold feedback. simpl.
  rewrite rendered_st_then.
  2:{ apply renders_bind; [apply renders_wrong_ids |]. intros [| pid wrong]; apply renders_st. }
  rewrite rendered_bind;
    [| apply renders_wrong_ids | intros [| pid wrong]; apply renders_st].
  rewrite rendered_wrong_ids by (intros p Hp; eapply covers_elem; eassumption).
  unfold then_rendered. cbn [fst snd].
  destruct (wrong_list probs per_problem); reflexivity.
Qed.

Lemma rendered_feedback_single_attempt (attempt_no : Z) (probs : list (option problem))
    (per_problem : gmap pystr bool) :
  covers per_problem probs ->
  rendered (feedback test1 attempt_no probs per_problem)
  = (Val tt,
     st_info "Test mode-1: one attempt. Correct answers are revealed now."
     :: reveal_lines probs per_problem).
Proof.
  intros Hcov. unfold feedback. simpl.
  rewrite rendered_st_then by apply renders_reveal_all.
  rewrite rendered_reveal_all by exact Hcov. reflexivity.
Qed.

Lemma rendered_feedback_last_of_two (attempt_no : Z) (probs : list (option problem))
    (per_problem : gmap pystr bool) :
  covers per_problem probs -> attempt_no <> 1 ->
  rendered (feedback test2 attempt_no probs per_problem)
  = (Val tt,
     st_info "Test mode-2: Final results. Correct answers revealed."
     :: reveal_lines probs per_problem).
Proof.
  intros Hcov Hno. apply Z.eqb_neq in Hno. unfold feedback. simpl. rewrite Hno.
  rewrite rendered_st_then by apply renders_reveal_all.
  rewrite rendered_reveal_all by exact Hcov. reflexivity.
Qed.

(** C4: what the feedback shows is fixed by the mode and the attempt number (it
    only renders, the same elements in every world).  With an entry of
    [per_problem] for every problem that exists, and whatever the attempt
    number, training shows its message and the correctness line of each
    problem, and nothing else; test2 at attempt 1 shows its message and one
    more element, the list of the ids answered incorrectly (or that all were
    correct); test2 at any other attempt number shows its message and, for
    each problem, its correctness line and its correct answer.  What training
    and the first attempt of test2 show depends on the problems through their
    ids only: it is the same for problems with the same ids and any other
    content and correct answers. *)
Theorem feedback_disclosure (attempt_no : Z) (probs : list (option problem))
    (per_problem : gmap pystr bool) :
  covers per_problem probs ->
  (forall m, renders (feedback m attempt_no probs per_problem)) /\
  rendered (feedback training attempt_no probs per_problem)
  = (Val tt,
     st_info "Training mode: see per-problem correctness below. You can try again anytime."
     :: map (fun pid => st_result pid (flag per_problem pid)) (resolved_ids probs)) /\
  rendered (feedback test2 1 probs per_problem)
  = (Val tt,
     [st_info "Test mode-2: you have one more attempt. Incorrect questions shown below.";
      match List.filter (fun pid => negb (flag per_problem pid)) (resolved_ids probs) with
      | [] => st_success "All correct!"
      | wrong => st_wrong wrong
      end]) /\
  (attempt_no <> 1 ->
   rendered (feedback test2 attempt_no probs per_problem)
   = (Val tt,
      st_info "Test mode-2: Final results. Correct answers revealed."
      :: flat_map (fun p => [st_result (p_id p) (flag per_problem (p_id p));
                             st_caption "Correct answer:"; st_code (p_answer p)])
           (present probs)) /\
   forall p, p ∈ present probs ->
     st_result (p_id p) (flag per_problem (p_id p))
       ∈ snd (rendered (feedback test2 attempt_no probs per_problem)) /\
     st_code (p_answer p)
       ∈ snd (rendered (feedback test2 attempt_no probs per_problem))) /\
  (forall probs' : list (option problem),
     resolved_ids probs' = resolved_ids probs ->
     rendered (feedback training attempt_no probs' per_problem)
     = rendered (feedback training attempt_no probs per_problem) /\
     rendered (feedback test2 1 probs' per_problem)
     = rendered (feedback test2 1 probs per_problem)).
Proof.
  intros Hcov. split; [intros m; apply renders_feedback |].
  split; [| split; [| split]].
  - rewrite rendered_feedback_training by exact Hcov.
    rewrite correctness_lines_ids. reflexivity.
  - rewrite rendered_feedback_first_of_two by exact Hcov.
    rewrite wrong_list_ids. reflexivity.
  - intros Hno.
    rewrite (rendered_feedback_last_of_two attempt_no probs per_problem Hcov Hno).
    split; [reflexivity |]. intros p Hp. cbn [snd].
    destruct (reveal_lines_all probs per_problem p Hp) as [Hflag Hans].
    split; right; assumption.
  - intros probs' Hids. pose proof (covers_ids probs probs' per_problem Hids Hcov) as Hcov'.
    rewrite !rendered_feedback_training, !rendered_feedback_first_of_two by assumption.
    rewrite !correctness_lines_ids, !wrong_list_ids, Hids. split; reflexivity.
Qed.

(** * The page *)

Section Page.

Variable repr_table : list (list pystr) -> pystr.

Lemma run_st {B} (e : element) (k : unit -> page B) (w : world) :
  (st e ≫= k) w = k tt (add_out w [e]).
Proof. reflexivity. Qed.

Lemma run_ret {A B} (a : A) (k : A -> page B) (w : world) : (ret a ≫= k) w = k a w.
Proof. reflexivity. Qed.

Lemma run_query {A B} (f : db -> A) (k : A -> page B) (w : world) :
  (query f ≫= k) w = k (f (w_db w)) w.
Proof. reflexivity. Qed.

Lemma run_log {B} (c : call) (k : unit -> page B) (w : world) :
  (log c ≫= k) w = k tt (add_call w c).
Proof. reflexivity. Qed.

Lemma run_execute {B} (f : db -> db) (k : unit -> page B) (w : world) :
  (execute f ≫= k) w = k tt (set_db w (f (w_db w))).
Proof. reflexivity. Qed.

Lemma run_val {A B} (m : page A) (k : A -> page B) (w w' : world) (a : A) :
  m w = (Val a, w') -> (m ≫= k) w = k a w'.
Proof. intros Hm. unfold mbind, page_bind. rewrite Hm. reflexivity. Qed.

Lemma run_raise {A B} (m : page A) (k : A -> page B) (w w' : world) (e : exn) :
  m w = (Raise e, w') -> (m ≫= k) w = (Raise e, w').
Proof. intros Hm. unfold mbind, page_bind. rewrite Hm. reflexivity. Qed.

(** The widgets of one problem: they are shown and give what was typed when
    the problem fits, and the number input raises when it does not. *)
Lemma input_for_answer_run (inp : widgets) (p : problem) (w : world) :
  input_for_answer inp p w
  = (if fits p then Val (typed_in inp p) else Raise StreamlitAPIException, w).
Proof.
  unfold input_for_answer, typed_in, fits, grid_input.
  destruct (decide (p_answer_type p = single)) as [Hty | Hty].
  { rewrite Hty. reflexivity. }
  destruct (p_answer_type p); [contradiction |].
  destruct (p_answer p) as [key | [| row rest]]; [reflexivity | reflexivity |].
  unfold number_input.
  change (1 <=? length (row :: rest))%nat with true. cbn [andb].
  destruct (length (row :: rest) <=? 20)%nat; [| reflexivity].
  destruct (1 <=? length row)%nat; [| reflexivity].
  destruct (length row <=? 20)%nat; reflexivity.
Qed.

Lemma collect_answers_run (inp : widgets) (show : bool) (probs : list (option problem))
    (acc : gmap pystr answer) (w : world) :
  NoDup (resolved_ids probs) ->
  Forall (fun p => fits p = true) (present probs) ->
  (forall p, p ∈ present probs -> acc !! p_id p = None) ->
  collect_answers inp show probs acc w =
  (Val (answers_of inp probs acc),
   add_out w (map (fun p => st_problem (p_id p) show) (present probs))).
Proof.
  rewrite resolved_ids_present. unfold answers_of, present.
  revert acc w. induction probs as [| [p |] probs IH]; intros acc w Hnodup Hfits Hfresh;
    simpl in *.
  - rewrite add_out_nil. reflexivity.
  - rewrite run_st, (Hfresh p) by left.
    apply NoDup_cons in Hnodup as [Hnotin Hnodup].
    apply Forall_cons in Hfits as [Hp Hfits].
    erewrite run_val by (rewrite input_for_answer_run, Hp; reflexivity).
    rewrite IH, add_out_app; [reflexivity | exact Hnodup | exact Hfits |].
    intros q Hq. rewrite lookup_insert_ne.
    + apply Hfresh. right. exact Hq.
    + intros Heq. apply Hnotin. rewrite Heq. apply list_elem_of_fmap. exists q. auto.
  - apply IH; assumption.
Qed.

(** Whatever the problems, the loop leaves the database and the log alone, and
    it does not return from the page. *)
Lemma collect_answers_frame (inp : widgets) (show : bool) (probs : list (option problem))
    (acc : gmap pystr answer) (w : world) :
  w_db (snd (collect_answers inp show probs acc w)) = w_db w /\
  w_calls (snd (collect_answers inp show probs acc w)) = w_calls w /\
  fst (collect_answers inp show probs acc w) <> Return.
Proof.
  revert acc w. induction probs as [| [p |] probs IH]; intros acc w; simpl.
  - repeat split. discriminate.
  - rewrite run_st. destruct (acc !! p_id p).
    + repeat split. discriminate.
    + destruct (fits p) eqn:Hp.
      * erewrite run_val by (rewrite input_for_answer_run, Hp; reflexivity).
        apply (IH _ (add_out w _)).
      * erewrite run_raise by (rewrite input_for_answer_run, Hp; reflexivity).
        repeat split. discriminate.
  - apply IH.
Qed.

(** [get_paper(paper_id)] as the page calls it. *)
Lemma run_get_paper {B} (paper_id : Z) (k : option paper -> page B) (w : world) :
  (call_get_paper paper_id ≫= k) w
  = if sqlite_int paper_id then k (get_paper (w_db w) paper_id) w
    else (Raise OverflowError, w).
Proof. unfold call_get_paper, bind_int. destruct (sqlite_int paper_id); reflexivity. Qed.

Lemma run_warning {B} (missing : list pystr) (k : unit -> page B) (w : world) :
  (match missing with [] => ret tt | _ => st (st_missing missing) end ≫= k) w
  = k tt (add_out w (match missing with [] => [] | _ => [st_missing missing] end)).
Proof. destruct missing; [rewrite add_out_nil |]; reflexivity. Qed.

Lemma may_attempt_false (m : mode) (k : Z) :
  may_attempt m k = false <-> (m = test1 /\ 1 <= k) \/ (m = test2 /\ 2 <= k).
Proof.
  unfold may_attempt. destruct m; simpl;
    destruct (Z.leb_spec 1 k), (Z.leb_spec 2 k); simpl; split;
    try discriminate; try reflexivity; try (intros _; auto; fail);
    intros [[? ?] | [? ?]]; try discriminate; lia.
Qed.

Lemma from_button_rejected (u : user) (inp : widgets) (now : pystr) (paper_id : Z)
    (pp : paper) (probs : list (option problem)) (n : Z)
    (answers : gmap pystr answer) (w : world) :
  submit_paper inp = true ->
  may_attempt (paper_mode pp) n = false ->
  from_button repr_table u inp now paper_id pp probs answers n w =
  (Return, add_out w [st_error (limit_message (paper_mode pp))]).
Proof.
  intros Hsubmit Hgate. unfold from_button. rewrite Hsubmit. cbn [negb].
  apply may_attempt_false in Hgate as [[Hmode Hn] | [Hmode Hn]]; rewrite Hmode.
  - rewrite bool_decide_eq_true_2 by reflexivity.
    rewrite (proj2 (Z.leb_le 1 n) Hn). reflexivity.
  - rewrite bool_decide_eq_false_2 by discriminate.
    rewrite bool_decide_eq_true_2 by reflexivity.
    rewrite (proj2 (Z.leb_le 2 n) Hn). reflexivity.
Qed.

Lemma from_button_accepted (u : user) (inp : widgets) (now : pystr) (paper_id : Z)
    (pp : paper) (probs : list (option problem)) (n : Z)
    (answers : gmap pystr answer) (w : world) :
  submit_paper inp = true ->
  may_attempt (paper_mode pp) n = true ->
  let scored := auto_score repr_table (w_db w) (resolved_ids probs) answers in
  let sub := {| s_paper_id := paper_id; s_pupil_id := u_id u; s_answers := answers;
                s_score := fst scored; s_attempt_no := n + 1; s_submitted_at := now |} in
  let fb := rendered (feedback (paper_mode pp) (n + 1) probs (snd scored)) in
  from_button repr_table u inp now paper_id pp probs answers n w =
  (fst fb,
   {| w_db := record_submission (w_db w) paper_id (u_id u) answers (fst scored) (n + 1) now;
      w_out := w_out w ++ st_score (fst scored) :: snd fb;
      w_calls := w_calls w ++ [call_auto_score (resolved_ids probs) answers;
                               call_record_submission sub] |}).
Proof.
  intros Hsubmit Hgate scored sub fb. unfold from_button. rewrite Hsubmit. cbn [negb].
  unfold may_attempt in Hgate. apply andb_prop in Hgate as [H1 H2].
  apply negb_true_iff in H1, H2. rewrite H1, H2.
  rewrite run_log, run_query, run_log, run_execute, run_st.
  rewrite (renders_feedback _ _ _ _ _).
  unfold add_out, add_call, set_db. cbn [w_db w_out w_calls]. subst scored sub fb.
  rewrite <- !app_assoc. reflexivity.
Qed.

(** The scorer, run on the ids of the problems that exist, has a verdict for
    each of them. *)
Lemma auto_score_covers (d' : db) (ps : list (option problem))
    (answers : gmap pystr answer) :
  covers (snd (auto_score repr_table d' (resolved_ids ps) answers)) ps.
Proof.
  intros p Hp. rewrite auto_score_results, decide_True; [eexists; reflexivity |].
  rewrite resolved_ids_present. apply list_elem_of_fmap. exists p. auto.
Qed.

Lemma feedback_ends (m : mode) (k : Z) (ps : list (option problem))
    (per_problem : gmap pystr bool) :
  covers per_problem ps -> fst (rendered (feedback m k ps per_problem)) = Val tt.
Proof.
  intros Hcov. destruct m.
  - rewrite (rendered_feedback_training k ps per_problem Hcov). reflexivity.
  - rewrite (rendered_feedback_single_attempt k ps per_problem Hcov).
    reflexivity.
  - destruct (Z.eq_dec k 1) as [-> | Hk].
    + rewrite (rendered_feedback_first_of_two ps per_problem Hcov). reflexivity.
    + rewrite (rendered_feedback_last_of_two k ps per_problem Hcov Hk).
      reflexivity.
Qed.

Variable u : user.
Variable inp : widgets.
Variable now : pystr.
Variable d : db.
Variable paper_id : Z.
Variable pp : paper.
Hypothesis Hrole : u_role u = pupil.
Hypothesis Hinput : paper_id_input inp = paper_number paper_id.
Hypothesis Hpaper : get_paper d paper_id = Some pp.

Let probs := map (get_problem d) (problem_ids pp).
Let n := get_attempt_count d paper_id (u_id u).

(** Up to the button: with distinct problems the page renders the prelude and
    goes on with the answers it collected and the number of attempts made. *)
Lemma run_page_to_button :
  sqlite_int paper_id = true ->
  NoDup (resolved_ids probs) ->
  Forall (fun p => fits p = true) (present probs) ->
  run_page repr_table (Some u) inp now d =
  from_button repr_table u inp now paper_id pp probs (answers_of inp probs ∅) n
    (add_out (start d) (prelude pp probs)).
Proof.
  intros Hint Hnodup Hfits.
  unfold run_page, page_pupil_paper, require_auth.
  rewrite decide_True by exact Hrole. rewrite run_ret, run_st, Hinput, run_get_paper, Hint.
  cbn [w_db add_out start]. rewrite Hpaper.
  rewrite !run_st, run_query. cbn [w_db add_out]. fold probs.
  rewrite run_warning.
  rewrite (run_val _ _ _ _ _ (collect_answers_run inp _ probs ∅ _ Hnodup Hfits
             (fun p _ => lookup_empty (p_id p)))).
  rewrite run_query. cbn [w_db add_out]. fold n.
  unfold prelude, start. rewrite !add_out_app. reflexivity.
Qed.

(** Up to the button, whatever the problems: the page either reaches the
    button or stops on an exception (a paper id that cannot be bound, a
    repeated widget key, a number input that cannot be shown); it has not
    written to the database and has not called the scorer. *)
Lemma run_page_before_button :
  (exists answers w',
     run_page repr_table (Some u) inp now d
     = from_button repr_table u inp now paper_id pp probs answers n w'
     /\ w_db w' = d /\ w_calls w' = []) \/
  (exists e w',
     run_page repr_table (Some u) inp now d = (Raise e, w')
     /\ w_db w' = d /\ w_calls w' = []).
Proof.
  unfold run_page, page_pupil_paper, require_auth.
  rewrite decide_True by exact Hrole. rewrite run_ret, run_st, Hinput, run_get_paper.
  destruct (sqlite_int paper_id); [| right; eexists _, _; repeat split; reflexivity].
  cbn [w_db add_out start]. rewrite Hpaper.
  rewrite !run_st, run_query. cbn [w_db add_out]. fold probs.
  rewrite run_warning.
  match goal with
  | |- context [(collect_answers inp ?show probs ∅ ≫= _) ?w0] =>
      pose proof (collect_answers_frame inp show probs ∅ w0) as (Hdb & Hcalls & Hret);
      destruct (collect_answers inp show probs ∅ w0) as [[answers | | e] w'] eqn:Hrun
  end; simpl in Hdb, Hcalls, Hret.
  - left. exists answers, w'. rewrite (run_val _ _ _ _ _ Hrun), run_query, Hdb.
    fold n. auto.
  - contradiction.
  - right. exists e, w'. unfold mbind at 1, page_bind at 1. rewrite Hrun. auto.
Qed.

(** C3: when the policy does not admit a new attempt, the page writes nothing
    to the database and calls neither the scorer nor [record_submission].  When
    the page gets as far as the button (the paper id can be bound, the
    problems to display are distinct and the widgets of each can be shown), it
    renders the message that names the limit after the prelude, and
    returns. *)
Theorem attempt_limit_exceeded :
  submit_paper inp = true ->
  (paper_mode pp = test1 /\ 1 <= n) \/ (paper_mode pp = test2 /\ 2 <= n) ->
  w_db (snd (run_page repr_table (Some u) inp now d)) = d /\
  w_calls (snd (run_page repr_table (Some u) inp now d)) = [] /\
  (sqlite_int paper_id = true ->
   NoDup (resolved_ids probs) ->
   Forall (fun p => fits p = true) (present probs) ->
   run_page repr_table (Some u) inp now d
   = (Return, add_out (start d)
                (prelude pp probs ++ [st_error (limit_message (paper_mode pp))]))).
Proof.
  intros Hsubmit Hlimit. apply may_attempt_false in Hlimit.
  split; [| split].
  - destruct run_page_before_button as [(answers & w' & -> & Hdb & _) | (e & w' & -> & Hdb & _)];
      [rewrite from_button_rejected by assumption |]; exact Hdb.
  - destruct run_page_before_button as [(answers & w' & -> & _ & Hc) | (e & w' & -> & _ & Hc)];
      [rewrite from_button_rejected by assumption |]; exact Hc.
  - intros Hint Hnodup Hfits. rewrite (run_page_to_button Hint Hnodup Hfits).
    rewrite from_button_rejected by assumption. rewrite add_out_app. reflexivity.
Qed.

Lemma displayed_app (es es' : list element) :
  displayed (es ++ es') = displayed es ++ displayed es'.
Proof. unfold displayed. apply omap_app. Qed.

Lemma displayed_problems (show : bool) (ps : list problem) :
  displayed (map (fun p => st_problem (p_id p) show) ps) = map p_id ps.
Proof.
  unfold displayed. induction ps as [| p ps IH]; simpl in *;
    [reflexivity | f_equal; exact IH].
Qed.

Lemma displayed_prelude (pp' : paper) (ps : list (option problem)) :
  displayed (prelude pp' ps) = resolved_ids ps.
Proof.
  unfold prelude. rewrite !displayed_app, displayed_problems, resolved_ids_present.
  destruct (missing_ids (problem_ids pp') ps); reflexivity.
Qed.

Lemma displayed_correctness_lines (ps : list (option problem)) (per : gmap pystr bool) :
  displayed (correctness_lines ps per) = [].
Proof. unfold correctness_lines, displayed. induction (present ps); simpl in *; auto. Qed.

Lemma displayed_reveal_lines (ps : list (option problem)) (per : gmap pystr bool) :
  displayed (reveal_lines ps per) = [].
Proof. unfold reveal_lines, displayed. induction (present ps); simpl in *; auto. Qed.

Lemma displayed_feedback (m : mode) (k : Z) (ps : list (option problem))
    (per : gmap pystr bool) :
  covers per ps -> displayed (snd (rendered (feedback m k ps per))) = [].
Proof.
  intros Hcov. destruct m.
  - rewrite (rendered_feedback_training k ps per Hcov).
    apply (displayed_correctness_lines ps per).
  - rewrite (rendered_feedback_single_attempt k ps per Hcov).
    apply (displayed_reveal_lines ps per).
  - destruct (Z.eq_dec k 1) as [-> | Hk].
    + rewrite (rendered_feedback_first_of_two ps per Hcov).
      destruct (wrong_list ps per); reflexivity.
    + rewrite (rendered_feedback_last_of_two k ps per Hcov Hk).
      apply (displayed_reveal_lines ps per).
Qed.

Lemma missing_ids_absent (d' : db) (ids : list pystr) (pid : pystr) :
  pid ∈ missing_ids ids (map (get_problem d') ids) -> get_problem d' pid = None.
Proof.
  induction ids as [| x ids IH]; simpl; [intros Hin; inversion Hin |].
  destruct (get_problem d' x) eqn:Hx; [exact IH |].
  intros Hin. apply elem_of_cons in Hin as [-> | Hin]; auto.
Qed.

Lemma resolved_ids_stored (d' : db) (ids : list pystr) (pid : pystr) :
  pid ∈ resolved_ids (map (get_problem d') ids) -> is_Some (get_problem d' pid).
Proof.
  unfold resolved_ids. induction ids as [| x ids IH]; simpl; [intros Hin; inversion Hin |].
  destruct (get_problem d' x) as [p |] eqn:Hx; simpl; [| exact IH].
  intros Hin. apply elem_of_cons in Hin as [Heq | Hin]; [| auto].
  assert (p_id p = x) as Hid.
  { unfold get_problem in Hx. destruct (problems d' !! x); [| discriminate].
    injection Hx as <-. reflexivity. }
  rewrite Heq, Hid, Hx. eexists. reflexivity.
Qed.

Lemma resolved_missing_length (d' : db) (ids : list pystr) :
  (length (resolved_ids (map (get_problem d') ids))
     = length ids - length (missing_ids ids (map (get_problem d') ids)))%nat /\
  (length (missing_ids ids (map (get_problem d') ids)) <= length ids)%nat.
Proof.
  unfold resolved_ids. induction ids as [| x ids IH]; simpl in *; [split; reflexivity |].
  destruct IH as [IH1 IH2]. destruct (get_problem d' x); simpl;
    change (list_omap (option problem) pystr ?f ?l) with (omap f l);
    split; lia.
Qed.

(** The run of an accepted submission. *)
Lemma run_page_accepted :
  sqlite_int paper_id = true ->
  NoDup (resolved_ids probs) ->
  Forall (fun p => fits p = true) (present probs) ->
  submit_paper inp = true ->
  may_attempt (paper_mode pp) n = true ->
  let sub := new_submission repr_table d u inp now paper_id pp in
  run_page repr_table (Some u) inp now d =
  (Val tt,
   {| w_db := {| problems := problems d; papers := papers d;
                 submissions := submissions d ++ [sub] |};
      w_out := prelude pp probs ++ st_score (s_score sub)
               :: snd (rendered (feedback (paper_mode pp) (n + 1) probs
                         (snd (auto_score repr_table d (resolved_ids probs)
                                 (answers_of inp probs ∅)))));
      w_calls := [call_auto_score (resolved_ids probs) (answers_of inp probs ∅);
                  call_record_submission sub] |}).
Proof.
  intros Hint Hnodup Hfits Hsubmit Hgate sub.
  rewrite (run_page_to_button Hint Hnodup Hfits).
  rewrite from_button_accepted by assumption.
  rewrite feedback_ends by apply auto_score_covers.
  reflexivity.
Qed.

(** C1, amended: a paper that references problems absent from storage is
    still submitted and scored, when the page gets as far as the button (the
    paper id can be bound, the existing problems are distinct and the widgets
    of each can be shown) and the policy admits the attempt.  The absent ids
    are named in a warning and are not displayed, and they are not passed to
    the scorer: with N referenced ids of which M are absent, the recorded
    percentage is 100 * correct / max(1, N - M). *)
Theorem missing_problems_left_out :
  sqlite_int paper_id = true ->
  NoDup (resolved_ids probs) ->
  Forall (fun p => fits p = true) (present probs) ->
  submit_paper inp = true ->
  may_attempt (paper_mode pp) n = true ->
  let missing := missing_ids (problem_ids pp) probs in
  let answers := answers_of inp probs ∅ in
  let sub := new_submission repr_table d u inp now paper_id pp in
  fst (run_page repr_table (Some u) inp now d) = Val tt /\
  (missing <> [] -> st_missing missing ∈ w_out (snd (run_page repr_table (Some u) inp now d))) /\
  displayed (w_out (snd (run_page repr_table (Some u) inp now d))) = resolved_ids probs /\
  (forall pid, pid ∈ missing ->
     get_problem d pid = None /\
     (pid ∉ displayed (w_out (snd (run_page repr_table (Some u) inp now d)))) /\
     (pid ∉ resolved_ids probs)) /\
  w_calls (snd (run_page repr_table (Some u) inp now d))
  = [call_auto_score (resolved_ids probs) answers; call_record_submission sub] /\
  submissions (w_db (snd (run_page repr_table (Some u) inp now d)))
  = submissions d ++ [sub] /\
  s_score sub
  = percentage
      (Z.of_nat (length (List.filter (verdict repr_table d answers) (resolved_ids probs))))
      (length (problem_ids pp) - length missing).
Proof.
  intros Hint Hnodup Hfits Hsubmit Hgate missing answers sub.
  rewrite (run_page_accepted Hint Hnodup Hfits Hsubmit Hgate).
  cbn [fst snd w_db w_out w_calls submissions].
  assert (Hshown : displayed
            (prelude pp probs ++ st_score (s_score (new_submission repr_table d u inp now paper_id pp))
             :: snd (rendered (feedback (paper_mode pp) (n + 1) probs
                       (snd (auto_score repr_table d (resolved_ids probs)
                               (answers_of inp probs ∅))))))
          = resolved_ids probs).
  { rewrite displayed_app, displayed_prelude.
    change (displayed (st_score ?q :: ?l)) with (displayed l).
    rewrite displayed_feedback by apply auto_score_covers. apply app_nil_r. }
  assert (Hout : forall pid, pid ∈ missing -> pid ∉ resolved_ids probs).
  { intros pid Hin Hres. apply missing_ids_absent in Hin.
    apply resolved_ids_stored in Hres as [p Hp]. congruence. }
  repeat split.
  - intros Hmissing. unfold prelude. fold missing.
    apply elem_of_app. left. apply elem_of_app. right. apply elem_of_app. left.
    destruct missing; [contradiction | left].
  - exact Hshown.
  - apply (missing_ids_absent d (problem_ids pp)). assumption.
  - rewrite Hshown. apply Hout. assumption.
  - apply Hout. assumption.
  - subst sub. unfold new_submission. cbn [s_score]. fold probs. fold answers.
    rewrite auto_score_percentage. f_equal.
    exact (proj1 (resolved_missing_length d (problem_ids pp))).
Qed.

End Page.

(** * The attempt policy *)

(** C2: [attempts_remaining] gives no bound in training mode and
    [max(0, limit - attempts_so_far)] with limit 1 in test1 and 2 in test2.
    The gate of the page (lines 555-559) admits a submit in training mode
    whatever the number [n] of attempts made, in test1 iff [n < 1] and in
    test2 iff [n < 2]: when a pupil's submit reaches the gate with [n]
    attempts made, an admitted submit is scored and recorded, and any other
    gets the message that names the limit and the run returns with nothing
    written. *)
Theorem attempt_policy (n : Z) :
  (may_attempt training n = true /\ attempts_remaining training n = None) /\
  (may_attempt test1 n = (n <? 1) /\ attempts_remaining test1 n = Some (Z.max 0 (1 - n))) /\
  (may_attempt test2 n = (n <? 2) /\ attempts_remaining test2 n = Some (Z.max 0 (2 - n))) /\
  may_attempt test1 0 = true /\ may_attempt test1 1 = false /\
  attempts_remaining test2 1 = Some 1 /\ attempts_remaining test2 2 = Some 0 /\
  (forall (repr_table : list (list pystr) -> pystr) (u : user) (inp : widgets)
          (now : pystr) (d : db) (paper_id : Z) (pp : paper),
     u_role u = pupil ->
     paper_id_input inp = paper_number paper_id ->
     sqlite_int paper_id = true ->
     get_paper d paper_id = Some pp ->
     NoDup (resolved_ids (map (get_problem d) (problem_ids pp))) ->
     Forall (fun p => fits p = true) (present (map (get_problem d) (problem_ids pp))) ->
     submit_paper inp = true ->
     get_attempt_count d paper_id (u_id u) = n ->
     if match paper_mode pp with
        | training => true
        | test1 => n <? 1
        | test2 => n <? 2
        end
     then
       fst (run_page repr_table (Some u) inp now d) = Val tt /\
       submissions (w_db (snd (run_page repr_table (Some u) inp now d)))
       = submissions d ++ [new_submission repr_table d u inp now paper_id pp]
     else
       run_page repr_table (Some u) inp now d
       = (Return,
          add_out (start d)
            (prelude pp (map (get_problem d) (problem_ids pp))
             ++ [st_error (limit_message (paper_mode pp))]))).
Proof.
  assert (Htest1 : may_attempt test1 n = (n <? 1)).
  { unfold may_attempt. simpl. rewrite andb_true_r.
    destruct (Z.leb_spec 1 n), (Z.ltb_spec n 1); try reflexivity; lia. }
  assert (Htest2 : may_attempt test2 n = (n <? 2)).
  { unfold may_attempt. simpl.
    destruct (Z.leb_spec 2 n), (Z.ltb_spec n 2); try reflexivity; lia. }
  repeat split; try reflexivity; try assumption.
  intros repr_table u inp now d paper_id pp Hrole Hinput Hint Hpaper Hnodup Hfits Hsubmit Hn.
  assert (Hgate : match paper_mode pp with
                  | training => true
                  | test1 => n <? 1
                  | test2 => n <? 2
                  end = may_attempt (paper_mode pp) n).
  { destruct (paper_mode pp); [reflexivity | symmetry; exact Htest1 | symmetry; exact Htest2]. }
  rewrite Hgate. subst n.
  destruct (may_attempt (paper_mode pp) (get_attempt_count d paper_id (u_id u))) eqn:Hmay.
  - rewrite (run_page_accepted repr_table u inp now d paper_id pp Hrole Hinput Hpaper
               Hint Hnodup Hfits Hsubmit Hmay).
    split; reflexivity.
  - rewrite (run_page_to_button repr_table u inp now d paper_id pp Hrole Hinput Hpaper
               Hint Hnodup Hfits).
    rewrite from_button_rejected by assumption. rewrite add_out_app. reflexivity.
Qed.

Lemma attempt_policy_sample :
  fst (run_page repr_plain (Some alice) sample_submit sample_now sample_db) = Val tt /\
  run_page repr_plain (Some alice) sample_submit sample_now sample_db_after
  = (Return,
     add_out (start sample_db_after)
       (prelude (sample_paper [lit "P1"; lit "P9"] test1)
          (map (get_problem sample_db_after) [lit "P1"; lit "P9"])
        ++ [st_error "Test mode-1 allows only one attempt."])).
Proof.
  assert (Hnodup : NoDup (resolved_ids (map (get_problem sample_db)
                    (problem_ids (sample_paper [lit "P1"; lit "P9"] test1))))).
  { vm_compute. apply NoDup_singleton. }
  assert (Hfits : Forall (fun p => fits p = true)
                    (present (map (get_problem sample_db)
                       (problem_ids (sample_paper [lit "P1"; lit "P9"] test1))))).
  { vm_compute. repeat constructor. }
  pose proof (attempt_policy 0) as (_ & _ & _ & _ & _ & _ & _ & Hnone).
  pose proof (attempt_policy 1) as (_ & _ & _ & _ & _ & _ & _ & Hone).
  split.
  - exact (proj1 (Hnone repr_plain alice sample_submit sample_now sample_db 1
                    (sample_paper [lit "P1"; lit "P9"] test1)
                    eq_refl eq_refl eq_refl eq_refl Hnodup Hfits eq_refl eq_refl)).
  - exact (Hone repr_plain alice sample_submit sample_now sample_db_after 1
             (sample_paper [lit "P1"; lit "P9"] test1)
             eq_refl eq_refl eq_refl eq_refl Hnodup Hfits eq_refl eq_refl).
Defined.

(** C1, as stated, fails on paper 1 of the sample data: it references two
    ids, the second of which is not stored; Alice answers the first one
    correctly and the score written is 100 * 1 / 1, not 100 * 1 / 2. *)
Lemma missing_problem_out_of_denominator :
  get_paper sample_db 1 = Some (sample_paper [lit "P1"; lit "P9"] test1) /\
  get_problem sample_db (lit "P9") = None /\
  fst (run_page repr_plain (Some alice) sample_submit sample_now sample_db) = Val tt /\
  map s_score (submissions sample_db_after) = [percentage 1 1] /\
  ~ (percentage 1 1 == percentage 1 2)%Q.
Proof.
  repeat split; try (vm_compute; reflexivity).
  intros Heq. vm_compute in Heq. discriminate Heq.
Qed.

Lemma missing_problems_left_out_sample :
  fst (run_page repr_plain (Some alice) sample_submit sample_now sample_db) = Val tt /\
  displayed (w_out (snd (run_page repr_plain (Some alice) sample_submit sample_now
                           sample_db)))
  = resolved_ids (map (get_problem sample_db) [lit "P1"; lit "P9"]).
Proof.
  pose proof (missing_problems_left_out repr_plain alice sample_submit sample_now
                sample_db 1 (sample_paper [lit "P1"; lit "P9"] test1)
                eq_refl eq_refl eq_refl eq_refl) as H.
  cbv zeta in H.
  assert (Hnodup : NoDup (resolved_ids (map (get_problem sample_db)
                    (problem_ids (sample_paper [lit "P1"; lit "P9"] test1))))).
  { vm_compute. apply NoDup_singleton. }
  assert (Hfits : Forall (fun p => fits p = true)
                    (present (map (get_problem sample_db)
                       (problem_ids (sample_paper [lit "P1"; lit "P9"] test1))))).
  { vm_compute. repeat constructor. }
  specialize (H Hnodup Hfits eq_refl eq_refl).
  destruct H as (Hends & _ & Hshown & _).
  split; [exact Hends | exact Hshown].
Defined.

Lemma attempt_limit_exceeded_sample :
  w_db (snd (run_page repr_plain (Some alice) sample_submit sample_now sample_db_after))
  = sample_db_after /\
  w_calls (snd (run_page repr_plain (Some alice) sample_submit sample_now sample_db_after))
  = [].
Proof.
  assert (Hpaper : get_paper sample_db_after 1
                   = Some (sample_paper [lit "P1"; lit "P9"] test1))
    by (vm_compute; reflexivity).
  assert (Hlimit : (paper_mode (sample_paper [lit "P1"; lit "P9"] test1) = test1 /\
                    1 <= get_attempt_count sample_db_after 1 (u_id alice)) \/
                   (paper_mode (sample_paper [lit "P1"; lit "P9"] test1) = test2 /\
                    2 <= get_attempt_count sample_db_after 1 (u_id alice))).
  { left. split; [reflexivity |]. vm_compute. discriminate. }
  pose proof (attempt_limit_exceeded repr_plain alice sample_submit sample_now
                sample_db_after 1 (sample_paper [lit "P1"; lit "P9"] test1)
                eq_refl eq_refl Hpaper eq_refl Hlimit) as (Hdb & Hcalls & _).
  split; [exact Hdb | exact Hcalls].
Defined.

Lemma feedback_disclosure_sample :
  covers sample_per_problem sample_probs /\
  rendered (feedback training 2 sample_probs sample_per_problem)
  = (Val tt,
     st_info "Training mode: see per-problem correctness below. You can try again anytime."
     :: map (fun pid => st_result pid (flag sample_per_problem pid))
          (resolved_ids sample_probs)).
Proof.
  assert (Hcov : covers sample_per_problem sample_probs).
  { intros p Hp. unfold sample_probs, present in Hp. simpl in Hp.
    apply list_elem_of_singleton in Hp as ->. eexists. reflexivity. }
  split; [exact Hcov |].
  exact (proj1 (proj2 (feedback_disclosure 2 sample_probs sample_per_problem Hcov))).
Defined.

(** * Attempt numbers *)

Section AttemptNumbers.

Variable repr_table : list (list pystr) -> pystr.


Lemma get_attempt_count_record (d : db) (paper_id pupil_id paper_id' pupil_id' : Z)
    (answers : gmap pystr answer) (score : Q) (k : Z) (now : pystr) :
  get_attempt_count (record_submission d paper_id pupil_id answers score k now)
    paper_id' pupil_id'
  = get_attempt_count d paper_id' pupil_id'
    + (if bool_decide (paper_id = paper_id') && bool_decide (pupil_id = pupil_id')
       then 1 else 0).
Proof.
  unfold get_attempt_count, record_submission, of_pair. simpl.
  rewrite List.filter_app, length_app. simpl.
  destruct (bool_decide (paper_id = paper_id') && bool_decide (pupil_id = pupil_id'));
    simpl; lia.
Qed.






End AttemptNumbers.



(** * Storage *)

Section Storage.

Lemma get_paper_lookup (d : db) (paper_id : Z) :
  1 <= paper_id -> get_paper d paper_id = papers d !! Z.to_nat (paper_id - 1).
Proof.
  intros Hid. unfold get_paper. rewrite (proj2 (Z.ltb_ge paper_id 1)) by lia. reflexivity.
Qed.

Lemma get_paper_low (d : db) (paper_id : Z) : paper_id < 1 -> get_paper d paper_id = None.
Proof.
  intros Hid. unfold get_paper. rewrite (proj2 (Z.ltb_lt paper_id 1)) by lia. reflexivity.
Qed.

Lemma get_paper_range_aux (d : db) (paper_id : Z) :
  is_Some (get_paper d paper_id) -> 1 <= paper_id <= Z.of_nat (length (papers d)).
Proof.
  destruct (Z.lt_ge_cases paper_id 1) as [Hlow | Hok].
  - rewrite get_paper_low by exact Hlow. intros [pp Hpp]. discriminate.
  - rewrite get_paper_lookup by exact Hok. rewrite lookup_lt_is_Some. lia.
Qed.

(** X1: the call [get_paper(paper_id)] raises OverflowError for an id outside
    the signed 64-bit integers, which sqlite3 cannot bind; for any other id it
    returns the row, and there is a row exactly for the ids from 1 to the
    number of papers created so far: 0, negative ids and ids beyond the last
    paper give [None].  The call changes nothing. *)
Theorem get_paper_range (paper_id : Z) (w : world) :
  call_get_paper paper_id w
  = (if sqlite_int paper_id then Val (get_paper (w_db w) paper_id) else Raise OverflowError,
     w) /\
  (sqlite_int paper_id = true <-> - 2 ^ 63 <= paper_id < 2 ^ 63) /\
  (is_Some (get_paper (w_db w) paper_id)
   <-> 1 <= paper_id <= Z.of_nat (length (papers (w_db w)))).
Proof.
  split; [| split].
  - unfold call_get_paper, bind_int. destruct (sqlite_int paper_id); reflexivity.
  - unfold sqlite_int. rewrite andb_true_iff, Z.leb_le, Z.ltb_lt. reflexivity.
  - destruct (Z.lt_ge_cases paper_id 1) as [Hlow | Hok].
    + rewrite get_paper_low by exact Hlow. split; [intros [pp Hpp]; discriminate | lia].
    + rewrite get_paper_lookup by exact Hok. rewrite lookup_lt_is_Some. lia.
Qed.

(** X2: [create_paper] returns the number of papers plus one, an id that was
    free; [get_paper] on that id gives back what was passed in, every other id
    resolves as before, and problems and submissions are untouched. *)
Theorem create_paper_get_paper (d : db) (teacher_id : Z) (now t : pystr)
    (ids : list pystr) (m : mode) (show_ids : bool) :
  let d' := fst (create_paper d teacher_id now t ids m show_ids) in
  let pid := snd (create_paper d teacher_id now t ids m show_ids) in
  pid = Z.of_nat (length (papers d)) + 1 /\
  get_paper d pid = None /\
  get_paper d' pid
  = Some {| title := t; problem_ids := ids; paper_mode := m;
            show_problem_ids := show_ids; created_by := Some teacher_id;
            created_at := now |} /\
  (forall paper_id, paper_id <> pid -> get_paper d' paper_id = get_paper d paper_id) /\
  problems d' = problems d /\ submissions d' = submissions d.
Proof.
  simpl. repeat split.
  - rewrite get_paper_lookup by lia. apply lookup_ge_None. lia.
  - rewrite get_paper_lookup by lia. simpl.
    replace (Z.to_nat (Z.of_nat (length (papers d)) + 1 - 1)) with (length (papers d)) by lia.
    rewrite lookup_app_r by lia. rewrite Nat.sub_diag. reflexivity.
  - intros paper_id Hne. destruct (Z.lt_ge_cases paper_id 1) as [Hlow | Hok].
    + rewrite !get_paper_low by exact Hlow. reflexivity.
    + rewrite !get_paper_lookup by exact Hok. simpl.
      destruct (Nat.lt_ge_cases (Z.to_nat (paper_id - 1)) (length (papers d))) as [Hin | Hout].
      * apply lookup_app_l. exact Hin.
      * rewrite (lookup_ge_None_2 (papers d)) by exact Hout.
        apply lookup_ge_None. rewrite length_app. simpl. lia.
Qed.

(** X3: [save_problem] then [get_problem] on the same id gives back the
    content, type and key that were saved; every other id resolves as before;
    a problem that had a creator keeps it whoever saves; papers and
    submissions are untouched. *)
Theorem save_problem_get_problem (d : db) (teacher_id : Z) (now pid content : pystr)
    (ty : answer_type) (ans : answer) :
  let d' := save_problem d teacher_id now pid content ty ans in
  get_problem d' pid
  = Some {| p_id := pid; p_content := content; p_answer_type := ty; p_answer := ans;
            p_updated_at := now |} /\
  (forall pid', pid' <> pid -> get_problem d' pid' = get_problem d pid') /\
  (forall old creator,
     problems d !! pid = Some old -> pr_created_by old = Some creator ->
     pr_created_by <$> problems d' !! pid = Some (Some creator)) /\
  (problems d !! pid = None ->
   pr_created_by <$> problems d' !! pid = Some (Some teacher_id)) /\
  papers d' = papers d /\ submissions d' = submissions d.
Proof.
  simpl. unfold get_problem, save_problem. simpl. repeat split.
  - rewrite lookup_insert_eq. reflexivity.
  - intros pid' Hne. rewrite lookup_insert_ne by congruence. reflexivity.
  - intros old creator Hold Hcreator. rewrite lookup_insert_eq, Hold, Hcreator. reflexivity.
  - intros Hnew. rewrite lookup_insert_eq, Hnew. reflexivity.
Qed.

(** X4: [record_submission] raises [get_attempt_count] by one for the
    (paper, pupil) pair it is called with and leaves the count of every other
    pair, the problems and the papers as they were. *)
Theorem record_submission_count (d : db) (paper_id pupil_id : Z)
    (answers : gmap pystr answer) (score : Q) (attempt_no : Z) (now : pystr) :
  let d' := record_submission d paper_id pupil_id answers score attempt_no now in
  get_attempt_count d' paper_id pupil_id = get_attempt_count d paper_id pupil_id + 1 /\
  (forall paper_id' pupil_id',
     (paper_id', pupil_id') <> (paper_id, pupil_id) ->
     get_attempt_count d' paper_id' pupil_id' = get_attempt_count d paper_id' pupil_id') /\
  (forall paper_id', get_paper d' paper_id' = get_paper d paper_id') /\
  (forall pid, get_problem d' pid = get_problem d pid).
Proof.
  simpl. repeat split.
  - rewrite get_attempt_count_record, !bool_decide_eq_true_2 by reflexivity. reflexivity.
  - intros paper_id' pupil_id' Hne. rewrite get_attempt_count_record.
    destruct (bool_decide (paper_id = paper_id') && bool_decide (pupil_id = pupil_id'))
      eqn:Hpair; [| lia].
    apply andb_prop in Hpair as [<-%bool_decide_eq_true <-%bool_decide_eq_true].
    contradiction.
Qed.

End Storage.

(** * What a run of the page can do *)

Section Effects.

Variable repr_table : list (list pystr) -> pystr.

(** A run of the page either leaves the database alone and calls neither the
    scorer nor [record_submission], or it is the run of a signed-in pupil who
    pressed the button on an existing paper that the policy admits, and then
    it records the scorer's percentage under the next attempt number. *)
Lemma run_page_effects (session_user : option user) (inp : widgets) (now : pystr) (d : db) :
  (w_db (snd (run_page repr_table session_user inp now d)) = d /\
   w_calls (snd (run_page repr_table session_user inp now d)) = []) \/
  (exists u paper_id pp ids answers,
     session_user = Some u /\ u_role u = pupil /\
     paper_id_input inp = paper_number paper_id /\
     get_paper d paper_id = Some pp /\
     submit_paper inp = true /\
     may_attempt (paper_mode pp) (get_attempt_count d paper_id (u_id u)) = true /\
     w_db (snd (run_page repr_table session_user inp now d))
     = record_submission d paper_id (u_id u) answers
         (fst (auto_score repr_table d ids answers))
         (get_attempt_count d paper_id (u_id u) + 1) now).
Proof.
  destruct session_user as [u |]; [| left; split; reflexivity].
  destruct (decide (u_role u = pupil)) as [Hrole | Hrole].
  2:{ left. unfold run_page, page_pupil_paper, require_auth.
      rewrite decide_False by exact Hrole. split; reflexivity. }
  destruct (paper_id_input inp) as [| | paper_id] eqn:Hinput.
  1,2: left; unfold run_page, page_pupil_paper, require_auth;
       rewrite decide_True by exact Hrole; rewrite run_ret, run_st, Hinput;
       split; reflexivity.
  destruct (get_paper d paper_id) as [pp |] eqn:Hpaper.
  2:{ left. unfold run_page, page_pupil_paper, require_auth.
      rewrite decide_True by exact Hrole. rewrite run_ret, run_st, Hinput, run_get_paper.
      destruct (sqlite_int paper_id); [| split; reflexivity].
      cbn [w_db add_out start]. rewrite Hpaper. split; reflexivity. }
  destruct (run_page_before_button repr_table u inp now d paper_id pp Hrole Hinput Hpaper)
    as [(answers & w' & -> & Hdb & Hcalls) | (e & w' & -> & Hdb & Hcalls)];
    [| left; split; assumption].
  destruct (submit_paper inp) eqn:Hsubmit.
  2:{ left. unfold from_button. rewrite Hsubmit. split; assumption. }
  destruct (may_attempt (paper_mode pp) (get_attempt_count d paper_id (u_id u))) eqn:Hgate.
  - right. exists u, paper_id, pp. eexists _, answers.
    repeat (split; [first [reflexivity | assumption] |]).
    rewrite from_button_accepted by assumption. cbn [snd w_db]. rewrite Hdb. reflexivity.
  - left. rewrite from_button_rejected by assumption. split; assumption.
Qed.

(** X5: only a pupil can submit: when nobody is signed in, or the user signed
    in is not a pupil, the page returns with the database unchanged, without a
    call to the scorer or to [record_submission], whatever the widgets hold. *)
Theorem page_pupil_paper_pupils_only (session_user : option user) (inp : widgets)
    (now : pystr) (d : db) :
  (forall u, session_user = Some u -> u_role u <> pupil) ->
  fst (run_page repr_table session_user inp now d) = Return /\
  w_db (snd (run_page repr_table session_user inp now d)) = d /\
  w_calls (snd (run_page repr_table session_user inp now d)) = [] /\
  length (w_out (snd (run_page repr_table session_user inp now d))) = 1%nat.
Proof.
  intros Hnot. destruct session_user as [u |]; [| repeat split].
  unfold run_page, page_pupil_paper, require_auth.
  rewrite decide_False by (apply Hnot; reflexivity). repeat split.
Qed.

(** X6: without the "Submit Paper" button pressed the page writes nothing and
    scores nothing, whoever is signed in and whatever the paper. *)
Theorem page_pupil_paper_reads_only (session_user : option user) (inp : widgets)
    (now : pystr) (d : db) :
  submit_paper inp = false ->
  w_db (snd (run_page repr_table session_user inp now d)) = d /\
  w_calls (snd (run_page repr_table session_user inp now d)) = [].
Proof.
  intros Hsubmit.
  destruct (run_page_effects session_user inp now d)
    as [Hsame | (u & paper_id & pp & ids & answers & _ & _ & _ & _ & Hpressed & _)];
    [exact Hsame | congruence].
Qed.

(** X7: a paper id within the signed 64-bit integers that does not exist
    gives the message "Paper not found." and nothing else happens: no problem
    is displayed, nothing is written.  A paper id outside the signed 64-bit
    integers ends the run in OverflowError after the header, with nothing
    written either. *)
Theorem page_pupil_paper_not_found (u : user) (inp : widgets) (now : pystr) (d : db)
    (paper_id : Z) :
  u_role u = pupil ->
  paper_id_input inp = paper_number paper_id ->
  (sqlite_int paper_id = true ->
   get_paper d paper_id = None ->
   run_page repr_table (Some u) inp now d
   = (Return, add_out (start d) [st_header "Take a Paper"; st_error "Paper not found."])) /\
  (sqlite_int paper_id = false ->
   run_page repr_table (Some u) inp now d
   = (Raise OverflowError, add_out (start d) [st_header "Take a Paper"])).
Proof.
  intros Hrole Hinput. split.
  - intros Hint Hpaper. unfold run_page, page_pupil_paper, require_auth.
    rewrite decide_True by exact Hrole. rewrite run_ret, run_st, Hinput, run_get_paper, Hint.
    cbn [w_db add_out start]. rewrite Hpaper. reflexivity.
  - intros Hint. unfold run_page, page_pupil_paper, require_auth.
    rewrite decide_True by exact Hrole. rewrite run_ret, run_st, Hinput, run_get_paper, Hint.
    reflexivity.
Qed.

Lemma may_attempt_limit (m : mode) (k : Z) :
  may_attempt m k = true ->
  match attempt_limit m with Some limit => k + 1 <= limit | None => True end.
Proof.
  unfold may_attempt. destruct m; simpl; [trivial | |];
    destruct (Z.leb_spec 1 k), (Z.leb_spec 2 k); simpl; intros Hgate;
    try discriminate Hgate; lia.
Qed.

Lemma create_paper_get_paper_fresh (d : db) (teacher_id : Z) (now t : pystr)
    (ids : list pystr) (m : mode) (show_ids : bool) :
  get_paper d (Z.of_nat (length (papers d)) + 1) = None /\
  get_paper (fst (create_paper d teacher_id now t ids m show_ids))
    (Z.of_nat (length (papers d)) + 1)
  = Some {| title := t; problem_ids := ids; paper_mode := m;
            show_problem_ids := show_ids; created_by := Some teacher_id;
            created_at := now |} /\
  (forall paper_id, paper_id <> Z.of_nat (length (papers d)) + 1 ->
     get_paper (fst (create_paper d teacher_id now t ids m show_ids)) paper_id
     = get_paper d paper_id).
Proof.
  simpl. repeat split.
  - rewrite get_paper_lookup by lia. apply lookup_ge_None. lia.
  - rewrite get_paper_lookup by lia. simpl.
    replace (Z.to_nat (Z.of_nat (length (papers d)) + 1 - 1)) with (length (papers d)) by lia.
    rewrite lookup_app_r by lia. rewrite Nat.sub_diag. reflexivity.
  - intros paper_id Hne. destruct (Z.lt_ge_cases paper_id 1) as [Hlow | Hok].
    + rewrite !get_paper_low by exact Hlow. reflexivity.
    + rewrite !get_paper_lookup by exact Hok. simpl.
      destruct (Nat.lt_ge_cases (Z.to_nat (paper_id - 1)) (length (papers d))) as [Hin | Hout].
      * apply lookup_app_l. exact Hin.
      * rewrite (lookup_ge_None_2 (papers d)) by exact Hout.
        apply lookup_ge_None. rewrite length_app. simpl. lia.
Qed.

Lemma within_limits_apply_event (d : db) (e : event) :
  within_limits d -> within_limits (apply_event repr_table d e).
Proof.
  intros Hd. destruct e as [? ? ? ? ? ? | teacher_id now t ids m show_ids
                            | session_user inp now]; unfold apply_event.
  - exact Hd.
  - intros paper_id pupil_id. specialize (Hd paper_id pupil_id).
    pose proof (create_paper_get_paper_fresh d teacher_id now t ids m show_ids)
      as (Hfresh & Hnew & Hold).
    destruct (Z.eq_dec paper_id (Z.of_nat (length (papers d)) + 1)) as [-> | Hne].
    + rewrite Hnew. rewrite Hfresh in Hd. simpl.
      change (get_attempt_count _ ?p ?q) with (get_attempt_count d p q).
      rewrite Hd. destruct m; simpl; [trivial | lia | lia].
    + rewrite (Hold paper_id Hne). exact Hd.
  - destruct (run_page_effects session_user inp now d)
      as [[-> _] | (u & paper_id & pp & ids & answers & _ & _ & _ & Hpaper & _ & Hgate & ->)];
      [exact Hd |].
    intros paper_id' pupil_id'. specialize (Hd paper_id' pupil_id').
    change (get_paper (record_submission d _ _ _ _ _ _) paper_id')
      with (get_paper d paper_id').
    rewrite get_attempt_count_record.
    destruct (bool_decide (paper_id = paper_id') && bool_decide (u_id u = pupil_id'))
      eqn:Hpair.
    + apply andb_prop in Hpair as [<-%bool_decide_eq_true <-%bool_decide_eq_true].
      rewrite Hpaper. apply may_attempt_limit in Hgate.
      destruct (attempt_limit (paper_mode pp)); [exact Hgate | trivial].
    + rewrite Z.add_0_r. exact Hd.
Qed.

End Effects.

(** * Limits, counts and scores *)

Section Limits.

Variable repr_table : list (list pystr) -> pystr.

(** X8: the attempt limits hold in every database the application can reach
    from the empty tables, events taken one after the other: no pupil ever has
    more than one submission on a test1 paper or more than two on a test2
    paper, and no submission is written for a paper id that does not exist. *)
Theorem attempt_limits_kept (events : list event) (paper_id pupil_id : Z) :
  match get_paper (replay repr_table events) paper_id with
  | Some pp =>
      match attempt_limit (paper_mode pp) with
      | Some limit => get_attempt_count (replay repr_table events) paper_id pupil_id <= limit
      | None => True
      end
  | None => get_attempt_count (replay repr_table events) paper_id pupil_id = 0
  end.
Proof.
  assert (Hall : forall d, within_limits d ->
                   within_limits (fold_left (apply_event repr_table) events d)).
  { induction events as [| e rest IH]; intros d Hd; simpl; [exact Hd |].
    apply IH, within_limits_apply_event, Hd. }
  apply (Hall empty_db). intros p q.
  destruct (get_paper empty_db p) as [pp |] eqn:Hpp; [| reflexivity].
  assert (is_Some (get_paper empty_db p)) as Hsome by (rewrite Hpp; eauto).
  apply get_paper_range_aux in Hsome. simpl in Hsome. lia.
Qed.

Lemma counts_lookup (subs : list submission) (pupil_id paper_id : Z) :
  fold_left
    (fun counts s =>
       if bool_decide (s_pupil_id s = pupil_id)
       then <[s_paper_id s := default 0 (counts !! s_paper_id s) + 1]> counts
       else counts)
    subs (∅ : gmap Z Z) !! paper_id
  = if decide (length (List.filter (of_pair paper_id pupil_id) subs) = 0%nat)
    then None
    else Some (Z.of_nat (length (List.filter (of_pair paper_id pupil_id) subs))).
Proof.
  induction subs as [| s subs IH] using rev_ind; [reflexivity |].
  rewrite fold_left_app, List.filter_app, length_app. cbn [fold_left List.filter].
  set (old := fold_left _ subs ∅) in *.
  set (k := length (List.filter (of_pair paper_id pupil_id) subs)) in *.
  clearbody old k. unfold of_pair.
  destruct (decide (s_pupil_id s = pupil_id)) as [Hpupil | Hpupil].
  - rewrite !(bool_decide_eq_true_2 _ Hpupil), andb_true_r.
    destruct (decide (s_paper_id s = paper_id)) as [Hpaper | Hpaper].
    + rewrite (bool_decide_eq_true_2 _ Hpaper). rewrite Hpaper, lookup_insert_eq, IH.
      cbn [length].
      destruct (decide (k = 0%nat)) as [-> | _]; simpl;
        [| rewrite decide_False by lia]; f_equal; lia.
    + rewrite (bool_decide_eq_false_2 _ Hpaper).
      rewrite lookup_insert_ne by exact Hpaper. rewrite IH.
      cbn [length]. rewrite Nat.add_0_r. reflexivity.
  - rewrite !(bool_decide_eq_false_2 _ Hpupil), andb_false_r, IH.
    cbn [length]. rewrite Nat.add_0_r. reflexivity.
Qed.

(** X9: the per-paper counts of the home page agree with the count the paper
    page reads: [counts.get(paper_id, 0)] is [get_attempt_count(paper_id,
    pupil_id)], and a paper is a key of the dict iff the pupil has submitted it
    at least once. *)
Theorem get_attempt_counts_by_paper_agrees (d : db) (pupil_id paper_id : Z) :
  default 0 (get_attempt_counts_by_paper d pupil_id !! paper_id)
  = get_attempt_count d paper_id pupil_id /\
  (is_Some (get_attempt_counts_by_paper d pupil_id !! paper_id)
   <-> 1 <= get_attempt_count d paper_id pupil_id).
Proof.
  unfold get_attempt_counts_by_paper, get_attempt_count. rewrite counts_lookup.
  destruct (decide (length (List.filter (of_pair paper_id pupil_id) (submissions d)) = 0%nat))
    as [-> | Hne]; simpl.
  - split; [reflexivity |]. split; [intros [? ?]; discriminate | lia].
  - split; [reflexivity |]. split; [lia | eauto].
Qed.

(** X10: the "Attempts left" cell of the home page and the gate of the paper
    page agree: the cell shows 0 exactly when a submit on that paper would be
    refused, and it shows no number (unlimited) exactly for training papers. *)
Theorem attempts_left_matches_gate (d : db) (pupil_id paper_id : Z) (m : mode) :
  (attempts_left d pupil_id paper_id m = Some 0
   <-> may_attempt m (get_attempt_count d paper_id pupil_id) = false) /\
  (attempts_left d pupil_id paper_id m = None <-> m = training).
Proof.
  unfold attempts_left, get_attempt_counts_by_paper, get_attempt_count.
  rewrite counts_lookup.
  set (k := length (List.filter (of_pair paper_id pupil_id) (submissions d))).
  assert (Hk : default 0 (if decide (k = 0%nat) then None else Some (Z.of_nat k))
               = Z.of_nat k).
  { destruct (decide (k = 0%nat)) as [-> | _]; reflexivity. }
  rewrite Hk. unfold attempts_remaining, may_attempt.
  destruct m; simpl; split; split; try discriminate; try reflexivity;
    destruct (Z.leb_spec 1 (Z.of_nat k)), (Z.leb_spec 2 (Z.of_nat k)); simpl;
    intros Hx; try discriminate Hx; try reflexivity;
    try (injection Hx as Hx); try (f_equal); lia.
Qed.

Lemma percentage_bounds (c : Z) (n : nat) :
  0 <= c <= Z.of_nat n -> (0 <= percentage c n)%Q /\ (percentage c n <= 100)%Q.
Proof.
  intros Hc. unfold percentage, Qle. simpl.
  assert (Hden : Zpos (Pos.of_nat (Nat.max 1 n)) = Z.max 1 (Z.of_nat n)).
  { destruct n as [| n]; [reflexivity |]. change (Nat.max 1 (S n)) with (S n). lia. }
  rewrite Hden. split; lia.
Qed.

Lemma auto_score_bounds_aux (d : db) (ids : list pystr) (answers : gmap pystr answer) :
  (0 <= fst (auto_score repr_table d ids answers))%Q /\
  (fst (auto_score repr_table d ids answers) <= 100)%Q.
Proof.
  rewrite auto_score_percentage. apply percentage_bounds.
  split; [lia |]. apply inj_le, List.filter_length_le.
Qed.

(** X11: the scorer's percentage lies between 0 and 100 for every list of ids,
    store and answers, and its [results] has exactly the ids of the list as
    keys. *)
Theorem auto_score_range (d : db) (ids : list pystr) (answers : gmap pystr answer) :
  (0 <= fst (auto_score repr_table d ids answers))%Q /\
  (fst (auto_score repr_table d ids answers) <= 100)%Q /\
  forall pid, is_Some (snd (auto_score repr_table d ids answers) !! pid) <-> pid ∈ ids.
Proof.
  destruct (auto_score_bounds_aux d ids answers) as [Hlow Hhigh].
  repeat split; try assumption.
  - rewrite auto_score_results. destruct (decide (pid ∈ ids)); [auto |].
    intros [? ?]; discriminate.
  - intros Hin. rewrite auto_score_results, decide_True by exact Hin. eauto.
Qed.

(** X12: every score the application stores is a percentage between 0 and
    100, and every stored attempt number is at least 1. *)
Theorem stored_scores_are_percentages (events : list event) :
  Forall (fun s => (0 <= s_score s)%Q /\ (s_score s <= 100)%Q /\ 1 <= s_attempt_no s)
    (submissions (replay repr_table events)).
Proof.
  assert (Hall : forall d,
            Forall (fun s => (0 <= s_score s)%Q /\ (s_score s <= 100)%Q /\ 1 <= s_attempt_no s)
              (submissions d) ->
            Forall (fun s => (0 <= s_score s)%Q /\ (s_score s <= 100)%Q /\ 1 <= s_attempt_no s)
              (submissions (fold_left (apply_event repr_table) events d))).
  { induction events as [| e rest IH]; intros d Hd; simpl; [exact Hd |].
    apply IH. destruct e as [? ? ? ? ? ? | ? ? ? ? ? ? | session_user inp now];
      unfold apply_event; [exact Hd | exact Hd |].
    destruct (run_page_effects repr_table session_user inp now d)
      as [[-> _] | (u & paper_id & pp & ids & answers & _ & _ & _ & _ & _ & _ & ->)];
      [exact Hd |].
    simpl. apply Forall_app. split; [exact Hd |]. constructor; [| constructor].
    simpl. destruct (auto_score_bounds_aux d ids answers) as [Hlow Hhigh].
    repeat split; try assumption. unfold get_attempt_count. lia. }
  apply (Hall empty_db). constructor.
Qed.

End Limits.

(** * More on scoring *)

Section FullMarks.

Variable repr_table : list (list pystr) -> pystr.
Variable d : db.
Variable user_answers : gmap pystr answer.

Lemma check_rows_same (t : list (list pystr)) : fst (check_rows t t) = true.
Proof.
  apply check_rows_true; [reflexivity |]. unfold same_shape, cells_match.
  split.
  - induction t; constructor; auto.
  - induction t as [| row t IH]; constructor; [| exact IH].
    induction row; constructor; auto.
Qed.

Lemma check_table_same (key : answer) : check_table key key = true.
Proof.
  unfold check_table, check_table_run. rewrite Nat.eqb_refl. simpl. apply check_rows_same.
Qed.

Lemma filter_length_all {A} (f : A -> bool) (l : list A) :
  length (List.filter f l) = length l <-> Forall (fun x => f x = true) l.
Proof.
  induction l as [| x l IH]; simpl.
  - split; [constructor | reflexivity].
  - pose proof (List.filter_length_le f l) as Hle.
    destruct (f x) eqn:Hx; simpl; split.
    + intros Hlen. constructor; [exact Hx | apply IH; lia].
    + intros Hall. inversion Hall; subst. f_equal. apply IH. assumption.
    + intros Hlen. lia.
    + intros Hall. inversion Hall; subst. congruence.
Qed.

(** X13: the scorer gives 100 exactly when the list of ids is not empty and
    every id on it is scored correct; an id whose problem is not stored is
    scored [False], so a list with such an id never reaches 100. *)
Theorem auto_score_full_marks (ids : list pystr) :
  ((fst (auto_score repr_table d ids user_answers) == 100)%Q <->
   ids <> [] /\ Forall (fun pid => verdict repr_table d user_answers pid = true) ids) /\
  (forall pid, pid ∈ ids -> get_problem d pid = None ->
     snd (auto_score repr_table d ids user_answers) !! pid = Some false /\
     ~ (fst (auto_score repr_table d ids user_answers) == 100)%Q).
Proof.
  assert (Hfull : (fst (auto_score repr_table d ids user_answers) == 100)%Q <->
            ids <> [] /\ Forall (fun pid => verdict repr_table d user_answers pid = true) ids).
  { rewrite auto_score_percentage. unfold percentage, Qeq. simpl.
    rewrite <- filter_length_all.
    pose proof (List.filter_length_le (verdict repr_table d user_answers) ids) as Hle.
    destruct ids as [| pid rest]; [simpl; split; [lia | intros [Hne _]; contradiction] |].
    set (k := length (List.filter (verdict repr_table d user_answers) (pid :: rest))) in *.
    change (Nat.max 1 (length (pid :: rest))) with (S (length rest)).
    simpl length in *. clearbody k. split.
    - intros Heq. split; [discriminate | lia].
    - intros [_ Hlen]. rewrite Hlen. lia. }
  split; [exact Hfull |].
  intros pid Hin Hmissing.
  assert (Hverdict : verdict repr_table d user_answers pid = false)
    by (unfold verdict; rewrite Hmissing; reflexivity).
  split.
  - rewrite auto_score_results, decide_True by exact Hin. rewrite Hverdict. reflexivity.
  - intros Heq. apply Hfull in Heq as [_ Hall].
    rewrite Forall_forall in Hall. specialize (Hall pid Hin). congruence.
Qed.

(** X14: an answer equal to the stored key is scored correct, for a single
    and for a table problem; so a submission that holds the stored key of
    every problem of a non-empty list scores 100. *)
Theorem key_is_correct (ids : list pystr) :
  ids <> [] ->
  (forall pid, pid ∈ ids ->
     exists prob, get_problem d pid = Some prob /\ user_answers !! pid = Some (p_answer prob)) ->
  (fst (auto_score repr_table d ids user_answers) == 100)%Q /\
  forall pid, pid ∈ ids -> snd (auto_score repr_table d ids user_answers) !! pid = Some true.
Proof.
  intros Hne Hkeys.
  assert (Hall : forall pid, pid ∈ ids -> verdict repr_table d user_answers pid = true).
  { intros pid Hin. destruct (Hkeys pid Hin) as (prob & Hprob & Hans).
    unfold verdict, check_problem. rewrite Hprob, Hans. simpl.
    destruct (decide (p_answer_type prob = single)).
    - unfold check_single. apply bool_decide_eq_true. reflexivity.
    - apply check_table_same. }
  split.
  - rewrite auto_score_percentage.
    rewrite (proj2 (filter_length_all _ ids)) by (apply Forall_forall; exact Hall).
    unfold percentage, Qeq. simpl.
    destruct ids as [| pid rest]; [contradiction |].
    change (Nat.max 1 (length (pid :: rest))) with (S (length rest)).
    simpl length. lia.
  - intros pid Hin. rewrite auto_score_results, decide_True by exact Hin.
    rewrite (Hall pid Hin). reflexivity.
Qed.

End FullMarks.

Lemma key_is_correct_sample :
  (fst (auto_score repr_plain sample_db [lit "P1"; lit "T1"]
          (<[lit "P1" := Single (lit "paris")]>
             (<[lit "T1" := Table [[lit "A"; lit "B"]; [lit "C"; lit "D"]]]> ∅))) == 100)%Q.
Proof.
  refine (proj1 (key_is_correct repr_plain sample_db _ [lit "P1"; lit "T1"] _ _)).
  - discriminate.
  - intros pid Hin.
    apply elem_of_cons in Hin as [-> | Hin];
      [| apply list_elem_of_singleton in Hin as ->]; eexists; split; reflexivity.
Defined.

(** * The grid of a table problem *)

Section Grid.

Lemma grid_of_length (rows cols : nat) (cell : nat -> nat -> pystr) :
  length (grid_of rows cols cell) = rows.
Proof. unfold grid_of. rewrite length_map, length_seq. reflexivity. Qed.

Lemma grid_of_rows (rows cols : nat) (cell : nat -> nat -> pystr) :
  Forall (fun row => length row = cols) (grid_of rows cols cell).
Proof.
  unfold grid_of. apply Forall_forall. intros row Hin.
  apply list_elem_of_fmap in Hin as (r & -> & _).
  rewrite length_map, length_seq. reflexivity.
Qed.

Lemma same_shape_columns (cols : nat) (user_tab key : list (list pystr)) :
  same_shape user_tab key ->
  Forall (fun row => length row = cols) user_tab ->
  Forall (fun row => length row = cols) key.
Proof.
  unfold same_shape. induction 1 as [| urow krow user_tab key Hrow _ IH]; intros Hall.
  - constructor.
  - inversion Hall; subst. constructor; [congruence | apply IH; assumption].
Qed.

(** X15: the grid a pupil fills in has [rows] rows of [cols] cells each, so
    it can only be scored correct against a key with exactly that many rows,
    all of [cols] cells: a key with rows of different lengths, or (the grid
    having at least one row) an empty key, is never answered correctly. *)
Theorem grid_answer_shape (rows cols : nat) (cell : nat -> nat -> pystr) (key : answer) :
  check_table (Table (grid_of rows cols cell)) key = true ->
  length (as_rows key) = rows /\
  Forall (fun row => length row = cols) (as_rows key).
Proof.
  unfold check_table, check_table_run. simpl as_rows.
  destruct (Nat.eqb_spec (length (grid_of rows cols cell)) (length (as_rows key)))
    as [Hrows | Hrows]; simpl; [| discriminate].
  intros Hok. apply (check_rows_true _ _ Hrows) in Hok as [Hshape _].
  split.
  - rewrite <- Hrows. apply grid_of_length.
  - apply (same_shape_columns cols _ _ Hshape), grid_of_rows.
Qed.

End Grid.

Lemma grid_answer_shape_sample :
  length (as_rows (Table [[lit "A"; lit "B"]; [lit "C"; lit "D"]])) = 2%nat /\
  Forall (fun row => length row = 2%nat)
    (as_rows (Table [[lit "A"; lit "B"]; [lit "C"; lit "D"]])).
Proof.
  apply (grid_answer_shape 2 2
           (fun r c => nth c (nth r [[lit "a"; lit "b"]; [lit "c"; lit "d"]] []) [])).
  reflexivity.
Defined.

(** * Feedback of the single-attempt mode *)

(** X16: in mode test1 the feedback shows, for every problem that exists, its
    correctness line and its correct answer, whatever the attempt number. *)
Theorem feedback_single_attempt_reveals (attempt_no : Z) (probs : list (option problem))
    (per_problem : gmap pystr bool) :
  covers per_problem probs ->
  exists msg,
    rendered (feedback test1 attempt_no probs per_problem)
    = (Val tt, st_info msg :: reveal_lines probs per_problem) /\
    forall p, p ∈ present probs ->
      st_result (p_id p) (flag per_problem (p_id p))
        ∈ snd (rendered (feedback test1 attempt_no probs per_problem)) /\
      st_code (p_answer p)
        ∈ snd (rendered (feedback test1 attempt_no probs per_problem)).
Proof.
  intros Hcov.
  pose proof (rendered_feedback_single_attempt attempt_no probs per_problem Hcov) as Heq.
  eexists. split; [exact Heq |]. rewrite Heq. intros p Hp. cbn [snd].
  destruct (reveal_lines_all probs per_problem p Hp) as [Hflag Hans].
  split; right; assumption.
Qed.

Lemma feedback_single_attempt_reveals_sample :
  exists msg,
    rendered (feedback test1 1 sample_probs sample_per_problem)
    = (Val tt, st_info msg :: reveal_lines sample_probs sample_per_problem) /\
    forall p, p ∈ present sample_probs ->
      st_result (p_id p) (flag sample_per_problem (p_id p))
        ∈ snd (rendered (feedback test1 1 sample_probs sample_per_problem)) /\
      st_code (p_answer p)
        ∈ snd (rendered (feedback test1 1 sample_probs sample_per_problem)).
Proof.
  apply feedback_single_attempt_reveals.
  intros p Hp. unfold sample_probs, present in Hp. simpl in Hp.
  apply list_elem_of_singleton in Hp as ->. eexists. reflexivity.
Defined.

(** * The table editor and the paper form *)

Section Editor.

Lemma join_cons (sep : codepoint) (first second : pystr) (rest : list pystr) :
  join [sep] (first :: second :: rest) = first ++ sep :: join [sep] (second :: rest).
Proof. unfold join. simpl. reflexivity. Qed.

Lemma split_on_nonempty (sep : codepoint) (s : pystr) : split_on sep s <> [].
Proof.
  induction s as [| c s IH]; simpl; [discriminate |].
  destruct (c =? sep)%N; [discriminate |]. destruct (split_on sep s); discriminate.
Qed.

Lemma split_on_plain (sep : codepoint) (s : pystr) :
  Forall (fun x => x <> sep) s -> split_on sep s = [s].
Proof.
  induction 1 as [| c s Hc _ IH]; simpl; [reflexivity |].
  rewrite (proj2 (N.eqb_neq c sep) Hc), IH. reflexivity.
Qed.

Lemma split_on_app (sep : codepoint) (piece rest : pystr) :
  Forall (fun x => x <> sep) piece ->
  split_on sep (piece ++ sep :: rest) = piece :: split_on sep rest.
Proof.
  induction 1 as [| c piece Hc _ IH]; simpl.
  - rewrite N.eqb_refl. reflexivity.
  - rewrite (proj2 (N.eqb_neq c sep) Hc), IH. reflexivity.
Qed.

Lemma split_on_join (sep : codepoint) (row : list pystr) :
  row <> [] ->
  Forall (Forall (fun x => x <> sep)) row ->
  split_on sep (join [sep] row) = row.
Proof.
  intros Hne Hrow. induction Hrow as [| first rest Hfirst Hrest IH]; [contradiction |].
  destruct rest as [| second rest].
  - unfold join. simpl. rewrite app_nil_r. apply split_on_plain, Hfirst.
  - rewrite join_cons, split_on_app by exact Hfirst. f_equal. apply IH. discriminate.
Qed.

Lemma join_split_on (sep : codepoint) (s : pystr) : join [sep] (split_on sep s) = s.
Proof.
  induction s as [| c s IH]; simpl; [reflexivity |].
  pose proof (split_on_nonempty sep s) as Hne.
  destruct (N.eqb_spec c sep) as [-> | Hc].
  - destruct (split_on sep s) as [| piece pieces]; [contradiction |].
    rewrite join_cons, IH. reflexivity.
  - destruct (split_on sep s) as [| piece pieces]; [contradiction |].
    rewrite <- IH. destruct pieces; reflexivity.
Qed.

Lemma split_on_Forall (P : codepoint -> Prop) (sep : codepoint) (s : pystr) :
  Forall P s -> Forall (Forall P) (split_on sep s).
Proof.
  induction 1 as [| c s Hc _ IH]; simpl; [repeat constructor |].
  pose proof (split_on_nonempty sep s) as Hne.
  destruct (c =? sep)%N; [constructor; [constructor | exact IH] |].
  destruct (split_on sep s) as [| piece pieces]; [contradiction |].
  inversion IH; subst. constructor; [constructor |]; assumption.
Qed.

Lemma split_on_no_sep (sep : codepoint) (s : pystr) :
  Forall (Forall (fun x => x <> sep)) (split_on sep s).
Proof.
  induction s as [| c s IH]; simpl; [repeat constructor |].
  pose proof (split_on_nonempty sep s) as Hne.
  destruct (N.eqb_spec c sep) as [-> | Hc]; [constructor; [constructor | exact IH] |].
  destruct (split_on sep s) as [| piece pieces]; [contradiction |].
  inversion IH; subst. constructor; [constructor |]; assumption.
Qed.

Lemma splitlines_plain (line : pystr) :
  line <> [] -> Forall (fun x => is_linebreak x = false) line -> splitlines line = [line].
Proof.
  intros Hne Hline. induction Hline as [| c line Hc Hline IH]; [contradiction |].
  simpl. rewrite Hc. destruct line as [| c' line]; [reflexivity |].
  rewrite IH by discriminate. reflexivity.
Qed.

Lemma splitlines_app (line rest : pystr) :
  Forall (fun x => is_linebreak x = false) line ->
  splitlines (line ++ newline :: rest) = line :: splitlines rest.
Proof.
  induction 1 as [| c line Hc _ IH]; [reflexivity |].
  simpl. rewrite Hc. simpl in IH. rewrite IH. reflexivity.
Qed.

Lemma splitlines_join (lines : list pystr) :
  Forall (fun line => line <> [] /\ Forall (fun x => is_linebreak x = false) line) lines ->
  splitlines (join [newline] lines) = lines.
Proof.
  induction 1 as [| first rest [Hne Hfirst] Hrest IH]; [reflexivity |].
  destruct rest as [| second rest].
  - unfold join. simpl. rewrite app_nil_r. apply splitlines_plain; assumption.
  - rewrite join_cons, splitlines_app by exact Hfirst. f_equal. exact IH.
Qed.

Lemma splitlines_no_break (s : pystr) :
  Forall (Forall (fun x => is_linebreak x = false)) (splitlines s).
Proof.
  assert (Hall : forall n s', (length s' <= n)%nat ->
            Forall (Forall (fun x => is_linebreak x = false)) (splitlines s')).
  { induction n as [| n IH]; intros [| c rest] Hlen; simpl in *;
      try constructor; try lia.
    destruct (is_linebreak c) eqn:Hc.
    - constructor; [constructor |].
      destruct (c =? 13)%N; [| apply IH; lia].
      destruct rest as [| c' rest']; [constructor |].
      destruct (c' =? 10)%N; apply IH; simpl in *; lia.
    - assert (Hrest : Forall (Forall (fun x => is_linebreak x = false)) (splitlines rest))
        by (apply IH; lia).
      destruct (splitlines rest) as [| line lines]; [repeat constructor; exact Hc |].
      inversion Hrest; subst. constructor; [constructor |]; assumption. }
  apply (Hall (length s)). reflexivity.
Qed.

End Editor.

Section Strip.

Lemma lstrip_shape (s : pystr) :
  lstrip s = [] \/
  exists (c : codepoint) (rest : pystr), lstrip s = c :: rest /\ is_space c = false.
Proof.
  induction s as [| c s IH]; simpl; [left; reflexivity |].
  destruct (is_space c) eqn:Hc; [exact IH | right; eauto].
Qed.

Lemma lstrip_nil (s : pystr) : lstrip s = [] -> all_spaces s.
Proof.
  unfold all_spaces. induction s as [| c s IH]; simpl; [constructor |].
  destruct (is_space c) eqn:Hc; [| discriminate].
  intros Hs. constructor; [exact Hc | apply IH, Hs].
Qed.

Lemma lstrip_snoc (s : pystr) (c : codepoint) :
  is_space c = false -> lstrip (s ++ [c]) = lstrip s ++ [c].
Proof.
  intros Hc. induction s as [| x s IH]; simpl; [rewrite Hc; reflexivity |].
  destruct (is_space x); [exact IH | reflexivity].
Qed.

Lemma rstrip_cons (c : codepoint) (s : pystr) :
  is_space c = false -> rstrip (c :: s) = c :: rstrip s.
Proof.
  intros Hc. unfold rstrip. simpl. rewrite lstrip_snoc by exact Hc.
  rewrite rev_app_distr. reflexivity.
Qed.

Lemma lstrip_idem (s : pystr) : lstrip (lstrip s) = lstrip s.
Proof.
  destruct (lstrip_shape s) as [-> | (c & rest & -> & Hc)]; [reflexivity |].
  simpl. rewrite Hc. reflexivity.
Qed.

Lemma rstrip_idem (s : pystr) : rstrip (rstrip s) = rstrip s.
Proof. unfold rstrip. rewrite rev_involutive, lstrip_idem. reflexivity. Qed.

Lemma strip_idem (s : pystr) : strip (strip s) = strip s.
Proof.
  unfold strip. destruct (lstrip_shape s) as [-> | (c & rest & -> & Hc)]; [reflexivity |].
  rewrite (rstrip_cons c rest Hc). simpl. rewrite Hc.
  rewrite <- (rstrip_cons c rest Hc). apply rstrip_idem.
Qed.

Lemma strip_nil (s : pystr) : strip s = [] -> all_spaces s.
Proof.
  unfold strip. destruct (lstrip_shape s) as [Hs | (c & rest & Hs & Hc)].
  - intros _. apply lstrip_nil, Hs.
  - rewrite Hs, (rstrip_cons c rest Hc). discriminate.
Qed.

Lemma strip_with_comma (left right : pystr) : strip (left ++ comma :: right) <> [].
Proof.
  intros Hs. apply strip_nil in Hs. unfold all_spaces in Hs.
  apply Forall_app in Hs as [_ Hs]. inversion Hs as [| ? ? Hcomma _]. discriminate Hcomma.
Qed.

End Strip.

Section RoundTrip.

Lemma join_Forall (P : codepoint -> Prop) (sep : codepoint) (row : list pystr) :
  P sep -> Forall (Forall P) row -> Forall P (join [sep] row).
Proof.
  intros Hsep Hrow. induction Hrow as [| first rest Hfirst Hrest IH]; [constructor |].
  destruct rest as [| second rest].
  - unfold join. simpl. rewrite app_nil_r. exact Hfirst.
  - rewrite join_cons. apply Forall_app. split; [exact Hfirst |].
    constructor; [exact Hsep | exact IH].
Qed.

Lemma filter_all {A} (f : A -> bool) (l : list A) :
  Forall (fun x => f x = true) l -> List.filter f l = l.
Proof. induction 1 as [| x l Hx _ IH]; simpl; [| rewrite Hx, IH]; reflexivity. Qed.

Lemma plain_row_line (row : list pystr) :
  plain_row row ->
  join [comma] row <> [] /\ Forall (fun x => is_linebreak x = false) (join [comma] row).
Proof.
  intros (_ & Hcells & Hline). split.
  - intros Hnil. rewrite Hnil in Hline. apply Hline. reflexivity.
  - apply join_Forall; [reflexivity |].
    eapply Forall_impl; [exact Hcells |]. intros c [_ Hc].
    eapply Forall_impl; [exact Hc |]. intros x [_ Hx]. exact Hx.
Qed.

Lemma plain_row_cells (row : list pystr) :
  plain_row row -> map strip (split_on comma (join [comma] row)) = row.
Proof.
  intros (Hne & Hcells & _). rewrite split_on_join; [| exact Hne |].
  - clear Hne. induction Hcells as [| c rest [Hc _] _ IH]; simpl; [reflexivity |].
    rewrite Hc. f_equal. exact IH.
  - eapply Forall_impl; [exact Hcells |]. intros c [_ Hc].
    eapply Forall_impl; [exact Hc |]. intros x [Hx _]. exact Hx.
Qed.

Lemma parse_render (t : list (list pystr)) :
  Forall plain_row t -> parse_table (render_table t) = t.
Proof.
  intros Ht. unfold parse_table, render_table.
  rewrite splitlines_join.
  2:{ apply Forall_fmap. eapply Forall_impl; [exact Ht |].
      intros row Hrow. apply plain_row_line, Hrow. }
  rewrite filter_all.
  2:{ apply Forall_fmap. eapply Forall_impl; [exact Ht |].
      intros row (_ & _ & Hline). simpl. apply negb_true_iff, bool_decide_eq_false.
      exact Hline. }
  rewrite map_map. induction Ht as [| row t Hrow _ IH]; simpl; [reflexivity |].
  rewrite (plain_row_cells row Hrow). f_equal. exact IH.
Qed.

Lemma parsed_row_plain (line : pystr) :
  Forall (fun x => is_linebreak x = false) line ->
  strip line <> [] ->
  plain_row (map strip (split_on comma line)).
Proof.
  intros Hbreak Hline. repeat split.
  - pose proof (split_on_nonempty comma line). destruct (split_on comma line);
      [contradiction | discriminate].
  - apply Forall_fmap.
    pose proof (split_on_no_sep comma line) as Hcomma.
    pose proof (split_on_Forall _ comma line Hbreak) as Hpieces.
    induction Hcomma as [| piece pieces Hpiece _ IH]; [constructor |].
    inversion Hpieces; subst. constructor; [| apply IH; assumption].
    split; [apply strip_idem |]. apply strip_Forall.
    apply Forall_and. split; assumption.
  - pose proof (join_split_on comma line) as Hjoin.
    destruct (split_on comma line) as [| piece [| second pieces]] eqn:Hsplit.
    + destruct (split_on_nonempty comma line Hsplit).
    + unfold join in Hjoin. simpl in Hjoin. rewrite app_nil_r in Hjoin. subst piece.
      unfold join. simpl. rewrite app_nil_r, strip_idem. exact Hline.
    + simpl map. rewrite join_cons. apply strip_with_comma.
Qed.

Lemma parse_table_plain (table_text : pystr) : Forall plain_row (parse_table table_text).
Proof.
  unfold parse_table. apply Forall_fmap.
  pose proof (splitlines_no_break table_text) as Hlines.
  induction Hlines as [| line lines Hline _ IH]; simpl; [constructor |].
  destruct (bool_decide (strip line = [])) eqn:Hblank; simpl; [exact IH |].
  constructor; [| exact IH].
  apply parsed_row_plain; [exact Hline | exact (bool_decide_eq_false_1 _ Hblank)].
Qed.

(** X17: the table editor gives a stored grid back unchanged: the text it
    shows for the grid reads back to the same grid, when every row has a cell,
    no cell has blanks at its ends, a comma or a line boundary, and no row is
    a single empty cell. *)
Theorem editor_round_trip (t : list (list pystr)) :
  Forall plain_row t -> parse_table (render_table t) = t.
Proof. apply parse_render. Qed.

(** X18: every grid read from the text area is one the editor gives back
    unchanged: its rows are not empty, its cells have no blanks at their ends,
    no comma and no line boundary, and the text shown for it when the problem
    is opened again reads back to the same grid, whatever was typed. *)
Theorem editor_reads_plain_grids (table_text : pystr) :
  Forall (fun row => row <> [] /\
                     Forall (fun c => strip c = c /\ Forall (fun x => x <> comma) c) row)
    (parse_table table_text) /\
  parse_table (render_table (parse_table table_text)) = parse_table table_text.
Proof.
  pose proof (parse_table_plain table_text) as Hplain. split.
  - eapply Forall_impl; [exact Hplain |]. intros row (Hne & Hcells & _).
    split; [exact Hne |]. eapply Forall_impl; [exact Hcells |].
    intros c [Hstrip Hc]. split; [exact Hstrip |].
    eapply Forall_impl; [exact Hc |]. intros x [Hx _]. exact Hx.
  - apply parse_render, Hplain.
Qed.

(** X19: the paper form keeps only usable ids: every id it reads from the
    comma-separated input is non-empty, has no blanks at its ends and no
    comma; with an empty title or no id left it creates nothing; otherwise it
    creates one paper, under an id that was free, with exactly those ids. *)
Theorem press_create_paper_checked (d : db) (teacher_id : Z) (now t raw_ids : pystr)
    (m : mode) (show_ids : bool) :
  Forall (fun pid => pid <> [] /\ strip pid = pid /\ Forall (fun x => x <> comma) pid)
    (parse_ids raw_ids) /\
  (t = [] \/ parse_ids raw_ids = [] ->
   press_create_paper d teacher_id now t raw_ids m show_ids = (d, None)) /\
  (t <> [] -> parse_ids raw_ids <> [] ->
   exists d' pid,
     press_create_paper d teacher_id now t raw_ids m show_ids = (d', Some pid) /\
     get_paper d pid = None /\
     get_paper d' pid
     = Some {| title := t; problem_ids := parse_ids raw_ids; paper_mode := m;
               show_problem_ids := show_ids; created_by := Some teacher_id;
               created_at := now |} /\
     length (papers d') = S (length (papers d))).
Proof.
  split; [| split].
  - unfold parse_ids. apply Forall_fmap.
    pose proof (split_on_no_sep comma raw_ids) as Hpieces.
    induction Hpieces as [| piece pieces Hpiece _ IH]; simpl; [constructor |].
    destruct (bool_decide (strip piece = [])) eqn:Hblank; simpl; [exact IH |].
    constructor; [| exact IH]. simpl. repeat split.
    + exact (bool_decide_eq_false_1 _ Hblank).
    + apply strip_idem.
    + apply strip_Forall, Hpiece.
  - intros Hempty. unfold press_create_paper.
    destruct Hempty as [-> | ->]; [reflexivity |].
    rewrite orb_true_r. reflexivity.
  - intros Ht Hids. unfold press_create_paper.
    rewrite (bool_decide_eq_false_2 _ Ht), (bool_decide_eq_false_2 _ Hids). simpl.
    eexists _, _. split; [reflexivity |].
    destruct (create_paper_get_paper_fresh d teacher_id now t (parse_ids raw_ids) m show_ids)
      as (Hfresh & Hnew & _).
    split; [exact Hfresh |]. split; [exact Hnew |].
    simpl. rewrite length_app. simpl. lia.
Qed.

End RoundTrip.

Lemma editor_round_trip_sample :
  parse_table (render_table [[lit "A"; lit "B"]; [lit "C"; lit "D"]])
  = [[lit "A"; lit "B"]; [lit "C"; lit "D"]].
Proof.
  apply editor_round_trip.
  repeat constructor; try discriminate; try reflexivity;
    vm_compute; discriminate.
Defined.

(** * The queries of the home page *)

Section HomeQueries.

Lemma rows_lookup (l : list paper) (off : nat) (paper_id : Z) :
  (list_to_map (imap (fun i pp => (Z.of_nat (off + i) + 1, pp)) l) : gmap Z paper) !! paper_id
  = if paper_id <? Z.of_nat off + 1 then None
    else l !! Z.to_nat (paper_id - 1 - Z.of_nat off).
Proof.
  revert off. induction l as [| pp l IH]; intros off.
  - simpl. rewrite lookup_empty. destruct (paper_id <? Z.of_nat off + 1); reflexivity.
  - rewrite imap_cons, list_to_map_cons.
    rewrite (imap_ext _ (fun i pp => (Z.of_nat (S off + i) + 1, pp)))
      by (intros i x _; simpl; do 2 f_equal; lia).
    destruct (Z.eq_dec paper_id (Z.of_nat off + 1)) as [-> | Hne].
    + rewrite Nat.add_0_r, lookup_insert_eq.
      rewrite (proj2 (Z.ltb_ge _ _)) by lia.
      replace (Z.to_nat (Z.of_nat off + 1 - 1 - Z.of_nat off)) with 0%nat by lia.
      reflexivity.
    + rewrite Nat.add_0_r, lookup_insert_ne by congruence. rewrite IH.
      destruct (Z.ltb_spec paper_id (Z.of_nat off + 1)) as [Hlow | Hhigh].
      * rewrite (proj2 (Z.ltb_lt _ _)) by lia. reflexivity.
      * rewrite (proj2 (Z.ltb_ge _ _)) by lia.
        replace (Z.to_nat (paper_id - 1 - Z.of_nat off))
          with (S (Z.to_nat (paper_id - 1 - Z.of_nat (S off)))) by lia.
        reflexivity.
Qed.

Lemma paper_rows_lookup (d : db) (paper_id : Z) :
  (list_to_map (paper_rows d) : gmap Z paper) !! paper_id = get_paper d paper_id.
Proof.
  unfold paper_rows, get_paper.
  rewrite (imap_ext _ (fun i pp => (Z.of_nat (0 + i) + 1, pp))) by reflexivity.
  rewrite rows_lookup. simpl. rewrite Z.sub_0_r. reflexivity.
Qed.

Lemma selected_rows_lookup (rows : list (Z * paper)) (paper_ids : list Z) (paper_id : Z) :
  (list_to_map
     (map (fun row => (fst row, length (problem_ids (snd row))))
        (List.filter (fun row => bool_decide (fst row ∈ paper_ids)) rows)) : gmap Z nat)
    !! paper_id
  = if decide (paper_id ∈ paper_ids)
    then (fun pp => length (problem_ids pp)) <$> (list_to_map rows : gmap Z paper) !! paper_id
    else None.
Proof.
  induction rows as [| [k pp] rows IH]; simpl.
  - rewrite !lookup_empty. destruct (decide (paper_id ∈ paper_ids)); reflexivity.
  - destruct (decide (k ∈ paper_ids)) as [Hk | Hk].
    + rewrite (bool_decide_eq_true_2 _ Hk). simpl.
      destruct (decide (paper_id = k)) as [-> | Hne].
      * rewrite !lookup_insert_eq, decide_True by exact Hk. reflexivity.
      * rewrite !lookup_insert_ne by congruence. exact IH.
    + rewrite (bool_decide_eq_false_2 _ Hk). rewrite IH.
      destruct (decide (paper_id ∈ paper_ids)) as [Hin | Hout]; [| reflexivity].
      rewrite lookup_insert_ne by congruence. reflexivity.
Qed.

(** X20: [get_problem_count_for_papers] gives the empty dict for the empty
    list.  For a list of no more ids than SQLite allows variables in a
    statement, all of them within the signed 64-bit integers, it gives a dict
    that maps each id of the list that is a paper to the number of problem ids
    the paper lists (missing problems and repeated ids counted), and has no
    other key.  For a longer list it raises OperationalError, and for a list
    within the limit that holds an id outside 64 bits OverflowError. *)
Theorem get_problem_count_for_papers_lookup (max_variable_number : nat) (d : db)
    (paper_ids : list Z) :
  get_problem_count_for_papers max_variable_number d [] = Val ∅ /\
  ((length paper_ids <= max_variable_number)%nat ->
   Forall (fun paper_id => sqlite_int paper_id = true) paper_ids ->
   exists sizes : gmap Z nat,
     get_problem_count_for_papers max_variable_number d paper_ids = Val sizes /\
     forall paper_id,
       sizes !! paper_id
       = if decide (paper_id ∈ paper_ids)
         then (fun pp => length (problem_ids pp)) <$> get_paper d paper_id
         else None) /\
  ((max_variable_number < length paper_ids)%nat ->
   get_problem_count_for_papers max_variable_number d paper_ids = Raise OperationalError) /\
  ((length paper_ids <= max_variable_number)%nat ->
   Exists (fun paper_id => sqlite_int paper_id = false) paper_ids ->
   get_problem_count_for_papers max_variable_number d paper_ids = Raise OverflowError).
Proof.
  split; [reflexivity |]. split; [| split].
  - intros Hlen Hint. unfold get_problem_count_for_papers.
    destruct paper_ids as [| first rest].
    + exists ∅. split; [reflexivity |]. intros paper_id.
      rewrite lookup_empty, decide_False by (intros Hin; inversion Hin). reflexivity.
    + rewrite (proj2 (Nat.ltb_ge _ _) Hlen).
      rewrite (proj2 (forallb_forall _ _)).
      2:{ intros x Hx. rewrite Forall_forall in Hint. apply Hint, list_elem_of_In, Hx. }
      eexists. split; [reflexivity |]. intros paper_id.
      rewrite selected_rows_lookup, paper_rows_lookup. reflexivity.
  - intros Hlen. unfold get_problem_count_for_papers.
    destruct paper_ids as [| first rest]; [simpl in Hlen; lia |].
    rewrite (proj2 (Nat.ltb_lt _ _) Hlen). reflexivity.
  - intros Hlen Hbig. unfold get_problem_count_for_papers.
    destruct paper_ids as [| first rest]; [inversion Hbig |].
    rewrite (proj2 (Nat.ltb_ge _ _) Hlen).
    destruct (forallb sqlite_int (first :: rest)) eqn:Hall; [| reflexivity].
    rewrite forallb_forall in Hall. apply Exists_exists in Hbig as (x & Hx & Hfalse).
    rewrite (Hall x) in Hfalse by (apply list_elem_of_In, Hx). discriminate Hfalse.
Qed.

End HomeQueries.

(** * An attempt within the limit *)

Section WithinLimit.

Variable repr_table : list (list pystr) -> pystr.

Lemma fold_answers_other (inp : widgets) (ps : list problem) (acc : gmap pystr answer)
    (pid : pystr) :
  pid ∉ map p_id ps ->
  fold_left (fun acc p => <[p_id p := typed_in inp p]> acc) ps acc !! pid
  = acc !! pid.
Proof.
  revert acc. induction ps as [| p ps IH]; intros acc Hout; simpl; [reflexivity |].
  rewrite IH by (intros Hin; apply Hout; right; exact Hin).
  apply lookup_insert_ne. intros Heq. apply Hout. rewrite <- Heq. left.
Qed.

Lemma fold_answers_lookup (inp : widgets) (ps : list problem) (acc : gmap pystr answer)
    (p : problem) :
  NoDup (map p_id ps) -> p ∈ ps ->
  fold_left (fun acc p => <[p_id p := typed_in inp p]> acc) ps acc !! p_id p
  = Some (typed_in inp p).
Proof.
  revert acc. induction ps as [| q ps IH]; intros acc Hnodup Hin; [inversion Hin |].
  simpl in *. apply NoDup_cons in Hnodup as [Hq Hnodup].
  apply elem_of_cons in Hin as [-> | Hin].
  - rewrite fold_answers_other by exact Hq. apply lookup_insert_eq.
  - apply IH; assumption.
Qed.

Lemma may_attempt_under_limit (m : mode) (k : Z) :
  match attempt_limit m with Some limit => k < limit | None => True end ->
  may_attempt m k = true.
Proof.
  unfold may_attempt. destruct m; simpl; [reflexivity | |]; intros Hk;
    destruct (Z.leb_spec 1 k), (Z.leb_spec 2 k); simpl; try reflexivity; lia.
Qed.

(** X21: an attempt within the limit of the mode (any attempt in training
    mode) on a paper whose id is within the signed 64-bit integers, whose
    existing problems are distinct and such that the widgets of each can be
    shown (a table key of 1 to 20 rows with a first row of 1 to 20 cells), is
    scored and recorded: the page ends normally, appends one submission
    numbered one more than the count, and the count of the pair goes up by
    one.  The answers stored have exactly the displayed problems as keys: the
    text input for a single problem, the grid for a table problem. *)
Theorem allowed_attempt_recorded (u : user) (inp : widgets) (now : pystr) (d : db)
    (paper_id : Z) (pp : paper) :
  u_role u = pupil ->
  paper_id_input inp = paper_number paper_id ->
  sqlite_int paper_id = true ->
  get_paper d paper_id = Some pp ->
  NoDup (resolved_ids (map (get_problem d) (problem_ids pp))) ->
  Forall (fun p => fits p = true) (present (map (get_problem d) (problem_ids pp))) ->
  submit_paper inp = true ->
  match attempt_limit (paper_mode pp) with
  | Some limit => get_attempt_count d paper_id (u_id u) < limit
  | None => True
  end ->
  let sub := new_submission repr_table d u inp now paper_id pp in
  fst (run_page repr_table (Some u) inp now d) = Val tt /\
  submissions (w_db (snd (run_page repr_table (Some u) inp now d)))
  = submissions d ++ [sub] /\
  s_attempt_no sub = get_attempt_count d paper_id (u_id u) + 1 /\
  get_attempt_count (w_db (snd (run_page repr_table (Some u) inp now d))) paper_id (u_id u)
  = get_attempt_count d paper_id (u_id u) + 1 /\
  (forall p, p ∈ present (map (get_problem d) (problem_ids pp)) ->
     s_answers sub !! p_id p
     = Some (if decide (p_answer_type p = single)
             then Single (single_input inp (p_id p))
             else Table (grid_input inp (p_id p)))) /\
  (forall pid, pid ∉ resolved_ids (map (get_problem d) (problem_ids pp)) ->
     s_answers sub !! pid = None).
Proof.
  intros Hrole Hinput Hint Hpaper Hnodup Hfits Hsubmit Hlimit sub.
  apply may_attempt_under_limit in Hlimit.
  rewrite (run_page_accepted repr_table u inp now d paper_id pp Hrole Hinput Hpaper
             Hint Hnodup Hfits Hsubmit Hlimit).
  cbn [fst snd w_db submissions]. repeat split.
  - unfold get_attempt_count at 1. cbn [submissions].
    rewrite List.filter_app, length_app. simpl. unfold of_pair at 2. simpl.
    rewrite !bool_decide_eq_true_2 by reflexivity. simpl. unfold get_attempt_count. lia.
  - intros p Hp. subst sub. unfold new_submission, answers_of. cbn [s_answers].
    rewrite resolved_ids_present in Hnodup.
    rewrite (fold_answers_lookup inp _ ∅ p Hnodup Hp). reflexivity.
  - intros pid Hout. subst sub. unfold new_submission, answers_of. cbn [s_answers].
    rewrite resolved_ids_present in Hout.
    rewrite fold_answers_other by exact Hout. apply lookup_empty.
Qed.

End WithinLimit.

Lemma allowed_attempt_recorded_sample :
  fst (run_page repr_plain (Some alice) (sample_widgets 2 (lit "Paris") [[lit "a"]])
         sample_now sample_db) = Val tt /\
  get_attempt_count
    (w_db (snd (run_page repr_plain (Some alice) (sample_widgets 2 (lit "Paris") [[lit "a"]])
                  sample_now sample_db))) 2 (u_id alice)
  = get_attempt_count sample_db 2 (u_id alice) + 1.
Proof.
  assert (Hnodup : NoDup (resolved_ids (map (get_problem sample_db)
                    (problem_ids (sample_paper [lit "P1"; lit "T1"] test2))))).
  { vm_compute. apply NoDup_cons. split; [| apply NoDup_singleton].
    intros Hin. apply list_elem_of_singleton in Hin. discriminate Hin. }
  assert (Hlimit : match attempt_limit (paper_mode (sample_paper [lit "P1"; lit "T1"] test2)) with
                   | Some limit => get_attempt_count sample_db 2 (u_id alice) < limit
                   | None => True
                   end) by (vm_compute; reflexivity).
  assert (Hfits : Forall (fun p => fits p = true)
                    (present (map (get_problem sample_db)
                       (problem_ids (sample_paper [lit "P1"; lit "T1"] test2)))))
    by (vm_compute; repeat constructor).
  pose proof (allowed_attempt_recorded repr_plain alice
                (sample_widgets 2 (lit "Paris") [[lit "a"]]) sample_now sample_db 2
                (sample_paper [lit "P1"; lit "T1"] test2)
                eq_refl eq_refl eq_refl eq_refl Hnodup Hfits eq_refl Hlimit)
    as (Hends & _ & _ & Hcount & _).
  split; [exact Hends | exact Hcount].
Defined.

Lemma page_pupil_paper_pupils_only_sample :
  fst (run_page repr_plain
         (Some {| u_id := 1; u_role := teacher; u_name := lit "Teacher One";
                  u_email := lit "teacher@example.com" |})
         sample_submit sample_now sample_db) = Return /\
  w_db (snd (run_page repr_plain
               (Some {| u_id := 1; u_role := teacher; u_name := lit "Teacher One";
                        u_email := lit "teacher@example.com" |})
               sample_submit sample_now sample_db)) = sample_db.
Proof.
  pose proof (page_pupil_paper_pupils_only repr_plain
                (Some {| u_id := 1; u_role := teacher; u_name := lit "Teacher One";
                         u_email := lit "teacher@example.com" |})
                sample_submit sample_now sample_db) as H.
  destruct H as (Hends & Hdb & _).
  - intros u Hu. injection Hu as <-. discriminate.
  - split; [exact Hends | exact Hdb].
Defined.

Lemma page_pupil_paper_reads_only_sample :
  w_db (snd (run_page repr_plain (Some alice)
               {| paper_id_input := paper_number 1; single_input := fun _ => lit "Paris";
                  rows_input := fun _ => 2%nat; cols_input := fun _ => 2%nat;
                  cell_input := fun _ _ _ => []; submit_paper := false |}
               sample_now sample_db)) = sample_db.
Proof.
  exact (proj1 (page_pupil_paper_reads_only repr_plain (Some alice)
                  {| paper_id_input := paper_number 1; single_input := fun _ => lit "Paris";
                     rows_input := fun _ => 2%nat; cols_input := fun _ => 2%nat;
                     cell_input := fun _ _ _ => []; submit_paper := false |}
                  sample_now sample_db eq_refl)).
Defined.

Lemma page_pupil_paper_not_found_sample :
  run_page repr_plain (Some alice) (sample_widgets 7 (lit "Paris") []) sample_now sample_db
  = (Return, add_out (start sample_db)
               [st_header "Take a Paper"; st_error "Paper not found."]).
Proof.
  exact (proj1 (page_pupil_paper_not_found repr_plain alice
                  (sample_widgets 7 (lit "Paris") []) sample_now sample_db 7 eq_refl eq_refl)
           eq_refl eq_refl).
Defined.
